(** * Quantum ESPRESSO log parser (tilde/parsers/QuantumESPRESSO/QuantumESPRESSO.py)

    A shallow embedding of the parser class [QuantumESPRESSO]: its format
    detector [fingerprints] and the line scan of [__init__].

    The source is Python 2 ([map] returns a list whose [len] is taken), so a
    [str] is a byte string: it is modelled by [string], one [ascii] per byte.
    Exceptions are explicit: every operation that can raise returns a [res].
    The file's lines and the file system are inputs of [__init__]; paths are
    those of [posixpath].  The arithmetic of numpy, ASE and [time] is an
    interface, [Lib]; the shapes of numpy arrays and the checks ASE makes on
    them are modelled, since the handlers raise or not by them. *)

From Stdlib Require Import String Ascii List ZArith Bool Lia QArith DecimalString.
Import ListNotations.
Open Scope string_scope.
Open Scope Z_scope.

(** ** Python [str] and [list] primitives used by the parser *)

Module Py.

(** Bytes that [str.split()] and [str.strip()] treat as blank: space, and
    the control characters 9 to 13 (tab, newline, vertical tab, form feed,
    carriage return). *)
Definition is_space (c : ascii) : bool :=
  let n := nat_of_ascii c in
  Nat.eqb n 32 || (Nat.leb 9 n && Nat.leb n 13).

Definition is_digit (c : ascii) : bool :=
  let n := nat_of_ascii c in
  Nat.leb 48 n && Nat.leb n 57.

Definition mem_char (cs : string) (c : ascii) : bool :=
  existsb (Ascii.eqb c) (list_ascii_of_string cs).

(** [s.startswith(p)] *)
Fixpoint startswith (s p : string) {struct p} : bool :=
  match p with
  | EmptyString => true
  | String a p' =>
      match s with
      | EmptyString => false
      | String b s' => Ascii.eqb a b && startswith s' p'
      end
  end.

(** [p in s] *)
Fixpoint contains (s p : string) : bool :=
  startswith s p ||
  match s with
  | EmptyString => false
  | String _ s' => contains s' p
  end.

(** [s.find(p)]: the index of the first occurrence, [-1] when there is none. *)
Fixpoint find_from (s p : string) (i : Z) : Z :=
  if startswith s p then i
  else match s with
       | EmptyString => -1
       | String _ s' => find_from s' p (i + 1)
       end.

Definition find (s p : string) : Z := find_from s p 0.

Fixpoint take (k : nat) (s : string) : string :=
  match k, s with
  | S k', String c s' => String c (take k' s')
  | _, _ => EmptyString
  end.

Fixpoint drop (k : nat) (s : string) : string :=
  match k, s with
  | S k', String _ s' => drop k' s'
  | _, _ => s
  end.

(** [s[:k]]: a negative bound counts from the end. *)
Definition slice_to (s : string) (k : Z) : string :=
  if k <? 0 then take (Z.to_nat (Z.of_nat (String.length s) + k)) s
  else take (Z.to_nat k) s.

(** [l[a:b]] on a list, with Python's reading of negative and
    out-of-range bounds. *)
Definition clip (len i : Z) : nat :=
  Z.to_nat (Z.min len (Z.max 0 (if i <? 0 then len + i else i))).

Definition slice {A} (l : list A) (a b : Z) : list A :=
  let len := Z.of_nat (List.length l) in
  let lo := clip len a in
  let hi := clip len b in
  firstn (hi - lo) (skipn lo l).

(** [l[i]]: [None] stands for IndexError. *)
Definition index {A} (l : list A) (i : Z) : option A :=
  let len := Z.of_nat (List.length l) in
  let j := if i <? 0 then len + i else i in
  if (j <? 0) || (len <=? j) then None else nth_error l (Z.to_nat j).

Fixpoint lstrip_by (f : ascii -> bool) (s : string) : string :=
  match s with
  | EmptyString => EmptyString
  | String c s' => if f c then lstrip_by f s' else s
  end.

Fixpoint rstrip_by (f : ascii -> bool) (s : string) : string :=
  match s with
  | EmptyString => EmptyString
  | String c s' =>
      match rstrip_by f s' with
      | EmptyString => if f c then EmptyString else String c EmptyString
      | r => String c r
      end
  end.

(** [s.strip(chars)] removes the bytes of [chars] from both ends. *)
Definition strip_by (f : ascii -> bool) (s : string) : string :=
  rstrip_by f (lstrip_by f s).

Definition strip (s : string) : string := strip_by is_space s.
Definition strip_chars (s cs : string) : string := strip_by (mem_char cs) s.

Definition flush (cur : list ascii) : list string :=
  match cur with
  | [] => []
  | _ => [string_of_list_ascii (rev cur)]
  end.

(** [s.split()]: the maximal runs of non-blank bytes. *)
Fixpoint split_ws_go (s : string) (cur : list ascii) : list string :=
  match s with
  | EmptyString => flush cur
  | String c s' =>
      if is_space c then (flush cur ++ split_ws_go s' [])%list
      else split_ws_go s' (c :: cur)
  end.

Definition split_ws (s : string) : list string := split_ws_go s [].

(** [s.split(sep)] for a non-empty separator: [skip] counts the bytes of a
    separator just matched that are still to be passed over. *)
Fixpoint split_go (sep s : string) (skip : nat) (cur : list ascii) : list string :=
  match s with
  | EmptyString => [string_of_list_ascii (rev cur)]
  | String c s' =>
      match skip with
      | S k => split_go sep s' k cur
      | O =>
          if startswith s sep
          then string_of_list_ascii (rev cur) :: split_go sep s' (String.length sep - 1) []
          else split_go sep s' 0 (c :: cur)
      end
  end.

Definition split (s sep : string) : list string := split_go sep s 0 [].

(** [s.replace(old, new)] for a non-empty [old]. *)
Fixpoint replace_go (old new s : string) (skip : nat) : string :=
  match s with
  | EmptyString => EmptyString
  | String c s' =>
      match skip with
      | S k => replace_go old new s' k
      | O =>
          if startswith s old
          then new ++ replace_go old new s' (String.length old - 1)
          else String c (replace_go old new s' 0)
      end
  end.

Definition replace (s old new : string) : string := replace_go old new s 0.

Definition lower_char (c : ascii) : ascii :=
  let n := nat_of_ascii c in
  if Nat.leb 65 n && Nat.leb n 90 then ascii_of_nat (n + 32) else c.

Fixpoint lower (s : string) : string :=
  match s with
  | EmptyString => EmptyString
  | String c s' => String (lower_char c) (lower s')
  end.

(** [sep.join(l)] *)
Definition join (sep : string) (l : list string) : string := String.concat sep l.

(** The last element of a [split]: the result of [split] is never empty. *)
Definition last_part (l : list string) : string := List.last l "".

Definition mem_str (x : string) (l : list string) : bool :=
  existsb (String.eqb x) l.

End Py.

Definition nl : string := String (ascii_of_nat 10) EmptyString.

(** ** Exceptions *)

(** The exceptions a run can end with.  [UnrecognizedFormat] is the failure
    the specification names for the extractor; no statement of the source
    raises it. *)
Inductive exn : Type :=
| IndexError | ValueError | KeyError | TypeError | AttributeError | LinAlgError
| UnrecognizedFormat.

Inductive res (A : Type) : Type :=
| Ok (a : A)
| Raise (e : exn).
Arguments Ok {A} a.
Arguments Raise {A} e.

Definition bind {A B} (m : res A) (k : A -> res B) : res B :=
  match m with
  | Ok a => k a
  | Raise e => Raise e
  end.

Notation "x <- m ;; k" := (bind m (fun x => k))
  (at level 61, m at next level, right associativity).

Definition or_raise {A} (e : exn) (o : option A) : res A :=
  match o with
  | Some a => Ok a
  | None => Raise e
  end.

(** [[f(x) for x in l]]: the first failure raises. *)
Fixpoint map_res {A B} (f : A -> res B) (l : list A) : res (list B) :=
  match l with
  | [] => Ok []
  | x :: l' => y <- f x ;; ys <- map_res f l' ;; Ok (y :: ys)
  end.

(** ** The libraries the parser calls

    numpy, ASE and [time] are not part of the repository.  What the parser
    needs of their arithmetic is an interface: a development over [Lib] holds
    for every reading of floating-point numbers, of ASE's constants and
    tables, and of [time.strptime]. *)

Class Lib : Type := {
  (** Python floats *)
  num : Type;
  (** [float(s)]; [None] is ValueError *)
  float : string -> option num;
  (** [x * y] *)
  mul : num -> num -> num;
  (** a Python int where a float is computed with *)
  of_int : Z -> num;
  (** the truth value of a float: [not x] *)
  is_zero : num -> bool;
  (** [ase.units.Bohr], [ase.units.Rydberg] *)
  Bohr : num;
  Rydberg : num;
  (** [ase.data.chemical_symbols] *)
  chemical_symbols : list string;
  (** [numpy.dot(a, b)] of two float matrices *)
  np_dot : list (list num) -> list (list num) -> list (list num);
  (** [Atoms.set_cell(new, scale_atoms=True)] on positions [p] with the old
      cell [old]: [dot(p, solve(old, new))]; [None] is LinAlgError *)
  scale_atoms : list (list num) -> list (list num) -> list (list num) ->
                option (list (list num));
  (** ["%2.2f" % (timedelta(hours, minutes, seconds).total_seconds()/3600)]
      of [time.strptime(d, fmt)]; [None] is the ValueError of [strptime] *)
  strptime_hours : string -> string -> option string
}.

Section Parser.

Context {L : Lib}.

Definition matrix : Type := list (list num).

(** A Python number that is an int or a float ([alat] starts as the int
    [0] and may become the int [1]). *)
Inductive pynum : Type :=
| PyInt (z : Z)
| PyFloat (x : num).

Definition truthy (a : pynum) : bool :=
  match a with
  | PyInt z => negb (z =? 0)
  | PyFloat x => negb (is_zero x)
  end.

Definition to_float (a : pynum) : num :=
  match a with
  | PyInt z => of_int z
  | PyFloat x => x
  end.

(** The values [cell_data] and [pos_data] take: a Python list of rows, a
    numpy float array (rectangular), or the numpy object array of Python
    lists that [array] builds from rows of unequal lengths. *)
Inductive pyseq : Type :=
| PyList (rows : matrix)
| NdArray (rows : matrix)
| NdObject (rows : matrix).

Definition rows_of (v : pyseq) : matrix :=
  match v with
  | PyList r | NdArray r | NdObject r => r
  end.

(** [len(v)] *)
Definition len (v : pyseq) : nat := List.length (rows_of v).

Definition rectangular (rows : matrix) : bool :=
  match rows with
  | [] => true
  | r :: rest => forallb (fun r' => Nat.eqb (List.length r') (List.length r)) rest
  end.

(** [numpy.array(rows)] *)
Definition np_array (rows : matrix) : pyseq :=
  if rectangular rows then NdArray rows else NdObject rows.

(** [numpy.array(v)] of a value that may be an array already *)
Definition as_array (v : pyseq) : pyseq :=
  match v with
  | PyList rows => np_array rows
  | _ => v
  end.

Definition repeat_list {A} (l : list A) (z : Z) : list A :=
  List.concat (List.repeat l (Z.to_nat z)).

(** [v * a].  A float array is scaled entry by entry; a Python list can
    only be repeated an int number of times. *)
Definition times (v : pyseq) (a : pynum) : res pyseq :=
  match v, a with
  | NdArray rows, _ => Ok (NdArray (map (map (fun x => mul x (to_float a))) rows))
  | PyList rows, PyInt z => Ok (PyList (repeat_list rows z))
  | NdObject rows, PyInt z => Ok (NdObject (map (fun r => repeat_list r z) rows))
  | _, PyFloat _ => Raise TypeError
  end.

Fixpoint set_nth {A} (i : nat) (x : A) (l : list A) : list A :=
  match l, i with
  | [], _ => []
  | _ :: l', O => x :: l'
  | y :: l', S i' => y :: set_nth i' x l'
  end.

(** [v[i][:] = vals].  Row [i] must exist (IndexError); a row of a float
    array takes as many values as it has entries, or one value for all of
    them (ValueError otherwise); a row that is a Python list is replaced. *)
Definition assign_row (v : pyseq) (i : nat) (vals : list num) : res pyseq :=
  match nth_error (rows_of v) i with
  | None => Raise IndexError
  | Some row =>
      match v with
      | NdArray rows =>
          if Nat.eqb (List.length vals) (List.length row)
          then Ok (NdArray (set_nth i vals rows))
          else match vals with
               | [x] => Ok (NdArray (set_nth i (map (fun _ => x) row) rows))
               | _ => Raise ValueError
               end
      | PyList rows => Ok (PyList (set_nth i vals rows))
      | NdObject rows => Ok (NdObject (set_nth i vals rows))
      end
  end.

(** *** ASE's [Atoms] *)

Record Atoms : Type := mkAtoms {
  symbols : list string;
  positions : matrix;
  cell : matrix;
  pbc : bool * bool * bool
}.

(** [bool(atoms)]: an [Atoms] object has a length, its number of atoms. *)
Definition atoms_truthy (a : option Atoms) : bool :=
  match a with
  | Some x => negb (Nat.eqb (List.length (symbols x)) 0)
  | None => false
  end.

Definition is_3x3 (v : pyseq) : option matrix :=
  match v with
  | NdArray ([[_; _; _]; [_; _; _]; [_; _; _]] as m) => Some m
  | _ => None
  end.

Definition is_nx3 (v : pyseq) : option matrix :=
  match v with
  | NdArray rows =>
      if forallb (fun r => Nat.eqb (List.length r) 3) rows then Some rows else None
  | _ => None
  end.

(** [Atoms(symbols, positions, cell=cell, pbc=(1,1,1))].  ASE looks every
    symbol up in its table (KeyError), wants a 3x3 cell and one row of three
    coordinates per atom (ValueError); no atoms at all are accepted. *)
Definition new_Atoms (syms : list string) (pos cel : pyseq) : res Atoms :=
  if negb (forallb (fun s => Py.mem_str s chemical_symbols) syms) then Raise KeyError
  else
    c <- or_raise ValueError (is_3x3 cel) ;;
    p <- or_raise ValueError (is_nx3 pos) ;;
    if Nat.eqb (List.length p) (List.length syms)
    then Ok (mkAtoms syms p c (true, true, true))
    else Raise ValueError.

(** [atoms.set_cell(cel, scale_atoms=True)] *)
Definition set_cell (a : Atoms) (cel : pyseq) : res Atoms :=
  c <- or_raise ValueError (is_3x3 cel) ;;
  p <- or_raise LinAlgError (scale_atoms (cell a) c (positions a)) ;;
  Ok (mkAtoms (symbols a) p c (pbc a)).

(** [atoms.set_positions(pos)]: the new array must have the shape of the
    old one. *)
Definition set_positions (a : Atoms) (pos : pyseq) : res Atoms :=
  p <- or_raise ValueError (is_nx3 pos) ;;
  if Nat.eqb (List.length p) (List.length (positions a))
  then Ok (mkAtoms (symbols a) p (cell a) (pbc a))
  else Raise ValueError.

(** [atoms.set_scaled_positions(pos)] *)
Definition set_scaled_positions (a : Atoms) (pos : pyseq) : res Atoms :=
  p <- or_raise ValueError (is_nx3 pos) ;;
  if Nat.eqb (List.length p) (List.length (positions a))
  then Ok (mkAtoms (symbols a) (np_dot p (cell a)) (cell a) (pbc a))
  else Raise ValueError.

(** *** The record and the running state *)

(** The entries of [self.info] the parser reads or writes. *)
Record Info : Type := mkInfo {
  framework : string;
  finished : Z;
  prog : option string;
  energy : option num;
  H : option string;
  H_types : list string;
  duration : option string
}.

(** The parsed record: what [__init__] leaves in [self]. *)
Record Output : Type := mkOutput {
  related_files : list string;
  info : Info;
  electrons_type : option string;
  structures : list Atoms
}.

(** Modelled from the spec: the base record [Output] of [tilde.parsers],
    whose [__init__] is not among the sources.  It provides the
    [related_files] list and the containers [info], [electrons] and
    [structures]; the fields this parser fills start unset or empty
    ([info['H']] is read before it is written, so it starts false). *)
Definition Output_init : Output :=
  mkOutput [] (mkInfo "" 0 None None None [] None) None [].

(** The local variables of [__init__] together with [self.info]. *)
Record state : Type := mkState {
  st_info : Info;
  atomic_data : option Atoms;
  cell_data : pyseq;
  pos_data : pyseq;
  symbol_data : list string;
  alat : pynum
}.

Definition with_info (st : state) (i : Info) : state :=
  mkState i (atomic_data st) (cell_data st) (pos_data st) (symbol_data st) (alat st).

Definition with_atoms (st : state) (a : option Atoms) : state :=
  mkState (st_info st) a (cell_data st) (pos_data st) (symbol_data st) (alat st).

Definition with_cell (st : state) (c : pyseq) : state :=
  mkState (st_info st) (atomic_data st) c (pos_data st) (symbol_data st) (alat st).

Definition with_pos (st : state) (p : pyseq) : state :=
  mkState (st_info st) (atomic_data st) (cell_data st) p (symbol_data st) (alat st).

Definition with_alat (st : state) (a : pynum) : state :=
  mkState (st_info st) (atomic_data st) (cell_data st) (pos_data st) (symbol_data st) a.

Definition set_finished (i : Info) (v : Z) : Info :=
  mkInfo (framework i) v (prog i) (energy i) (H i) (H_types i) (duration i).

Definition set_prog (i : Info) (v : string) : Info :=
  mkInfo (framework i) (finished i) (Some v) (energy i) (H i) (H_types i) (duration i).

Definition set_energy (i : Info) (v : num) : Info :=
  mkInfo (framework i) (finished i) (prog i) (Some v) (H i) (H_types i) (duration i).

Definition set_H (i : Info) (v : string) (types : list string) : Info :=
  mkInfo (framework i) (finished i) (prog i) (energy i) (Some v) (H_types i ++ types)%list
         (duration i).

Definition set_duration (i : Info) (v : string) : Info :=
  mkInfo (framework i) (finished i) (prog i) (energy i) (H i) (H_types i) (Some v).

(** *** The functional lookup table *)

Record xc_entry : Type := mk_xc {
  xc_name : string;
  xc_type : list string;
  xc_setup : list string
}.

(** [xc_internal_map], in the order of the source text. *)
Definition xc_internal_map : list (string * xc_entry) :=
  [ ("pw", mk_xc "PW_LDA" ["LDA"] ["sla+pw+nogx+nogc"]);
    ("pz", mk_xc "PZ_LDA" ["LDA"] ["sla+pz+nogx+nogc"]);
    ("bp", mk_xc "Becke-Perdew grad.corr." ["GGA"] ["b88+p86+nogx+nogc"]);
    ("pw91", mk_xc "PW91" ["GGA"] ["sla+pw+ggx+ggc"]);
    ("blyp", mk_xc "BLYP" ["GGA"] ["sla+b88+lyp+blyp"]);
    ("pbe", mk_xc "PBE" ["GGA"] ["sla+pw+pbx+pbc"; "sla+pw+pbe+pbe"]);
    ("revpbe", mk_xc "revPBE" ["GGA"] ["sla+pw+rpb+pbc"; "sla+pw+rpb+pbe"]);
    ("pw86pbe", mk_xc "PW86+PBE" ["GGA"] ["sla+pw+pw86+pbc"; "sla+pw+pw86+pbe"]);
    ("b86bpbe", mk_xc "B86b+PBE" ["GGA"] ["sla+pw+b86b+pbc"; "sla+pw+b86b+pbe"]);
    ("pbesol", mk_xc "PBEsol" ["GGA"] ["sla+pw+psx+psc"]);
    ("q2d", mk_xc "PBEQ2D" ["GGA"] ["sla+pw+q2dx+q2dc"]);
    ("hcth", mk_xc "HCTH/120" ["GGA"] ["nox+noc+hcth+hcth"]);
    ("olyp", mk_xc "OLYP" ["GGA"] ["nox+lyp+optx+blyp"]);
    ("wc", mk_xc "Wu-Cohen" ["GGA"] ["sla+pw+wcx+pbc"; "sla+pw+wcx+pbe"]);
    ("sogga", mk_xc "SOGGA" ["GGA"] ["sla+pw+sox+pbc"; "sla+pw+sox+pbe"]);
    ("optbk88", mk_xc "optB88" ["GGA"] ["sla+pw+obk8+p86"]);
    ("optb86b", mk_xc "optB86" ["GGA"] ["sla+pw+ob86+p86"]);
    ("ev93", mk_xc "Engel-Vosko" ["GGA"] ["sla+pw+evx+nogc"]);
    ("tpss", mk_xc "TPSS" ["meta-GGA"] ["sla+pw+tpss+tpss"]);
    ("m06l", mk_xc "M06L" ["meta-GGA"] ["nox+noc+m6lx+m6lc"]);
    ("tb09", mk_xc "TB09" ["meta-GGA"] ["sla+pw+tb09+tb09"]);
    ("pbe0", mk_xc "PBE0" ["GGA"; "hybrid"] ["pb0x+pw+pb0x+pbc"; "pb0x+pw+pb0x+pbe"]);
    ("hse", mk_xc "HSE06" ["GGA"; "hybrid"] ["sla+pw+hse+pbc"; "sla+pw+hse+pbe"]);
    ("b3lyp", mk_xc "B3LYP" ["GGA"; "hybrid"] ["b3lp+vwn+b3lp+b3lp"]);
    ("gaupbe", mk_xc "Gau-PBE" ["GGA"; "hybrid"] ["sla+pw+gaup+pbc"; "sla+pw+gaup+pbe"]);
    ("vdw-df", mk_xc "vdW-DF" ["GGA"; "vdW"] ["sla+pw+rpb+vdw1"]);
    ("vdw-df2", mk_xc "vdW-DF2" ["GGA"; "vdW"] ["sla+pw+rw86+vdw2"]);
    ("vdw-df-c09", mk_xc "vdW-DF-C09" ["GGA"; "vdW"] ["sla+pw+c09x+vdw1"]);
    ("vdw-df2-c09", mk_xc "vdW-DF2-C09" ["GGA"; "vdW"] ["sla+pw+c09x+vdw2"]);
    ("vdw-df-cx", mk_xc "vdW-DF-cx" ["GGA"; "vdW"] ["sla+pw+cx13+vdW1"]);
    ("vdw-df-obk8", mk_xc "vdW-DF-obk8" ["GGA"; "vdW"] ["sla+pw+obk8+vdw1"]);
    ("vdw-df-ob86", mk_xc "vdW-DF-ob86" ["GGA"; "vdW"] ["sla+pw+ob86+vdw1"]);
    ("vdw-df2-b86r", mk_xc "vdW-DF2-B86R" ["GGA"; "vdW"] ["sla+pw+b86r+vdw2"]);
    ("rvv10", mk_xc "rVV10" ["GGA"; "vdW"]
       ["sla+pw+rw86+pbc+vv10"; "sla+pw+rw86+pbe+vv10"]);
    ("hf", mk_xc "Hartree-Fock" ["HF"] ["hf+noc+nogx+nogc"]);
    ("vdw-df3", mk_xc "vdW-DF3" ["GGA"; "vdW"] ["sla+pw+rw86+vdw3"]);
    ("vdw-df4", mk_xc "vdW-DF4" ["GGA"; "vdW"] ["sla+pw+rw86+vdw4"]);
    ("gaup", mk_xc "Gau-PBE" ["GGA"; "hybrid"] ["sla+pw+gaup+pbc"; "sla+pw+gaup+pbe"]) ].

(** [xc_internal_map[k]]; [None] is KeyError. *)
Fixpoint xc_lookup (k : string) (tab : list (string * xc_entry)) : option xc_entry :=
  match tab with
  | [] => None
  | (k', e) :: tab' => if String.eqb k k' then Some e else xc_lookup k tab'
  end.

(** [[i for i in xc_internal_map.values() if s in i['setup']]] *)
Definition xc_matches (s : string) (tab : list (string * xc_entry)) : list xc_entry :=
  filter (fun e => Py.mem_str s (xc_setup e)) (map snd tab).

(** *** The rules of the scan *)

(** The branch of the [if]/[elif] chain a line selects; the choice depends
    on the text of the line alone. *)
Inductive rule : Type :=
| TerminatedOn | ProgramBanner | Celldm | CrystalAxes | SiteTable
| CellParameters | AtomicPositions | TotalEnergy | ExchangeCorrelation
| Timing | NoRule.

Definition rule_of (cur_line : string) : rule :=
  if Py.contains cur_line "This run was terminated on" then TerminatedOn
  else if Py.contains cur_line "     Program PWSCF" && Py.contains cur_line " starts "
  then ProgramBanner
  else if Py.startswith cur_line "     celldm" then Celldm
  else if Py.startswith cur_line "     crystal axes:" then CrystalAxes
  else if Py.startswith cur_line "     site n." then SiteTable
  else if Py.contains cur_line "CELL_PARAMETERS" then CellParameters
  else if Py.contains cur_line "ATOMIC_POSITIONS" then AtomicPositions
  else if Py.startswith cur_line "!    total energy" then TotalEnergy
  else if Py.contains cur_line "     Exchange-correlation" then ExchangeCorrelation
  else if Py.contains cur_line "PWSCF        :" then Timing
  else NoRule.

Definition floats (toks : list string) : res (list num) :=
  map_res (fun x => or_raise ValueError (float x)) toks.

(** Lines 83-86: the version banner. *)
Definition on_program (cur_line : string) (st : state) : state :=
  let ver_str := Py.replace (Py.strip cur_line) "Program PWSCF" "" in
  let ver_str := Py.strip (Py.slice_to ver_str (Py.find ver_str " starts ")) in
  let ver_str := if Py.startswith ver_str "v." then Py.drop 2 ver_str else ver_str in
  with_info st (set_prog (st_info st) (framework (st_info st) ++ " " ++ ver_str)).

(** Lines 89-91: the lattice parameter. *)
Definition on_celldm (cur_line : string) (st : state) : res state :=
  if truthy (alat st) then Ok st
  else
    tok <- or_raise IndexError (Py.index (Py.split_ws cur_line) 1) ;;
    x <- or_raise ValueError (float tok) ;;
    let a := PyFloat (mul x Bohr) in
    Ok (with_alat st (if truthy a then a else PyInt 1)).

(** Lines 94-95: the crystal axes, read from the slice [data[n+1:n+4]]. *)
Definition on_crystal_axes (data : list string) (n : nat) (st : state) : res state :=
  let rows := map (fun x => Py.slice (Py.split_ws x) 3 6)
                  (Py.slice data (Z.of_nat n + 1) (Z.of_nat n + 4)) in
  m <- map_res floats rows ;;
  Ok (with_cell st (np_array m)).

(** Lines 105-106: the chemical symbol of a site label. *)
Definition normalize_label (raw : string) : string :=
  let symbol := hd "" (Py.split (Py.strip_chars raw "0123456789") "_") in
  if negb (Py.mem_str symbol chemical_symbols) && Nat.ltb 1 (String.length symbol)
  then Py.slice_to symbol (-1)
  else symbol.

(** Lines 100-107: the [while True] loop over the rows of the site table.
    [rest] holds the lines after index [n]; running out of them is the
    IndexError of [self.data[n]]. *)
Fixpoint site_rows (rest : list string) (n : nat) (pos : pyseq) (syms : list string)
  : res (nat * pyseq * list string) :=
  match rest with
  | [] => Raise IndexError
  | line :: rest' =>
      let n := S n in
      match Py.split_ws line with
      | [] => Ok (n, pos, syms)
      | next_line =>
          match pos with
          | PyList rows =>
              xyz <- floats (Py.slice next_line (-4) (-1)) ;;
              raw <- or_raise IndexError (Py.index next_line 1) ;;
              site_rows rest' n (PyList (rows ++ [xyz])%list) (syms ++ [normalize_label raw])%list
          | _ => Raise AttributeError
          end
      end
  end.

(** Lines 98-109: the atomic-site table. *)
Definition on_site_table (data : list string) (n : nat) (st : state)
  : res (nat * state) :=
  if negb (Nat.eqb (len (pos_data st)) 0) then Ok (n, st)
  else
    r <- site_rows (skipn (S n) data) n (pos_data st) (symbol_data st) ;;
    let '(n', pos, syms) := r in
    pos' <- times (as_array pos) (alat st) ;;
    cel <- times (cell_data st) (alat st) ;;
    a <- new_Atoms syms pos' cel ;;
    Ok (n', mkState (st_info st) (Some a) (cell_data st) pos' syms (alat st)).

(** Lines 112-116: the [for i in range(3)] loop; the flag tells whether the
    loop ran to its end (no [break]). *)
Fixpoint cell_rows (rest : list string) (i todo n : nat) (cd : pyseq)
  : res (nat * pyseq * bool) :=
  match todo with
  | O => Ok (n, cd, true)
  | S todo' =>
      match rest with
      | [] => Raise IndexError
      | line :: rest' =>
          let n := S n in
          match Py.split_ws line with
          | [] => Ok (n, cd, false)
          | next_line =>
              vals <- floats next_line ;;
              cd' <- assign_row cd i vals ;;
              cell_rows rest' (S i) todo' n cd'
          end
      end
  end.

(** Lines 112-121: the CELL_PARAMETERS block. *)
Definition on_cell_parameters (data : list string) (n : nat) (cur_line : string)
  (st : state) : res (nat * state) :=
  r <- cell_rows (skipn (S n) data) 0 3 n (cell_data st) ;;
  let '(n', cd, completed) := r in
  let st' := with_cell st cd in
  if completed then
    let mult := if Py.contains cur_line "bohr" then PyFloat Bohr
                else if Py.contains cur_line "alat" then alat st
                else PyInt 1 in
    a <- or_raise AttributeError (atomic_data st) ;;
    cel <- times cd mult ;;
    a' <- set_cell a cel ;;
    Ok (n', with_atoms st' (Some a'))
  else Ok (n', st').

(** Lines 125-128: one line per row of [pos_data]. *)
Fixpoint position_rows (rest : list string) (i todo n : nat) (pd : pyseq)
  : res (nat * pyseq) :=
  match todo with
  | O => Ok (n, pd)
  | S todo' =>
      match rest with
      | [] => Raise IndexError
      | line :: rest' =>
          vals <- floats (Py.slice (Py.split_ws line) 1 4) ;;
          pd' <- assign_row pd i vals ;;
          position_rows rest' (S i) todo' (S n) pd'
      end
  end.

(** Lines 124-138: the ATOMIC_POSITIONS block. *)
Definition on_atomic_positions (data : list string) (n : nat) (cur_line : string)
  (st : state) : res (nat * state) :=
  let coord_flag := Py.strip (Py.last_part (Py.split cur_line "(")) in
  r <- position_rows (skipn (S n) data) 0 (len (pos_data st)) n (pos_data st) ;;
  let '(n', pd) := r in
  let st' := with_pos st pd in
  match atomic_data st with
  | Some a =>
      if atoms_truthy (Some a) then
        a' <- (if String.eqb coord_flag "alat)"
               then p <- times pd (alat st) ;; set_positions a p
               else if String.eqb coord_flag "bohr)"
               then p <- times pd (PyFloat Bohr) ;; set_positions a p
               else if String.eqb coord_flag "angstrom)"
               then set_positions a pd
               else set_scaled_positions a pd) ;;
        Ok (n', with_atoms st' (Some a'))
      else Ok (n', st')
  | None => Ok (n', st')
  end.

(** Line 141: the total energy. *)
Definition on_total_energy (cur_line : string) (st : state) : res state :=
  tok <- or_raise IndexError (Py.index (Py.split_ws cur_line) (-2)) ;;
  x <- or_raise ValueError (float tok) ;;
  Ok (with_info st (set_energy (st_info st) (mul x Rydberg))).

(** The characters stripped from each token: dash, quote, double quote. *)
Definition xc_strip_chars : string := "-'" ++ String (ascii_of_nat 34) EmptyString.

(** Lines 146-147: the descriptor, cut before the first parenthesis. *)
Definition xc_descriptor (cur_line : string) : string :=
  let xc_str := Py.strip (Py.last_part (Py.split cur_line "=")) in
  Py.slice_to xc_str (Py.find xc_str "(").

(** Lines 147-150: the normalized tokens. *)
Definition xc_tokens (cur_line : string) : list string :=
  let xc_parts := Py.split_ws (xc_descriptor cur_line) in
  let xc_parts := match xc_parts with
                  | [p] => Py.split p "+"
                  | _ => xc_parts
                  end in
  let xc_parts := if Nat.ltb (List.length xc_parts) 4
                  then [Py.join "+" xc_parts] else xc_parts in
  map (fun x => Py.strip_chars (Py.lower x) xc_strip_chars) xc_parts.

Definition str_truthy (o : option string) : bool :=
  match o with
  | Some s => negb (String.eqb s "")
  | None => false
  end.

(** Lines 144-165: the exchange-correlation functional. *)
Definition on_exchange_correlation (cur_line : string) (st : state) : state :=
  if str_truthy (H (st_info st)) then st
  else
    match xc_tokens cur_line with
    | [k] =>
        match xc_lookup k xc_internal_map with
        | Some e => with_info st (set_H (st_info st) (xc_name e) (xc_type e))
        | None => with_info st (set_H (st_info st) k [])
        end
    | xc_parts =>
        let joined := Py.join "+" xc_parts in
        match xc_matches joined xc_internal_map with
        | e :: _ => with_info st (set_H (st_info st) (xc_name e) (xc_type e))
        | [] => with_info st (set_H (st_info st) joined [])
        end
    end.

(** Lines 170-173: the text and the format handed to [time.strptime]. *)
Definition timing_text (cur_line : string) : string :=
  let d := Py.replace (Py.replace (Py.last_part (Py.split cur_line "CPU")) "time" "")
                      "," "" in
  Py.replace (Py.strip (Py.slice_to d (Py.find d "s" + 1))) " " "".

Definition timing_format (d : string) : string :=
  let fmt := "%S.%fs" in
  let fmt := if Py.contains d "m" then "%Mm" ++ fmt else fmt in
  if Py.contains d "h" then "%Hh" ++ fmt else fmt.

(** Lines 168-177: the wall-clock banner. *)
Definition on_timing (cur_line : string) (st : state) : res state :=
  if Py.contains cur_line "WALL" || Py.contains cur_line "wall" then
    let d := timing_text cur_line in
    h <- or_raise ValueError (strptime_hours d (timing_format d)) ;;
    Ok (with_info st (set_finished (set_duration (st_info st) h) 1))
  else Ok st.

(** One pass through the body of the [for] loop at index [n].  The result
    holds the value of the local [n] when the body ends: the block handlers
    advance it as they read ahead. *)
Definition step (data : list string) (n : nat) (st : state) : res (nat * state) :=
  cur_line <- or_raise IndexError (nth_error data n) ;;
  match rule_of cur_line with
  | TerminatedOn => Ok (n, with_info st (set_finished (st_info st) 1))
  | ProgramBanner => Ok (n, on_program cur_line st)
  | Celldm => st' <- on_celldm cur_line st ;; Ok (n, st')
  | CrystalAxes => st' <- on_crystal_axes data n st ;; Ok (n, st')
  | SiteTable => on_site_table data n st
  | CellParameters => on_cell_parameters data n cur_line st
  | AtomicPositions => on_atomic_positions data n cur_line st
  | TotalEnergy => st' <- on_total_energy cur_line st ;; Ok (n, st')
  | ExchangeCorrelation => Ok (n, on_exchange_correlation cur_line st)
  | Timing => st' <- on_timing cur_line st ;; Ok (n, st')
  | NoRule => Ok (n, st)
  end.

(** [for n in range(len(self.data)): body].  Each pass takes its [n] from
    the range; the value the body left in [n] is recorded in the trace, as
    the pair (index dispatched, index reached), and then dropped. *)
Fixpoint for_range (body : nat -> state -> res (nat * state)) (it : list nat)
  (st : state) : res (list (nat * nat) * state) :=
  match it with
  | [] => Ok ([], st)
  | n :: it' =>
      r <- body n st ;;
      rest <- for_range body it' (snd r) ;;
      Ok ((n, fst r) :: fst rest, snd rest)
  end.

Definition main_loop (data : list string) (st : state)
  : res (list (nat * nat) * state) :=
  for_range (step data) (seq 0 (List.length data)) st.

(** *** The sibling input file (lines 22 and 181-182) *)

(** [p[:p.rfind('/') + 1]] *)
Fixpoint dir_prefix (p : string) : string :=
  match p with
  | EmptyString => EmptyString
  | String c p' =>
      if Py.contains p' "/" || Ascii.eqb c "/"%char then String c (dir_prefix p')
      else EmptyString
  end.

Fixpoint all_slashes (s : string) : bool :=
  match s with
  | EmptyString => true
  | String c s' => Ascii.eqb c "/"%char && all_slashes s'
  end.

(** [os.path.dirname] of [posixpath] *)
Definition dirname (p : string) : string :=
  let head := dir_prefix p in
  if negb (String.eqb head "") && negb (all_slashes head)
  then Py.rstrip_by (Ascii.eqb "/"%char) head
  else head.

(** [os.path.join(a, b)] of [posixpath] *)
Definition path_join (a b : string) : string :=
  if Py.startswith b "/" then b
  else if String.eqb a "" || Ascii.eqb (List.last (list_ascii_of_string a) " "%char) "/"%char
  then a ++ b
  else a ++ "/" ++ b.

(** The name built on line 181. *)
Definition sibling_name (filename : string) : string :=
  Py.replace filename ("." ++ Py.last_part (Py.split filename ".")) "" ++ ".in".

(** The path whose existence line 182 tests. *)
Definition sibling_path (filename : string) : string :=
  path_join (dirname filename) (sibling_name filename).

(** *** [QuantumESPRESSO.__init__] *)

(** [data] is [open(filename).readlines()]; [exists_] is [os.path.exists]
    on the file system of the run. *)
Definition __init__ (filename : string) (data : list string) (exists_ : string -> bool)
  : res Output :=
  let o := Output_init in
  let files := (related_files o ++ [filename])%list in
  let i := mkInfo "Quantum ESPRESSO" (-1) (prog (info o)) (energy (info o))
                  (H (info o)) (H_types (info o)) (duration (info o)) in
  let st := mkState i None (PyList []) (PyList []) [] (PyInt 0) in
  r <- main_loop data st ;;
  let st' := snd r in
  let structs := if atoms_truthy (atomic_data st')
                 then (structures o ++ match atomic_data st' with
                                       | Some a => [a]
                                       | None => []
                                       end)%list
                 else structures o in
  let files := if exists_ (sibling_path filename)
               then (files ++ [sibling_path filename])%list else files in
  Ok (mkOutput files (st_info st') (Some "plane waves") structs).

End Parser.

(** ** The format detector *)

(** [QuantumESPRESSO.fingerprints] *)
Definition fingerprints (test_string : string) : bool :=
  if (Py.contains test_string "pwscf" || Py.contains test_string "PWSCF")
     && Py.contains test_string "     Current dimensions of program "
  then true else false.

(** ** An exact instance of the library interface

    To run the parser on concrete logs the interface is instantiated with
    exact arithmetic: a float is the rational its decimal literal denotes,
    products are exact, and [time.strptime] and the ["%2.2f"] formatting are
    computed as CPython computes them. *)

Module Exact.

Fixpoint digits_value (s : string) (acc : Z) : option Z :=
  match s with
  | EmptyString => Some acc
  | String c s' =>
      if Py.is_digit c
      then digits_value s' (10 * acc + Z.of_nat (nat_of_ascii c - 48))
      else None
  end.

Definition unsigned_decimal (s : string) : option Q :=
  match Py.split s "." with
  | [i] =>
      if String.eqb i "" then None
      else option_map inject_Z (digits_value i 0)
  | [i; f] =>
      if String.eqb i "" && String.eqb f "" then None
      else
        match digits_value i 0, digits_value f 0 with
        | Some a, Some b =>
            let den := Z.pow 10 (Z.of_nat (String.length f)) in
            Some (Qred (Qmake (a * den + b) (Z.to_pos den)))
        | _, _ => None
        end
  | _ => None
  end.

(** [float(s)] on plain decimal literals: an optional sign, digits, and an
    optional fraction.  The other spellings Python reads (exponents, [inf],
    [nan]) are not used by the logs run here. *)
Definition float_of_string (s : string) : option Q :=
  match s with
  | String "-"%char s' => option_map Qopp (unsigned_decimal s')
  | String "+"%char s' => unsigned_decimal s'
  | _ => unsigned_decimal s
  end.

Definition qmul (x y : Q) : Q := Qred (Qmult x y).
Definition qadd (x y : Q) : Q := Qred (Qplus x y).
Definition qsub (x y : Q) : Q := Qred (Qminus x y).

Definition qsum (l : list Q) : Q := fold_right qadd (inject_Z 0) l.

Fixpoint zip_with {A B C} (f : A -> B -> C) (a : list A) (b : list B) : list C :=
  match a, b with
  | x :: a', y :: b' => f x y :: zip_with f a' b'
  | _, _ => []
  end.

Definition column (j : nat) (m : list (list Q)) : list Q :=
  map (fun row => nth j row (inject_Z 0)) m.

Definition dot (a b : list (list Q)) : list (list Q) :=
  let ncols := List.length (hd [] b) in
  map (fun row => map (fun j => qsum (zip_with qmul row (column j b))) (seq 0 ncols)) a.

(** The inverse of a 3x3 matrix by its adjugate; a singular one has none. *)
Definition inverse3 (m : list (list Q)) : option (list (list Q)) :=
  match m with
  | [[a; b; c]; [d; e; f]; [g; h; i]] =>
      let A := qsub (qmul e i) (qmul f h) in
      let B := qsub (qmul f g) (qmul d i) in
      let C := qsub (qmul d h) (qmul e g) in
      let det := qadd (qmul a A) (qadd (qmul b B) (qmul c C)) in
      if Qeq_bool det (inject_Z 0) then None
      else
        let s x := Qred (Qdiv x det) in
        Some [[s A; s (qsub (qmul c h) (qmul b i)); s (qsub (qmul b f) (qmul c e))];
              [s B; s (qsub (qmul a i) (qmul c g)); s (qsub (qmul c d) (qmul a f))];
              [s C; s (qsub (qmul b g) (qmul a h)); s (qsub (qmul a e) (qmul b d))]]
  | _ => None
  end.

Definition rescale (old new p : list (list Q)) : option (list (list Q)) :=
  option_map (fun inv => dot p (dot inv new)) (inverse3 old).

(** *** [time.strptime] for the formats of the timing banner *)

Fixpoint span_digits (s : string) : string * string :=
  match s with
  | String c s' =>
      if Py.is_digit c then let (a, b) := span_digits s' in (String c a, b)
      else (EmptyString, s)
  | EmptyString => (EmptyString, EmptyString)
  end.

(** A numeric directive takes a run of at most [width] digits with a value
    of at most [top]; every directive of these formats is followed by a
    letter or a dot, so the run it takes is the whole run of digits. *)
Definition directive (width : nat) (top : Z) (d : string) : option (Z * string) :=
  let (run, rest) := span_digits d in
  if Nat.leb 1 (String.length run) && Nat.leb (String.length run) width then
    match digits_value run 0 with
    | Some v => if v <=? top then Some (v, rest) else None
    | None => None
    end
  else None.

(** The fields (hours, minutes, seconds) of [time.strptime(d, fmt)]. *)
Fixpoint strptime (fmt d : string) (hms : Z * Z * Z) : option (Z * Z * Z) :=
  match fmt with
  | EmptyString => if String.eqb d "" then Some hms else None
  | String "%"%char (String k fmt') =>
      let '(h, m, s) := hms in
      if Ascii.eqb k "H"%char then
        match directive 2 23 d with
        | Some (v, d') => strptime fmt' d' (v, m, s)
        | None => None
        end
      else if Ascii.eqb k "M"%char then
        match directive 2 59 d with
        | Some (v, d') => strptime fmt' d' (h, v, s)
        | None => None
        end
      else if Ascii.eqb k "S"%char then
        match directive 2 61 d with
        | Some (v, d') => strptime fmt' d' (h, m, v)
        | None => None
        end
      else if Ascii.eqb k "f"%char then
        match directive 6 999999 d with
        | Some (_, d') => strptime fmt' d' hms
        | None => None
        end
      else None
  | String c fmt' =>
      match d with
      | String c' d' => if Ascii.eqb c c' then strptime fmt' d' hms else None
      | EmptyString => None
      end
  end.

(** The double nearest to [a/b] ([0 < a], [0 < b]) compared with [a/b]
    itself: the quotient is rounded to 53 bits, to nearest, ties to even. *)
Definition double_compare (a b : Z) : comparison :=
  let e := 53 + Z.log2 b - Z.log2 a in
  let e := if a * Z.pow 2 e <? b * Z.pow 2 53 then e else e - 1 in
  let m := (a * Z.pow 2 e) / b in
  let r := (a * Z.pow 2 e) mod b in
  if r =? 0 then Eq
  else if (b <? 2 * r) || ((b =? 2 * r) && Z.odd m) then Gt
  else Lt.

Definition two_digits (z : Z) : string :=
  let s := DecimalString.NilZero.string_of_uint (N.to_uint (Z.to_N z)) in
  if z <? 10 then "0" ++ s else s.

(** ["%2.2f" % (t / 3600.0)] for a whole number [t] of seconds: the
    hundredths of the double nearest to [t/3600], rounded to nearest, ties
    to even. *)
Definition format_hours (t : Z) : string :=
  let q := t / 36 in
  let r := t mod 36 in
  let hundredths :=
    if r <? 18 then q
    else if 18 <? r then q + 1
    else match double_compare t 3600 with
         | Gt => q + 1
         | Lt => q
         | Eq => if Z.odd q then q + 1 else q
         end in
  DecimalString.NilZero.string_of_uint (N.to_uint (Z.to_N (hundredths / 100)))
  ++ "." ++ two_digits (hundredths mod 100).

Definition hours (d fmt : string) : option string :=
  match strptime fmt d (0, 0, 0) with
  | Some (h, m, s) => Some (format_hours (h * 3600 + m * 60 + s))
  | None => None
  end.

(** [ase.data.chemical_symbols] *)
Definition periodic_table : list string :=
  ["X"; "H"; "He"; "Li"; "Be"; "B"; "C"; "N"; "O"; "F"; "Ne"; "Na"; "Mg"; "Al";
   "Si"; "P"; "S"; "Cl"; "Ar"; "K"; "Ca"; "Sc"; "Ti"; "V"; "Cr"; "Mn"; "Fe"; "Co";
   "Ni"; "Cu"; "Zn"; "Ga"; "Ge"; "As"; "Se"; "Br"; "Kr"; "Rb"; "Sr"; "Y"; "Zr";
   "Nb"; "Mo"; "Tc"; "Ru"; "Rh"; "Pd"; "Ag"; "Cd"; "In"; "Sn"; "Sb"; "Te"; "I";
   "Xe"; "Cs"; "Ba"; "La"; "Ce"; "Pr"; "Nd"; "Pm"; "Sm"; "Eu"; "Gd"; "Tb"; "Dy";
   "Ho"; "Er"; "Tm"; "Yb"; "Lu"; "Hf"; "Ta"; "W"; "Re"; "Os"; "Ir"; "Pt"; "Au";
   "Hg"; "Tl"; "Pb"; "Bi"; "Po"; "At"; "Rn"; "Fr"; "Ra"; "Ac"; "Th"; "Pa"; "U";
   "Np"; "Pu"; "Am"; "Cm"; "Bk"; "Cf"; "Es"; "Fm"; "Md"; "No"; "Lr"; "Rf"; "Db";
   "Sg"; "Bh"; "Hs"; "Mt"; "Ds"; "Rg"; "Cn"; "Nh"; "Fl"; "Mc"; "Lv"; "Ts"; "Og"].

#[export] Instance lib : Lib := {|
  num := Q;
  float := float_of_string;
  mul := qmul;
  of_int := inject_Z;
  is_zero := fun x => Qeq_bool x (inject_Z 0);
  Bohr := Qmake 52917721067 100000000000;
  Rydberg := Qmake 13605693009 1000000000;
  chemical_symbols := periodic_table;
  np_dot := dot;
  scale_atoms := rescale;
  strptime_hours := hours
|}.

End Exact.

(** ** The specification's wording of two steps

    For the claims that compare the code with a procedure the specification
    spells out, the procedure is written down as the specification words
    it, independently of the code. *)

Fixpoint drop_while {A} (f : A -> bool) (l : list A) : list A :=
  match l with
  | [] => []
  | x :: l' => if f x then drop_while f l' else l
  end.

(** "strip trailing digits" *)
Definition strip_trailing_digits (s : string) : string :=
  string_of_list_ascii (rev (drop_while Py.is_digit (rev (list_ascii_of_string s)))).

(** "strip any suffix after an underscore separator" *)
Fixpoint before_underscore (s : string) : string :=
  match s with
  | EmptyString => EmptyString
  | String c s' =>
      if Ascii.eqb c "_"%char then EmptyString else String c (before_underscore s')
  end.

(** "drop its last character" *)
Definition drop_last (s : string) : string :=
  string_of_list_ascii (removelast (list_ascii_of_string s)).

Section Wording.

Context {L : Lib}.

(** The label normalisation of the specification (section 4.2, step 5). *)
Definition normalize_label_spec (raw : string) : string :=
  let base := before_underscore (strip_trailing_digits raw) in
  if negb (Py.mem_str base chemical_symbols) && Nat.ltb 1 (String.length base)
  then drop_last base
  else base.

End Wording.

(** ** Reading the scan *)

(** Whether a timing banner names the wall clock (line 168). *)
Definition wall (cur_line : string) : bool :=
  Py.contains cur_line "WALL" || Py.contains cur_line "wall".

(** Whether a line writes the finished flag: a termination banner (line 80)
    or a timing banner that names the wall clock (line 177). *)
Definition writes_finished (cur_line : string) : bool :=
  match rule_of cur_line with
  | TerminatedOn => true
  | Timing => wall cur_line
  | _ => false
  end.

(** Whether a line is one of the three optional lines: total energy,
    exchange-correlation, timing. *)
Definition optional_line (cur_line : string) : bool :=
  match rule_of cur_line with
  | TotalEnergy | ExchangeCorrelation | Timing => true
  | _ => false
  end.

(** Whether a line selects a rule that reads numbers or reads ahead. *)
Definition block_line (cur_line : string) : bool :=
  match rule_of cur_line with
  | Celldm | CrystalAxes | SiteTable | CellParameters | AtomicPositions => true
  | _ => false
  end.

(** Whether [line.split()] is empty: the line that ends a block. *)
Definition blank (line : string) : bool :=
  match Py.split_ws line with
  | [] => true
  | _ => false
  end.

(** The number of non-empty lines at the head of [rest], before the first
    empty line or the end of the file. *)
Fixpoint leading_rows (rest : list string) : nat :=
  match rest with
  | [] => 0
  | line :: rest' => if blank line then 0 else S (leading_rows rest')
  end.

(** The raw labels of a site table: the second token of each line up to
    the first empty line. *)
Fixpoint table_labels (rest : list string) : list string :=
  match rest with
  | [] => []
  | line :: rest' =>
      if blank line then [] else nth 1 (Py.split_ws line) "" :: table_labels rest'
  end.

Definition is_site_header (cur_line : string) : bool :=
  match rule_of cur_line with
  | SiteTable => true
  | _ => false
  end.

(** The index of the first line that selects the site-table rule. *)
Fixpoint first_site_table (data : list string) : option nat :=
  match data with
  | [] => None
  | line :: data' =>
      if is_site_header line then Some 0%nat else option_map S (first_site_table data')
  end.

Section Reading.

Context {L : Lib}.

(** How one line changes [self.info]. *)
Definition info_step (cur_line : string) (i i' : Info) : Prop :=
  match rule_of cur_line with
  | TerminatedOn => i' = set_finished i 1
  | ProgramBanner => exists v, i' = set_prog i v
  | TotalEnergy => exists x, i' = set_energy i x
  | ExchangeCorrelation => i' = i \/ exists v t, i' = set_H i v t
  | Timing =>
      if wall cur_line then exists h, i' = set_finished (set_duration i h) 1
      else i' = i
  | _ => i' = i
  end.

(** The state in which [__init__] enters the loop. *)
Definition initial_state : state :=
  mkState (mkInfo "Quantum ESPRESSO" (-1) None None None [] None)
          None (PyList []) (PyList []) [] (PyInt 0).

(** The symbols the first site table of a log gives. *)
Definition first_table_symbols (data : list string) : list string :=
  match first_site_table data with
  | Some n => map normalize_label (table_labels (skipn (S n) data))
  | None => []
  end.

(** The run up to, and without, the pass at index [k]. *)
Definition run_to (data : list string) (k : nat) : res (list (nat * nat) * state) :=
  for_range (step data) (seq 0 k) initial_state.

(** The symbols of the structure held by a state. *)
Definition symbols_of (st : state) : option (list string) :=
  option_map symbols (atomic_data st).

(** The three stages of a run with regard to the site table: no site
    header passed yet; a first table with no row passed; a first table with
    rows passed, holding the symbols [syms]. *)
Definition before_table (st : state) : Prop :=
  atomic_data st = None /\ pos_data st = PyList [] /\ symbol_data st = [].

Definition empty_table (st : state) : Prop :=
  atoms_truthy (atomic_data st) = false /\ pos_data st = NdArray []
  /\ symbol_data st = [].

Definition has_table (syms : list string) (st : state) : Prop :=
  symbols_of st = Some syms /\ syms <> [] /\ len (pos_data st) <> 0%nat.

(** The stage of the state that enters the pass at index [k]. *)
Definition stage (data : list string) (k : nat) (st : state) : Prop :=
  match first_site_table data with
  | None => before_table st
  | Some n0 =>
      if Nat.leb k n0 then before_table st
      else (first_table_symbols data = [] /\ empty_table st)
           \/ has_table (first_table_symbols data) st
  end.

End Reading.

(** ** Definitions used in the statements *)

(** [p] occurs in [s] as a block of consecutive bytes. *)
Definition occurs (p s : string) : Prop := exists a b, s = a ++ p ++ b.

(** The section header that marks the log family. *)
Definition program_marker : string := "     Current dimensions of program ".

(** The detector as the specification words it: the program token matched
    without regard to case, and the exact marker. *)
Definition fingerprints_spec (sample : string) : bool :=
  Py.contains (Py.lower sample) "pwscf" && Py.contains sample program_marker.

(** A computation that does not end with [UnrecognizedFormat]. *)
Definition never_unrecognized {A} (m : res A) : Prop := m <> Raise UnrecognizedFormat.

(** Equality tests for the entries of the table. *)
Fixpoint strings_eqb (a b : list string) : bool :=
  match a, b with
  | [], [] => true
  | x :: a', y :: b' => String.eqb x y && strings_eqb a' b'
  | _, _ => false
  end.

Definition entry_eqb (a b : xc_entry) : bool :=
  String.eqb (xc_name a) (xc_name b)
  && strings_eqb (xc_type a) (xc_type b).

(** An exchange-correlation line whose raw descriptor is [d], followed by
    the parenthesized indices the program prints. *)
Definition xc_line (d : string) : string :=
  "     Exchange-correlation      = " ++ d ++ " ( 1  4  3  4 0 0)" ++ nl.

(** An exchange-correlation line with no parenthesized setup. *)
Definition xc_line_PBE : string := "     Exchange-correlation      = PBE" ++ nl.

Section FunctionalOf.

Context {L : Lib}.

(** The functional name and tags of the record parsed from a log. *)
Definition functional_of (data : list string) : option (option string * list string) :=
  match __init__ "pw.out" data (fun _ => false) with
  | Ok r => Some (H (info r), H_types (info r))
  | Raise _ => None
  end.

Definition functional_eqb (r : option (option string * list string)) (e : xc_entry) : bool :=
  match r with
  | Some (Some name, types) =>
      String.eqb name (xc_name e) && strings_eqb types (xc_type e)
  | _ => false
  end.

End FunctionalOf.

(** *** Logs the parser is run on *)

(** The two banners that write the finished flag. *)
Definition termination_banner : string :=
  "   This run was terminated on:  10:00:01   1Jan2020" ++ nl.

Definition wall_clock_banner : string :=
  "     PWSCF        :     0.50s CPU     0.52s WALL" ++ nl.

(** A log cut off inside its site table: no blank line ends the table. *)
Definition truncated_log : list string := map (fun s => s ++ nl)
  [ "     Program PWSCF v.6.1 starts on  1Jan2020 at 10:00:00";
    "     celldm(1)=   10.000000  celldm(2)=    0.000000";
    "     crystal axes: (cart. coord. in units of alat)";
    "               a(1) = (   1.000000   0.000000   0.000000 )";
    "               a(2) = (   0.000000   1.000000   0.000000 )";
    "               a(3) = (   0.000000   0.000000   1.000000 )";
    "     site n.     atom                  positions (alat units)";
    "         1           Fe1 tau(   1) = (   0.0000000   0.0000000   0.5000000  )" ].

(** The same log with the blank line that ends the table. *)
Definition structure_log : list string := (truncated_log ++ [nl])%list.

(** A log whose only atom row holds the text of a termination banner. *)
Definition banner_row_log : list string := map (fun s => s ++ nl)
  [ "     celldm(1)=   10.000000  celldm(2)=    0.000000";
    "     crystal axes: (cart. coord. in units of alat)";
    "               a(1) = (   1.000000   0.000000   0.000000 )";
    "               a(2) = (   0.000000   1.000000   0.000000 )";
    "               a(3) = (   0.000000   0.000000   1.000000 )";
    "     site n.     atom                  positions (alat units)";
    "   1  H  This run was terminated on   0.0000000   0.0000000   0.5000000  )";
    "" ].

(** A log with a CELL_PARAMETERS block of one row. *)
Definition short_cell_log : list string := map (fun s => s ++ nl)
  [ "     celldm(1)=   10.000000  celldm(2)=    0.000000";
    "     crystal axes: (cart. coord. in units of alat)";
    "               a(1) = (   1.000000   0.000000   0.000000 )";
    "               a(2) = (   0.000000   1.000000   0.000000 )";
    "               a(3) = (   0.000000   0.000000   1.000000 )";
    "CELL_PARAMETERS (alat= 10.00000000)";
    "   9.000000000   9.000000000   9.000000000";
    "";
    "     site n.     atom                  positions (alat units)";
    "         1           Fe1 tau(   1) = (   0.0000000   0.0000000   0.5000000  )";
    "" ].

(** A log whose first site table has no row, and which holds a second site
    header after the lattice parameter. *)
Definition empty_table_log : list string := map (fun s => s ++ nl)
  [ "     crystal axes: (cart. coord. in units of alat)";
    "               a(1) = (   1.000000   0.000000   0.000000 )";
    "               a(2) = (   0.000000   1.000000   0.000000 )";
    "               a(3) = (   0.000000   0.000000   1.000000 )";
    "     site n.     atom                  positions (alat units)";
    "";
    "     celldm(1)=   10.000000  celldm(2)=    0.000000";
    "     site n.     atom                  positions (alat units)";
    "" ].

(** An integer as an exact number. *)
Definition q (z : Z) : Q := inject_Z z.

(** ** Further readings of a log *)

(** The last line of [data] that satisfies [f]. *)
Fixpoint last_where (f : string -> bool) (data : list string) : option string :=
  match data with
  | [] => None
  | line :: rest =>
      match last_where f rest with
      | Some l => Some l
      | None => if f line then Some line else None
      end
  end.

Definition is_energy_line (cur_line : string) : bool :=
  match rule_of cur_line with
  | TotalEnergy => true
  | _ => false
  end.

Definition is_xc_line (cur_line : string) : bool :=
  match rule_of cur_line with
  | ExchangeCorrelation => true
  | _ => false
  end.

(** A timing banner that names the wall clock. *)
Definition is_wall_banner (cur_line : string) : bool :=
  match rule_of cur_line with
  | Timing => wall cur_line
  | _ => false
  end.

(** The name and the tags lines 152-165 give for an exchange-correlation
    line. *)
Definition xc_functional (cur_line : string) : string * list string :=
  match xc_tokens cur_line with
  | [k] =>
      match xc_lookup k xc_internal_map with
      | Some e => (xc_name e, xc_type e)
      | None => (k, [])
      end
  | xc_parts =>
      match xc_matches (Py.join "+" xc_parts) xc_internal_map with
      | e :: _ => (xc_name e, xc_type e)
      | [] => (Py.join "+" xc_parts, [])
      end
  end.

(** The functional a log gives: that of its first exchange-correlation
    line with a non-empty name; the empty name, with no tags, when its
    lines of that kind all give the empty name; nothing when it has none. *)
Fixpoint functional_scan (data : list string) : option (string * list string) :=
  match data with
  | [] => None
  | line :: rest =>
      if is_xc_line line then
        if String.eqb (fst (xc_functional line)) ""
        then match functional_scan rest with
             | Some found => Some found
             | None => Some ("", [])
             end
        else Some (xc_functional line)
      else functional_scan rest
  end.

(** The first line of [data] that satisfies [f]. *)
Fixpoint first_where (f : string -> bool) (data : list string) : option string :=
  match data with
  | [] => None
  | line :: rest => if f line then Some line else first_where f rest
  end.

Definition is_celldm_line (cur_line : string) : bool :=
  match rule_of cur_line with
  | Celldm => true
  | _ => false
  end.

Definition is_program_line (cur_line : string) : bool :=
  match rule_of cur_line with
  | ProgramBanner => true
  | _ => false
  end.

(** The version a program banner names (lines 83-85). *)
Definition version_of_line (cur_line : string) : string :=
  let ver_str := Py.replace (Py.strip cur_line) "Program PWSCF" "" in
  let ver_str := Py.strip (Py.slice_to ver_str (Py.find ver_str " starts ")) in
  if Py.startswith ver_str "v." then Py.drop 2 ver_str else ver_str.

(** The lines of a block: those before the first empty line. *)
Fixpoint table_rows (rest : list string) : list string :=
  match rest with
  | [] => []
  | line :: rest' => if blank line then [] else line :: table_rows rest'
  end.

Definition is_axes_line (cur_line : string) : bool :=
  match rule_of cur_line with
  | CrystalAxes => true
  | _ => false
  end.

Definition is_cell_line (cur_line : string) : bool :=
  match rule_of cur_line with
  | CellParameters => true
  | _ => false
  end.

(** The index of the last line of [data] that satisfies [f]. *)
Fixpoint last_index (f : string -> bool) (data : list string) : option nat :=
  match data with
  | [] => None
  | line :: rest =>
      match last_index f rest with
      | Some k => Some (S k)
      | None => if f line then Some 0%nat else None
      end
  end.

(** The unit flag of an ATOMIC_POSITIONS header (line 124). *)
Definition coord_flag (cur_line : string) : string :=
  Py.strip (Py.last_part (Py.split cur_line "(")).

(** The exceptions the pass of each rule can end with. *)
Definition may_raise (r : rule) (e : exn) : bool :=
  match r, e with
  | Celldm, (IndexError | ValueError) => true
  | CrystalAxes, ValueError => true
  | SiteTable, (IndexError | ValueError | AttributeError | TypeError | KeyError) => true
  | CellParameters,
    (IndexError | ValueError | AttributeError | TypeError | LinAlgError) => true
  | AtomicPositions, (IndexError | ValueError | TypeError) => true
  | TotalEnergy, (IndexError | ValueError) => true
  | Timing, ValueError => true
  | _, _ => false
  end.

Section Readings.

Context {L : Lib}.

(** The energy line 141 computes from a line: [None] when it raises. *)
Definition energy_of_line (cur_line : string) : option num :=
  match Py.index (Py.split_ws cur_line) (-2) with
  | Some tok => option_map (fun x => mul x Rydberg) (float tok)
  | None => None
  end.

(** The duration line 176 computes from a timing banner: [None] when
    [strptime] raises. *)
Definition duration_of_line (cur_line : string) : option string :=
  strptime_hours (timing_text cur_line) (timing_format (timing_text cur_line)).

(** The lattice parameter lines 90-91 compute from a line: [None] when
    they raise. *)
Definition alat_of_line (cur_line : string) : option pynum :=
  match Py.index (Py.split_ws cur_line) 1 with
  | Some tok =>
      option_map (fun x => let a := PyFloat (mul x Bohr) in
                           if truthy a then a else PyInt 1)
                 (float tok)
  | None => None
  end.

(** The unit multiplier of a CELL_PARAMETERS header (lines 118-120). *)
Definition cell_multiplier (cur_line : string) (st : state) : pynum :=
  if Py.contains cur_line "bohr" then PyFloat Bohr
  else if Py.contains cur_line "alat" then alat st
  else PyInt 1.

(** A structure as this parser hands it on: symbols of ASE's table, a
    cell of three rows of three entries, periodic in the three directions. *)
Definition well_formed (a : Atoms) : Prop :=
  Forall (fun s => In s chemical_symbols) (symbols a)
  /\ List.length (cell a) = 3%nat
  /\ Forall (fun row => List.length row = 3%nat) (cell a)
  /\ pbc a = (true, true, true).

(** The row [v[i][:] = vals] leaves in a row of three entries: the three
    values, or the one value in the three places. *)
Definition fill_row (vals : list num) : list num :=
  match vals with
  | [x] => [x; x; x]
  | _ => vals
  end.

(** A matrix scaled entry by entry. *)
Definition scaled (m : matrix) (a : pynum) : matrix :=
  map (map (fun x => mul x (to_float a))) m.

(** The coordinates read from the rows of a site table (line 104). *)
Definition site_coordinates (rows : list string) : res matrix :=
  map_res (fun line => floats (Py.slice (Py.split_ws line) (-4) (-1))) rows.

(** The rows of the crystal axes announced at index [k]: tokens 3 to 5 of
    the lines that follow, three of them or those the file still has
    (lines 94-95). *)
Definition axes_rows (data : list string) (k : nat) : res matrix :=
  map_res floats (map (fun x => Py.slice (Py.split_ws x) 3 6) (firstn 3 (skipn (S k) data))).

(** The coordinates read from the lines of an ATOMIC_POSITIONS block
    (line 127). *)
Definition block_coordinates (rows : list string) : res matrix :=
  map_res (fun line => floats (Py.slice (Py.split_ws line) 1 4)) rows.

(** The positions lines 131-138 give the structure [a] from the rows
    read, by the unit flag of the header. *)
Definition positions_in (flag : string) (rows : matrix) (a : Atoms) (lattice : pynum)
  : matrix :=
  if String.eqb flag "alat)" then scaled rows lattice
  else if String.eqb flag "bohr)" then scaled rows (PyFloat Bohr)
  else if String.eqb flag "angstrom)" then rows
  else np_dot rows (cell a).

(** What holds between the held positions, the held symbols and the
    structure in every state of a run. *)
Definition consistent (st : state) : Prop :=
  len (pos_data st) = List.length (symbol_data st)
  /\ match atomic_data st with
     | Some a => symbols a = symbol_data st
     | None => symbol_data st = []
     end.

(** What the name and the tags become when the lines that follow give
    [found]: a non-empty name is kept. *)
Definition functional_after (i : Info) (found : option (string * list string))
  : option string * list string :=
  if str_truthy (H i) then (H i, H_types i)
  else match found with
       | Some (v, t) => (Some v, (H_types i ++ t)%list)
       | None => (H i, H_types i)
       end.

End Readings.

(** *** Further logs the parser is run on *)

(** A log whose CELL_PARAMETERS block comes before any site table. *)
Definition early_cell_log : list string := map (fun s => s ++ nl)
  [ "     celldm(1)=   10.000000  celldm(2)=    0.000000";
    "     crystal axes: (cart. coord. in units of alat)";
    "               a(1) = (   1.000000   0.000000   0.000000 )";
    "               a(2) = (   0.000000   1.000000   0.000000 )";
    "               a(3) = (   0.000000   0.000000   1.000000 )";
    "ATOMIC_POSITIONS (crystal)";
    "CELL_PARAMETERS (alat= 10.00000000)";
    "   2.000000000   0.000000000   0.000000000";
    "   0.000000000   2.000000000   0.000000000";
    "   0.000000000   0.000000000   2.000000000";
    "     site n.     atom                  positions (alat units)";
    "         1           Fe1 tau(   1) = (   0.0000000   0.0000000   0.5000000  )";
    "" ].

(** A complete log: banner, lattice, site table, two relaxation steps'
    worth of optional lines, timing and termination. *)
Definition sample_log : list string := map (fun s => s ++ nl)
  [ "     Program PWSCF v.6.1 starts on  1Jan2020 at 10:00:00";
    "     celldm(1)=   10.000000  celldm(2)=    0.000000";
    "     crystal axes: (cart. coord. in units of alat)";
    "               a(1) = (   1.000000   0.000000   0.000000 )";
    "               a(2) = (   0.000000   1.000000   0.000000 )";
    "               a(3) = (   0.000000   0.000000   1.000000 )";
    "     Exchange-correlation      = PBE ( 1  4  3  4 0 0)";
    "     site n.     atom                  positions (alat units)";
    "         1           Fe1 tau(   1) = (   0.0000000   0.0000000   0.5000000  )";
    "";
    "     celldm(1)=   12.000000  celldm(2)=    0.000000";
    "!    total energy              =     -10.5 Ry";
    "     Exchange-correlation      = B3LYP ( 7 12  9  7 0 0)";
    "CELL_PARAMETERS (alat= 10.00000000)";
    "   2.000000000   0.000000000   0.000000000";
    "   0.000000000   2.000000000   0.000000000";
    "   0.000000000   0.000000000   2.000000000";
    "";
    "ATOMIC_POSITIONS (crystal)";
    "Fe       0.250000000   0.250000000   0.250000000";
    "!    total energy              =     -11.25 Ry";
    "     PWSCF        :     1m 0.50s CPU     1h 2m 18.52s WALL";
    "   This run was terminated on:  10:00:01   1Jan2020" ].

(** * Properties *)

(** ** Python primitives *)

Example split_ws_ex :
  Py.split_ws ("     celldm(1)=   10.2000  celldm(2)=    0.0" ++ nl)
  = ["celldm(1)="; "10.2000"; "celldm(2)="; "0.0"].
Proof. reflexivity. Qed.

Example split_ex : Py.split "a=b==c" "=" = ["a"; "b"; ""; "c"].
Proof. reflexivity. Qed.

Example split_multi_ex :
  Py.split " 0.5s CPU 0.6s WALL" "CPU" = [" 0.5s "; " 0.6s WALL"].
Proof. reflexivity. Qed.

Example replace_ex : Py.replace "a.out.out" ".out" "" = "a".
Proof. reflexivity. Qed.

Example slice_ex : Py.slice [1; 2; 3; 4; 5; 6; 7] (-4) (-1) = [4; 5; 6].
Proof. reflexivity. Qed.

Example slice_short_ex : Py.slice [1; 2] (-4) (-1) = [1].
Proof. reflexivity. Qed.

Example strip_ex : Py.strip_chars "12Fe_a34" "0123456789" = "Fe_a".
Proof. reflexivity. Qed.

Example dirname_ex :
  dirname "/data/run/pw.out" = "/data/run" /\ dirname "pw.out" = "" /\
  dirname "/pw.out" = "/" /\ dirname "a//b" = "a".
Proof. repeat split; reflexivity. Qed.

Example path_join_ex :
  path_join "/data" "pw.in" = "/data/pw.in" /\ path_join "" "pw.in" = "pw.in" /\
  path_join "/data" "/x/pw.in" = "/x/pw.in" /\ path_join "/" "pw.in" = "/pw.in".
Proof. repeat split; reflexivity. Qed.

Lemma startswith_spec (s p : string) :
  Py.startswith s p = true <-> exists b, s = p ++ b.
Proof.
  revert s; induction p as [|c p IH]; intros s; simpl.
  - split; [intros _; now exists s | intros _; reflexivity].
  - destruct s as [|d s].
    + split; [discriminate | intros [b Hb]; discriminate].
    + rewrite andb_true_iff, Ascii.eqb_eq, IH. split.
      * intros [-> [b ->]]. now exists b.
      * intros [b Hb]. injection Hb as -> ->. split; [reflexivity | now exists b].
Qed.

Lemma contains_spec (s p : string) : Py.contains s p = true <-> occurs p s.
Proof.
  unfold occurs. induction s as [|c s IH].
  - simpl. rewrite orb_false_r, startswith_spec. split.
    + intros [b Hb]. now exists "", b.
    + intros [a [b Hab]]. destruct a; simpl in Hab.
      * now exists b.
      * discriminate.
  - simpl. rewrite orb_true_iff, startswith_spec, IH. split.
    + intros [[b Hb] | [a [b Hab]]].
      * now exists "", b.
      * exists (String c a), b. simpl. now rewrite Hab.
    + intros [a [b Hab]]. destruct a as [|d a]; simpl in Hab.
      * left. now exists b.
      * right. injection Hab as -> ->. now exists a, b.
Qed.

(** ** The format detector *)

(** C5, as stated, fails: a sample that spells the program token in mixed
    case and holds the marker is rejected by the detector. *)
Lemma fingerprints_mixed_case :
  fingerprints ("Program PWscf" ++ program_marker) = false /\
  fingerprints_spec ("Program PWscf" ++ program_marker) = true.
Proof. split; reflexivity. Qed.

Lemma lower_app (a b : string) : Py.lower (a ++ b) = Py.lower a ++ Py.lower b.
Proof. induction a as [|c a IH]; simpl; [reflexivity | now rewrite IH]. Qed.

Lemma occurs_lower (p s : string) : occurs p s -> occurs (Py.lower p) (Py.lower s).
Proof.
  intros [a [b ->]]. exists (Py.lower a), (Py.lower b). now rewrite !lower_app.
Qed.

(** C5 (amended): the detector is a total boolean function; it answers
    [true] exactly when the sample holds the program token in one of the two
    spellings [pwscf] and [PWSCF] and holds the exact marker, and [false]
    otherwise; a sample it accepts holds the token whatever the case. *)
Theorem fingerprints_iff (sample : string) :
  (fingerprints sample = true <->
   (occurs "pwscf" sample \/ occurs "PWSCF" sample) /\ occurs program_marker sample)
  /\ (fingerprints sample = false <->
      ~ ((occurs "pwscf" sample \/ occurs "PWSCF" sample)
         /\ occurs program_marker sample))
  /\ (fingerprints sample = true -> fingerprints_spec sample = true).
Proof.
  assert (Hiff : fingerprints sample = true <->
                 (occurs "pwscf" sample \/ occurs "PWSCF" sample)
                 /\ occurs program_marker sample).
  { unfold fingerprints, program_marker. rewrite <- !contains_spec.
    destruct (Py.contains sample "pwscf"), (Py.contains sample "PWSCF"),
      (Py.contains sample "     Current dimensions of program "); simpl;
      intuition discriminate. }
  split; [exact Hiff | split].
  - rewrite <- Hiff. destruct (fingerprints sample); intuition discriminate.
  - intros Ht. apply Hiff in Ht. destruct Ht as [Htok Hmark].
    unfold fingerprints_spec. apply andb_true_iff. split.
    + apply contains_spec. destruct Htok as [Htok | Htok].
      * apply (occurs_lower "pwscf"), Htok.
      * apply (occurs_lower "PWSCF"), Htok.
    + apply contains_spec, Hmark.
Qed.

(** ** Site labels *)

Lemma mem_char_digits (c : ascii) : Py.mem_char "0123456789" c = Py.is_digit c.
Proof.
  destruct c as [[] [] [] [] [] [] [] []]; reflexivity.
Qed.

Lemma lstrip_by_ext (f g : ascii -> bool) (s : string) :
  (forall c, f c = g c) -> Py.lstrip_by f s = Py.lstrip_by g s.
Proof.
  intros E. induction s as [|c s IH]; simpl; [reflexivity|].
  rewrite <- E. destruct (f c); [exact IH | reflexivity].
Qed.

Lemma rstrip_by_ext (f g : ascii -> bool) (s : string) :
  (forall c, f c = g c) -> Py.rstrip_by f s = Py.rstrip_by g s.
Proof.
  intros E. induction s as [|c s IH]; simpl; [reflexivity|].
  now rewrite IH, E.
Qed.

Lemma drop_while_snoc {A} (f : A -> bool) (l : list A) (x : A) :
  drop_while f (l ++ [x])%list =
  if forallb f l then (if f x then [] else [x]) else (drop_while f l ++ [x])%list.
Proof.
  induction l as [|y l IH]; simpl; [reflexivity|].
  destruct (f y); simpl; [exact IH | reflexivity].
Qed.

Lemma drop_while_nil_iff {A} (f : A -> bool) (l : list A) :
  drop_while f l = [] <-> forallb f l = true.
Proof.
  induction l as [|y l IH]; simpl; [tauto|].
  destruct (f y); simpl; [exact IH | split; discriminate].
Qed.

Lemma forallb_rev {A} (f : A -> bool) (l : list A) : forallb f (rev l) = forallb f l.
Proof.
  induction l as [|y l IH]; simpl; [reflexivity|].
  rewrite forallb_app, IH. simpl. rewrite andb_true_r. apply andb_comm.
Qed.

(** The structural [rstrip] is the reversal of dropping from the reversed
    string. *)
Lemma rstrip_by_rev (f : ascii -> bool) (s : string) :
  list_ascii_of_string (Py.rstrip_by f s)
  = rev (drop_while f (rev (list_ascii_of_string s))).
Proof.
  induction s as [|c s IH]; simpl; [reflexivity|].
  rewrite drop_while_snoc, forallb_rev.
  destruct (Py.rstrip_by f s) as [|d r] eqn:E.
  - simpl in IH. symmetry in IH. apply (f_equal (@rev ascii)) in IH.
    rewrite rev_involutive in IH. simpl in IH.
    apply drop_while_nil_iff in IH. rewrite forallb_rev in IH. rewrite IH.
    destruct (f c); reflexivity.
  - destruct (forallb f (list_ascii_of_string s)) eqn:F.
    + exfalso. rewrite <- forallb_rev in F. apply drop_while_nil_iff in F.
      rewrite F in IH. discriminate.
    + rewrite rev_app_distr. simpl. now rewrite <- IH.
Qed.

Lemma rstrip_digits_wording (s : string) :
  Py.rstrip_by Py.is_digit s = strip_trailing_digits s.
Proof.
  unfold strip_trailing_digits. rewrite <- rstrip_by_rev.
  now rewrite string_of_list_ascii_of_string.
Qed.

Lemma string_of_list_app (a b : list ascii) :
  string_of_list_ascii (a ++ b)%list = string_of_list_ascii a ++ string_of_list_ascii b.
Proof. induction a as [|c a IH]; simpl; [reflexivity | now rewrite IH]. Qed.

Lemma append_assoc (a b c : string) : (a ++ b) ++ c = a ++ (b ++ c).
Proof. induction a as [|d a IH]; simpl; [reflexivity | now rewrite IH]. Qed.

Lemma append_nil_r (a : string) : a ++ "" = a.
Proof. induction a as [|d a IH]; simpl; [reflexivity | now rewrite IH]. Qed.

Lemma string_of_list_ascii_snoc (l : list ascii) (c : ascii) (s : string) :
  string_of_list_ascii (rev (c :: l)) ++ s = string_of_list_ascii (rev l) ++ String c s.
Proof.
  simpl. rewrite string_of_list_app, append_assoc. reflexivity.
Qed.

Lemma split_underscore_hd (s : string) (cur : list ascii) :
  hd "" (Py.split_go "_" s 0 cur) = string_of_list_ascii (rev cur) ++ before_underscore s.
Proof.
  revert cur; induction s as [|c s IH]; intros cur.
  - simpl. now rewrite append_nil_r.
  - cbn [Py.split_go Py.startswith before_underscore String.length Nat.sub].
    rewrite andb_true_r, (Ascii.eqb_sym "_"%char c).
    destruct (Ascii.eqb c "_"%char).
    + simpl. now rewrite append_nil_r.
    + rewrite IH. apply string_of_list_ascii_snoc.
Qed.

Lemma take_removelast (s : string) :
  Py.take (Nat.pred (String.length s)) s
  = string_of_list_ascii (removelast (list_ascii_of_string s)).
Proof.
  induction s as [|c s IH]; [reflexivity|].
  destruct s as [|d s]; [reflexivity|].
  change (Nat.pred (String.length (String c (String d s))))
    with (S (Nat.pred (String.length (String d s)))).
  cbn [Py.take]. rewrite IH. reflexivity.
Qed.

Lemma slice_to_minus_one (s : string) : Py.slice_to s (-1) = drop_last s.
Proof.
  unfold Py.slice_to, drop_last. simpl (-1 <? 0).
  replace (Z.to_nat (Z.of_nat (String.length s) + -1)) with (Nat.pred (String.length s)) by lia.
  apply take_removelast.
Qed.

Section Labels.

Context {L : Lib}.

(** C7 (amended): the stored symbol is the specification's procedure
    applied to the label without its leading digits (the code strips digits
    from both ends): strip trailing digits, cut at the first underscore,
    and drop the last character of a result that is no element symbol and
    is longer than one character.  The label [Fe1] yields [Fe] when [Fe] is
    an element symbol (and [F] otherwise). *)
Theorem normalize_label_refines (raw : string) :
  normalize_label raw = normalize_label_spec (Py.lstrip_by Py.is_digit raw)
  /\ normalize_label "Fe1"
     = (if Py.mem_str "Fe" chemical_symbols then "Fe" else "F").
Proof.
  split.
  - unfold normalize_label, normalize_label_spec, Py.strip_chars, Py.strip_by, Py.split.
    rewrite split_underscore_hd. simpl (string_of_list_ascii (rev []) ++ _).
    rewrite (lstrip_by_ext _ Py.is_digit) by apply mem_char_digits.
    rewrite (rstrip_by_ext _ Py.is_digit) by apply mem_char_digits.
    rewrite rstrip_digits_wording, slice_to_minus_one. reflexivity.
  - unfold normalize_label. simpl.
    destruct (Py.mem_str "Fe" chemical_symbols); reflexivity.
Qed.

End Labels.

(** C7, as stated, fails on a label that starts with a digit: the code
    strips the leading digit of [1H] and stores [H]; stripping trailing
    digits only leaves [1H], no element symbol, and would store [1]. *)
Lemma normalize_label_leading_digit :
  @normalize_label Exact.lib "1H" = "H" /\ @normalize_label_spec Exact.lib "1H" = "1".
Proof. split; reflexivity. Qed.

Example normalize_label_Fe1 : @normalize_label Exact.lib "Fe1" = "Fe".
Proof. reflexivity. Qed.

Example normalize_label_examples :
  map (@normalize_label Exact.lib) ["Fe"; "Fe2"; "C_h"; "O1_x"; "Fe+"; "H"; "Xx"; "Q"]
  = ["Fe"; "Fe"; "C"; "O"; "Fe"; "H"; "X"; "Q"].
Proof. reflexivity. Qed.

(** ** The exchange-correlation descriptor *)

Lemma find_from_absent (s p : string) (i : Z) :
  Py.contains s p = false -> Py.find_from s p i = -1.
Proof.
  revert i; induction s as [|c s IH]; intros i; simpl; intros Hc;
    apply orb_false_iff in Hc; destruct Hc as [Hs Hrest]; rewrite Hs.
  - reflexivity.
  - now apply IH.
Qed.

Lemma lstrip_by_suffix (f : ascii -> bool) (s : string) :
  exists a, s = a ++ Py.lstrip_by f s.
Proof.
  induction s as [|c s [a IH]]; simpl.
  - now exists "".
  - destruct (f c).
    + exists (String c a). simpl. now rewrite <- IH.
    + now exists "".
Qed.

Lemma rstrip_by_prefix (f : ascii -> bool) (s : string) :
  exists b, s = Py.rstrip_by f s ++ b.
Proof.
  induction s as [|c s [b IH]]; simpl.
  - now exists "".
  - destruct (Py.rstrip_by f s) as [|d r].
    + destruct (f c); [now exists (String c s) | exists s; reflexivity].
    + exists b. simpl. now rewrite IH at 1.
Qed.

Lemma occurs_strip (p s : string) : occurs p (Py.strip s) -> occurs p s.
Proof.
  unfold Py.strip, Py.strip_by. intros [a [b Hab]].
  destruct (lstrip_by_suffix Py.is_space s) as [u Hu].
  destruct (rstrip_by_prefix Py.is_space (Py.lstrip_by Py.is_space s)) as [v Hv].
  exists (u ++ a), (b ++ v). rewrite Hu at 1. rewrite Hv at 1. rewrite Hab.
  now rewrite !append_assoc.
Qed.

(** C10: when the text after the last [=] of an exchange-correlation line
    holds no opening parenthesis, the descriptor that is tokenized is that
    text, stripped, without its last character: [find] answers [-1], which
    is used as the end of the slice. *)
Theorem xc_descriptor_without_paren (cur_line : string) :
  Py.contains (Py.last_part (Py.split cur_line "=")) "(" = false ->
  Py.find (Py.strip (Py.last_part (Py.split cur_line "="))) "(" = -1
  /\ xc_descriptor cur_line = drop_last (Py.strip (Py.last_part (Py.split cur_line "="))).
Proof.
  intros Hno.
  assert (Hstrip : Py.contains (Py.strip (Py.last_part (Py.split cur_line "="))) "(" = false).
  { destruct (Py.contains (Py.strip _) "(") eqn:E; [|reflexivity].
    apply contains_spec, occurs_strip, contains_spec in E. congruence. }
  assert (Hfind : Py.find (Py.strip (Py.last_part (Py.split cur_line "="))) "(" = -1)
    by (apply find_from_absent, Hstrip).
  split; [exact Hfind|].
  unfold xc_descriptor. rewrite Hfind. apply slice_to_minus_one.
Qed.

(** The raw descriptor [PBE] with no parenthesized setup is processed as
    [PB]. *)
Lemma xc_descriptor_PBE :
  Py.contains (Py.last_part (Py.split xc_line_PBE "=")) "(" = false
  /\ xc_descriptor xc_line_PBE = "PB"
  /\ xc_tokens xc_line_PBE = ["pb"].
Proof.
  split; [reflexivity|]. split; [|reflexivity].
  etransitivity; [apply (xc_descriptor_without_paren xc_line_PBE); reflexivity|].
  reflexivity.
Defined.

Example parse_PBE_without_paren (L : Lib) :
  option_map (fun r => (H (info r), H_types (info r)))
    (match __init__ "pw.out" [xc_line_PBE] (fun _ => false) with
     | Ok r => Some r
     | Raise _ => None
     end)
  = Some (Some "pb", []).
Proof. reflexivity. Qed.

(** ** The sibling input file *)

(** C8: the path tested on line 182 at concrete file names.  For an
    absolute name with one extension it is the sibling in the same
    directory; a relative name with a directory has the directory joined in
    front of itself, and every occurrence of the extension is removed, not
    only the final one. *)
Theorem sibling_path_examples :
  sibling_path "/data/pw.out" = "/data/pw.in"
  /\ sibling_path "pw.out" = "pw.in"
  /\ sibling_path "runs/pw.out" = "runs/runs/pw.in"
  /\ sibling_path "/scratch/si.out/si.out" = "/scratch/si/si.in"
  /\ sibling_path "/data/pw.out.out" = "/data/pw.in".
Proof. repeat split; reflexivity. Qed.

(** ** The functional lookup table *)

Lemma xc_keys_distinct : NoDup (map fst xc_internal_map).
Proof.
  assert (D : forall (l : list string),
             (fix nodup (l : list string) : bool :=
                match l with
                | [] => true
                | x :: l' => negb (Py.mem_str x l') && nodup l'
                end) l = true -> NoDup l).
  { induction l as [|x l IH]; intros Hn; constructor;
      apply andb_true_iff in Hn; destruct Hn as [Hx Hl].
    - intros Hin. apply negb_true_iff in Hx.
      assert (Py.mem_str x l = true); [|congruence].
      apply existsb_exists. exists x. split; [exact Hin | apply String.eqb_refl].
    - now apply IH. }
  apply D. reflexivity.
Qed.

Lemma strings_eqb_eq (a b : list string) : strings_eqb a b = true -> a = b.
Proof.
  revert b; induction a as [|x a IH]; intros [|y b]; simpl; try discriminate.
  - reflexivity.
  - intros Hab. apply andb_true_iff in Hab. destruct Hab as [Hxy Hab].
    apply String.eqb_eq in Hxy. subst. f_equal. now apply IH.
Qed.

(** Whatever the order in which a dictionary yields its values, the first
    entry that lists a setup is determined up to its name and tags: two
    entries that list the same setup agree on both. *)
Lemma xc_setup_unambiguous :
  forallb (fun e1 =>
    forallb (fun e2 =>
      forallb (fun s => negb (Py.mem_str s (xc_setup e2)) || entry_eqb e1 e2)
              (xc_setup e1))
      (map snd xc_internal_map))
    (map snd xc_internal_map) = true.
Proof. vm_compute. reflexivity. Qed.

Section Functional.

Context {L : Lib}.

(** C4 at the entry [vdw-df-cx]: its setup string holds a capital [W], the
    tokens are lower-cased before the search, so the search finds no entry
    and the joined tokens are stored as the name, with no tags. *)
Theorem xc_setup_vdw_df_cx :
  In ("vdw-df-cx", mk_xc "vdW-DF-cx" ["GGA"; "vdW"] ["sla+pw+cx13+vdW1"]) xc_internal_map
  /\ functional_of [xc_line "sla+pw+cx13+vdW1"] = Some (Some "sla+pw+cx13+vdw1", []).
Proof.
  split; [|reflexivity].
  unfold xc_internal_map. repeat (first [left; reflexivity | right]).
Qed.

(** X4: every other setup string of the table, printed as the descriptor
    of an exchange-correlation line, is mapped to the name and the tags of
    its entry. *)
Lemma xc_setup_roundtrip (k : string) (e : xc_entry) (s : string) :
  In (k, e) xc_internal_map -> In s (xc_setup e) -> s <> "sla+pw+cx13+vdW1" ->
  functional_of [xc_line s] = Some (Some (xc_name e), xc_type e).
Proof.
  intros Hk Hs Hne.
  assert (C : forallb (fun ke =>
                forallb (fun s => String.eqb s "sla+pw+cx13+vdW1"
                                  || functional_eqb (functional_of [xc_line s]) (snd ke))
                        (xc_setup (snd ke))) xc_internal_map = true)
    by (vm_compute; reflexivity).
  rewrite forallb_forall in C. specialize (C _ Hk). simpl in C.
  rewrite forallb_forall in C. specialize (C _ Hs).
  apply orb_true_iff in C. destruct C as [C | C].
  - apply String.eqb_eq in C. contradiction.
  - unfold functional_eqb in C.
    destruct (functional_of [xc_line s]) as [[[name|] types]|]; try discriminate.
    apply andb_true_iff in C. destruct C as [C1 C2].
    apply String.eqb_eq in C1. subst name.
    apply strings_eqb_eq in C2. now subst.
Qed.

End Functional.

(** ** One pass of the loop *)

Ltac break_bind H :=
  repeat match type of H with
    | bind ?m _ = Ok _ =>
        let E := fresh "E" in
        destruct m eqn:E; [cbn [bind] in H | discriminate H]
    end.

Lemma nth_error_skipn_cons {A} (l : list A) (k : nat) (x : A) :
  nth_error l k = Some x -> skipn k l = x :: skipn (S k) l.
Proof.
  revert l; induction k as [|k IH]; intros [|y l]; simpl; try discriminate.
  - now intros [= ->].
  - intros Hx. now rewrite (IH _ Hx).
Qed.

Section Scan.

Context {L : Lib}.

Lemma step_line (data : list string) (n : nat) (st : state) (r : nat * state) :
  step data n st = Ok r -> exists cur_line, nth_error data n = Some cur_line.
Proof.
  unfold step. destruct (nth_error data n) as [cur_line|]; [|discriminate].
  intros _. now exists cur_line.
Qed.

Lemma site_table_info (data : list string) (n n' : nat) (st st' : state) :
  on_site_table data n st = Ok (n', st') -> st_info st' = st_info st.
Proof.
  unfold on_site_table. destruct (negb _).
  - now intros [= _ <-].
  - intros Hs. break_bind Hs. destruct a as [[m pos] syms].
    break_bind Hs. now injection Hs as _ <-.
Qed.

Lemma cell_parameters_info (data : list string) (n n' : nat) (cur_line : string)
  (st st' : state) :
  on_cell_parameters data n cur_line st = Ok (n', st') -> st_info st' = st_info st.
Proof.
  unfold on_cell_parameters. intros Hs. break_bind Hs.
  destruct a as [[m cd] completed]. destruct completed.
  - break_bind Hs. now injection Hs as _ <-.
  - now injection Hs as _ <-.
Qed.

Lemma atomic_positions_info (data : list string) (n n' : nat) (cur_line : string)
  (st st' : state) :
  on_atomic_positions data n cur_line st = Ok (n', st') -> st_info st' = st_info st.
Proof.
  unfold on_atomic_positions. intros Hs. break_bind Hs.
  destruct a as [m pd]. destruct (atomic_data st) as [a|].
  - destruct (atoms_truthy (Some a)).
    + break_bind Hs. now injection Hs as _ <-.
    + now injection Hs as _ <-.
  - now injection Hs as _ <-.
Qed.

(** What a pass does to [self.info] is decided by the rule of its line. *)
Lemma step_info (data : list string) (n n' : nat) (st st' : state) (cur_line : string) :
  nth_error data n = Some cur_line ->
  step data n st = Ok (n', st') ->
  info_step cur_line (st_info st) (st_info st').
Proof.
  intros Hl. unfold step, info_step. rewrite Hl. cbn [or_raise bind].
  destruct (rule_of cur_line); intros Hs.
  - now injection Hs as _ <-.
  - injection Hs as _ <-. unfold on_program. simpl. eauto.
  - break_bind Hs. injection Hs as _ <-. unfold on_celldm in E.
    destruct (truthy (alat st)); [now injection E as <-|].
    break_bind E. now injection E as <-.
  - break_bind Hs. injection Hs as _ <-. unfold on_crystal_axes in E.
    break_bind E. now injection E as <-.
  - eapply site_table_info, Hs.
  - eapply cell_parameters_info, Hs.
  - eapply atomic_positions_info, Hs.
  - break_bind Hs. injection Hs as _ <-. unfold on_total_energy in E.
    break_bind E. injection E as <-. simpl. eauto.
  - injection Hs as _ <-. unfold on_exchange_correlation.
    destruct (str_truthy _); [now left|].
    destruct (xc_tokens cur_line) as [|k [|k2 rest]].
    + destruct (xc_matches _ _); simpl; right; eauto.
    + destruct (xc_lookup _ _); simpl; right; eauto.
    + destruct (xc_matches _ _); simpl; right; eauto.
  - break_bind Hs. injection Hs as _ <-. unfold on_timing in E. fold (wall cur_line) in E.
    destruct (wall cur_line).
    + break_bind E. injection E as <-. simpl. eauto.
    + now injection E as <-.
  - now injection Hs as _ <-.
Qed.

End Scan.

(** ** The whole scan *)

Section Run.

Context {L : Lib}.

Lemma for_range_cons (body : nat -> state -> res (nat * state)) (n : nat)
  (it : list nat) (st st' : state) (tr : list (nat * nat)) :
  for_range body (n :: it) st = Ok (tr, st') ->
  exists n1 st1 tr1,
    body n st = Ok (n1, st1) /\ for_range body it st1 = Ok (tr1, st')
    /\ tr = (n, n1) :: tr1.
Proof.
  cbn [for_range]. intros Hr. break_bind Hr. destruct a as [n1 st1].
  destruct a0 as [tr1 st2]. cbn [fst snd] in *. injection Hr as <- <-.
  now exists n1, st1, tr1.
Qed.

(** The record of a completed run holds the [info] of the final state of
    the loop, the structure when it has atoms, and the file's own path
    followed by the sibling path when that exists. *)
Lemma parse_inv (filename : string) (data : list string) (exists_ : string -> bool)
  (r : Output) :
  __init__ filename data exists_ = Ok r ->
  exists tr st,
    main_loop data initial_state = Ok (tr, st)
    /\ info r = st_info st
    /\ structures r = (if atoms_truthy (atomic_data st)
                       then match atomic_data st with Some a => [a] | None => [] end
                       else [])
    /\ related_files r = filename :: (if exists_ (sibling_path filename)
                                      then [sibling_path filename] else []).
Proof.
  unfold __init__. fold initial_state. cbn [Output_init related_files structures info prog
    energy H H_types duration app]. fold initial_state.
  intros Hp. break_bind Hp. destruct a as [tr st]. injection Hp as <-.
  exists tr, st. cbn [snd info structures related_files]. repeat split.
  destruct (exists_ (sibling_path filename)); reflexivity.
Qed.

Lemma info_step_finished (cur_line : string) (i i' : Info) :
  info_step cur_line i i' ->
  finished i' = if writes_finished cur_line then 1 else finished i.
Proof.
  unfold info_step, writes_finished.
  destruct (rule_of cur_line); try (intros ->; reflexivity).
  - intros [v ->]. reflexivity.
  - intros [x ->]. reflexivity.
  - intros [-> | [v [t ->]]]; reflexivity.
  - destruct (wall cur_line); [intros [h ->] | intros ->]; reflexivity.
Qed.

Lemma scan_finished (data : list string) (m : nat) :
  forall k st tr st',
    for_range (step data) (seq k m) st = Ok (tr, st') ->
    (k + m = List.length data)%nat ->
    finished (st_info st')
    = if existsb writes_finished (skipn k data) then 1 else finished (st_info st).
Proof.
  induction m as [|m IH]; intros k st tr st' Hr Hk.
  - cbn in Hr. injection Hr as _ <-.
    rewrite skipn_all2 by lia. reflexivity.
  - cbn [seq] in Hr. apply for_range_cons in Hr.
    destruct Hr as [n1 [st1 [tr1 [Hs [Hr _]]]]].
    destruct (step_line _ _ _ _ Hs) as [cur_line Hl].
    rewrite (nth_error_skipn_cons _ _ _ Hl). cbn [existsb].
    rewrite (IH _ _ _ _ Hr) by lia.
    rewrite (info_step_finished _ _ _ (step_info _ _ _ _ _ _ Hl Hs)).
    destruct (writes_finished cur_line), (existsb writes_finished (skipn (S k) data));
      reflexivity.
Qed.

(** C2 (amended): the finished flag takes two values.  It starts as [-1];
    a termination banner and a wall-clock timing banner both write the
    same value [1], and nothing writes it back: at the end of a completed
    parse it is [1] when the log holds a termination banner or a
    wall-clock timing banner, and [-1] when it holds neither. *)
Theorem finished_flag (filename : string) (data : list string)
  (exists_ : string -> bool) (r : Output) :
  __init__ filename data exists_ = Ok r ->
  finished (info r) = if existsb writes_finished data then 1 else -1.
Proof.
  intros Hp. apply parse_inv in Hp. destruct Hp as [tr [st [Hm [Hi _]]]].
  rewrite Hi. unfold main_loop in Hm.
  rewrite (scan_finished data _ 0 _ _ _ Hm) by lia. reflexivity.
Qed.

End Run.

(** Runs the parser on a concrete log: the record is computed, and the
    equation is then checked by conversion. *)
Ltac run_parse :=
  match goal with
  | |- exists r, ?p = Ok r /\ _ =>
      let v := eval vm_compute in p in
      match v with
      | Ok ?r => exists r; split; [reflexivity|]
      end
  end.

Ltac run_pair :=
  match goal with
  | |- exists a b, ?p = Ok (a, b) /\ _ =>
      let v := eval vm_compute in p in
      match v with
      | Ok (?x, ?y) => exists x, y; split; [reflexivity|]
      end
  end.

(** A log that holds only a termination banner ends with the flag [1]. *)
Lemma finished_flag_terminated :
  exists r,
    @__init__ Exact.lib "pw.out" [termination_banner] (fun _ => false) = Ok r
    /\ finished (info r) = if existsb writes_finished [termination_banner] then 1 else -1.
Proof.
  run_parse.
  apply (@finished_flag Exact.lib "pw.out" [termination_banner] (fun _ => false)).
  reflexivity.
Defined.

(** C2, as stated, fails: the value written at a termination banner is not
    distinct from the value written at a wall-clock banner.  A log that
    holds only the one and a log that holds only the other end with the
    same flag, [1]. *)
Lemma finished_flag_not_tri_state :
  exists r1,
    @__init__ Exact.lib "pw.out" [termination_banner] (fun _ => false) = Ok r1
    /\ exists r2,
         @__init__ Exact.lib "pw.out" [wall_clock_banner] (fun _ => false) = Ok r2
         /\ finished (info r1) = 1 /\ finished (info r2) = 1
         /\ duration (info r1) = None /\ duration (info r2) = Some "0.00".
Proof. run_parse. run_parse. repeat split. Qed.

(** ** Exceptions of a run *)

Lemma never_unrecognized_bind {A B} (m : res A) (k : A -> res B) :
  never_unrecognized m -> (forall a, never_unrecognized (k a)) ->
  never_unrecognized (bind m k).
Proof.
  unfold never_unrecognized. destruct m as [a|e]; cbn [bind]; intros Hm Hk.
  - apply Hk.
  - intros [= ->]. now apply Hm.
Qed.

Lemma never_unrecognized_or_raise {A} (e : exn) (o : option A) :
  e <> UnrecognizedFormat -> never_unrecognized (or_raise e o).
Proof.
  unfold never_unrecognized. destruct o; cbn; [discriminate | congruence].
Qed.

Lemma never_unrecognized_map_res {A B} (f : A -> res B) (l : list A) :
  (forall x, never_unrecognized (f x)) -> never_unrecognized (map_res f l).
Proof.
  intros Hf. induction l as [|x l IH]; cbn [map_res].
  - discriminate.
  - apply never_unrecognized_bind; [apply Hf | intros y].
    apply never_unrecognized_bind; [exact IH | intros ys]. discriminate.
Qed.

Ltac never_ur :=
  repeat first
    [ apply never_unrecognized_bind; [|intros ?]
    | apply never_unrecognized_or_raise; discriminate
    | apply never_unrecognized_map_res; intros ?
    | assumption
    | match goal with
      | |- never_unrecognized (Ok _) => discriminate
      | |- never_unrecognized (Raise _) => discriminate
      | |- never_unrecognized (if ?b then _ else _) => destruct b
      | |- never_unrecognized (match ?x with _ => _ end) => destruct x
      | |- never_unrecognized (let (_, _) := ?x in _) => destruct x
      end ].

Section Raising.

Context {L : Lib}.

Lemma floats_never (toks : list string) : never_unrecognized (floats toks).
Proof. unfold floats. never_ur. Qed.

Lemma times_never (v : pyseq) (a : pynum) : never_unrecognized (times v a).
Proof. unfold times. never_ur. Qed.

Lemma assign_row_never (v : pyseq) (i : nat) (vals : list num) :
  never_unrecognized (assign_row v i vals).
Proof. unfold assign_row. never_ur. Qed.

Lemma new_Atoms_never (syms : list string) (pos cel : pyseq) :
  never_unrecognized (new_Atoms syms pos cel).
Proof. unfold new_Atoms. never_ur. Qed.

Lemma set_cell_never (a : Atoms) (cel : pyseq) : never_unrecognized (set_cell a cel).
Proof. unfold set_cell. never_ur. Qed.

Lemma set_positions_never (a : Atoms) (pos : pyseq) :
  never_unrecognized (set_positions a pos).
Proof. unfold set_positions. never_ur. Qed.

Lemma set_scaled_positions_never (a : Atoms) (pos : pyseq) :
  never_unrecognized (set_scaled_positions a pos).
Proof. unfold set_scaled_positions. never_ur. Qed.

Lemma site_rows_never (rest : list string) :
  forall n pos syms, never_unrecognized (site_rows rest n pos syms).
Proof.
  induction rest as [|line rest IH]; intros n pos syms; cbn [site_rows].
  - discriminate.
  - destruct (Py.split_ws line) as [|t ts]; [discriminate|].
    destruct pos; try discriminate.
    apply never_unrecognized_bind; [apply floats_never | intros xyz].
    apply never_unrecognized_bind; [never_ur | intros raw]. apply IH.
Qed.

Lemma cell_rows_never (rest : list string) :
  forall i todo n cd, never_unrecognized (cell_rows rest i todo n cd).
Proof.
  induction rest as [|line rest IH]; intros i [|todo] n cd; cbn [cell_rows];
    try discriminate.
  destruct (Py.split_ws line) as [|t ts]; [discriminate|].
  apply never_unrecognized_bind; [apply floats_never | intros vals].
  apply never_unrecognized_bind; [apply assign_row_never | intros cd']. apply IH.
Qed.

Lemma position_rows_never (rest : list string) :
  forall i todo n pd, never_unrecognized (position_rows rest i todo n pd).
Proof.
  induction rest as [|line rest IH]; intros i [|todo] n pd; cbn [position_rows];
    try discriminate.
  apply never_unrecognized_bind; [apply floats_never | intros vals].
  apply never_unrecognized_bind; [apply assign_row_never | intros pd']. apply IH.
Qed.

Lemma step_never (data : list string) (n : nat) (st : state) :
  never_unrecognized (step data n st).
Proof.
  unfold step. apply never_unrecognized_bind; [never_ur | intros cur_line].
  destruct (rule_of cur_line); try discriminate.
  - unfold on_celldm. never_ur.
  - unfold on_crystal_axes. never_ur.
  - unfold on_site_table. destruct (negb _); [discriminate|].
    apply never_unrecognized_bind; [apply site_rows_never | intros [[m pos] syms]].
    apply never_unrecognized_bind; [apply times_never | intros pos'].
    apply never_unrecognized_bind; [apply times_never | intros cel].
    apply never_unrecognized_bind; [apply new_Atoms_never | intros a]. discriminate.
  - unfold on_cell_parameters.
    apply never_unrecognized_bind; [apply cell_rows_never | intros [[m cd] completed]].
    destruct completed; [|discriminate].
    apply never_unrecognized_bind; [never_ur | intros a].
    apply never_unrecognized_bind; [apply times_never | intros cel].
    apply never_unrecognized_bind; [apply set_cell_never | intros a']. discriminate.
  - unfold on_atomic_positions.
    apply never_unrecognized_bind; [apply position_rows_never | intros [m pd]].
    destruct (atomic_data st) as [a|]; [|discriminate].
    destruct (atoms_truthy (Some a)); [|discriminate].
    apply never_unrecognized_bind; [|intros a'; discriminate].
    repeat match goal with
           | |- never_unrecognized (if ?b then _ else _) => destruct b
           end;
      first [ apply set_positions_never | apply set_scaled_positions_never
            | apply never_unrecognized_bind;
              [apply times_never | intros p; apply set_positions_never] ].
  - unfold on_total_energy. never_ur.
  - unfold on_timing. never_ur.
Qed.

Lemma for_range_never (data : list string) (it : list nat) :
  forall st, never_unrecognized (for_range (step data) it st).
Proof.
  induction it as [|n it IH]; intros st; cbn [for_range].
  - discriminate.
  - apply never_unrecognized_bind; [apply step_never | intros r].
    apply never_unrecognized_bind; [apply IH | intros rest]. discriminate.
Qed.

Lemma parse_never (filename : string) (data : list string) (exists_ : string -> bool) :
  never_unrecognized (__init__ filename data exists_).
Proof.
  unfold __init__. apply never_unrecognized_bind; [apply for_range_never | intros r].
  discriminate.
Qed.

(** *** The optional fields *)

Lemma info_step_optional (cur_line : string) (i i' : Info) :
  info_step cur_line i i' -> optional_line cur_line = false ->
  energy i' = energy i /\ H i' = H i /\ H_types i' = H_types i
  /\ duration i' = duration i.
Proof.
  unfold info_step, optional_line.
  destruct (rule_of cur_line); try discriminate; intros Hi _;
    try (rewrite Hi; repeat split; reflexivity).
  destruct Hi as [v ->]. repeat split.
Qed.

Lemma scan_optional (data : list string) (m : nat) :
  forall k st tr st',
    for_range (step data) (seq k m) st = Ok (tr, st') ->
    (k + m = List.length data)%nat ->
    forallb (fun l => negb (optional_line l)) (skipn k data) = true ->
    energy (st_info st') = energy (st_info st) /\ H (st_info st') = H (st_info st)
    /\ H_types (st_info st') = H_types (st_info st)
    /\ duration (st_info st') = duration (st_info st).
Proof.
  induction m as [|m IH]; intros k st tr st' Hr Hk Hopt.
  - cbn in Hr. injection Hr as _ <-. repeat split.
  - cbn [seq] in Hr. apply for_range_cons in Hr.
    destruct Hr as [n1 [st1 [tr1 [Hs [Hr _]]]]].
    destruct (step_line _ _ _ _ Hs) as [cur_line Hl].
    rewrite (nth_error_skipn_cons _ _ _ Hl) in Hopt. cbn [forallb] in Hopt.
    apply andb_true_iff in Hopt. destruct Hopt as [Hc Hrest].
    apply negb_true_iff in Hc.
    destruct (IH _ _ _ _ Hr ltac:(lia) Hrest) as [E1 [E2 [E3 E4]]].
    destruct (info_step_optional _ _ _ (step_info _ _ _ _ _ _ Hl Hs) Hc)
      as [F1 [F2 [F3 F4]]].
    repeat split; congruence.
Qed.

(** *** Logs that cannot raise *)

Lemma step_plain (data : list string) (n : nat) (st : state) (cur_line : string) :
  nth_error data n = Some cur_line ->
  optional_line cur_line = false -> block_line cur_line = false ->
  exists st', step data n st = Ok (n, st').
Proof.
  intros Hl. unfold step, optional_line, block_line. rewrite Hl. cbn [or_raise bind].
  destruct (rule_of cur_line); try discriminate; intros _ _; eauto.
Qed.

Lemma scan_plain (data : list string) (m : nat) :
  forall k st,
    (k + m = List.length data)%nat ->
    forallb (fun l => negb (optional_line l)) (skipn k data) = true ->
    forallb (fun l => negb (block_line l)) (skipn k data) = true ->
    exists r, for_range (step data) (seq k m) st = Ok r.
Proof.
  induction m as [|m IH]; intros k st Hk Hopt Hblock.
  - cbn. eauto.
  - assert (Hl : exists cur_line, nth_error data k = Some cur_line).
    { destruct (nth_error data k) eqn:E; [eauto|].
      apply nth_error_None in E. lia. }
    destruct Hl as [cur_line Hl].
    rewrite (nth_error_skipn_cons _ _ _ Hl) in Hopt, Hblock.
    cbn [forallb] in Hopt, Hblock.
    apply andb_true_iff in Hopt, Hblock.
    destruct Hopt as [Ho Hopt], Hblock as [Hb Hblock].
    apply negb_true_iff in Ho, Hb.
    destruct (step_plain data k st cur_line Hl Ho Hb) as [st1 Hs].
    destruct (IH (S k) st1 ltac:(lia) Hopt Hblock) as [[tr st2] Hr].
    cbn [seq for_range]. rewrite Hs. cbn [bind snd fst]. rewrite Hr. cbn [bind]. eauto.
Qed.

(** C9 (amended): for a log with no total-energy, exchange-correlation or
    timing line, a parse that completes returns a record in which
    [final_energy], [functional_name] (with its tags) and [duration] are
    unset, and whatever the parse raises is not [UnrecognizedFormat].  The
    parse does complete when, besides, no line is a lattice-parameter,
    crystal-axes, site-table, CELL_PARAMETERS or ATOMIC_POSITIONS line; on
    those it can raise. *)
Theorem parse_without_optional_lines (filename : string) (data : list string)
  (exists_ : string -> bool) :
  forallb (fun l => negb (optional_line l)) data = true ->
  __init__ filename data exists_ <> Raise UnrecognizedFormat
  /\ (forall r, __init__ filename data exists_ = Ok r ->
        energy (info r) = None /\ H (info r) = None /\ H_types (info r) = []
        /\ duration (info r) = None)
  /\ (forallb (fun l => negb (block_line l)) data = true ->
        exists r, __init__ filename data exists_ = Ok r).
Proof.
  intros Hopt. split; [apply parse_never|]. split.
  - intros r Hp. apply parse_inv in Hp. destruct Hp as [tr [st [Hm [Hi _]]]].
    rewrite Hi. unfold main_loop in Hm.
    apply (scan_optional data _ 0 _ _ _ Hm ltac:(lia) Hopt).
  - intros Hblock.
    destruct (scan_plain data (List.length data) 0 initial_state ltac:(lia) Hopt Hblock)
      as [[tr st] Hr].
    unfold __init__. fold initial_state.
    cbn [Output_init related_files structures info prog energy H H_types duration app].
    fold initial_state. unfold main_loop. rewrite Hr. cbn [bind]. eauto.
Qed.

End Raising.

(** C9, as stated, fails: a log with no energy, exchange-correlation or
    timing line whose site table is cut off makes the parse raise
    IndexError. *)
Lemma parse_truncated_raises :
  forallb (fun l => negb (optional_line l)) truncated_log = true
  /\ @__init__ Exact.lib "pw.out" truncated_log (fun _ => false) = Raise IndexError.
Proof. split; reflexivity. Qed.

(** The log [structure_log] has none of the three optional lines: its
    parse leaves the three fields unset. *)
Lemma parse_structure_log_unset :
  forallb (fun l => negb (optional_line l)) structure_log = true
  /\ @__init__ Exact.lib "pw.out" structure_log (fun _ => false) <> Raise UnrecognizedFormat
  /\ (forall r, @__init__ Exact.lib "pw.out" structure_log (fun _ => false) = Ok r ->
        energy (info r) = None /\ H (info r) = None /\ H_types (info r) = []
        /\ duration (info r) = None)
  /\ (forallb (fun l => negb (block_line l)) structure_log = true ->
        exists r, @__init__ Exact.lib "pw.out" structure_log (fun _ => false) = Ok r).
Proof.
  split; [reflexivity|].
  apply (@parse_without_optional_lines Exact.lib "pw.out" structure_log (fun _ => false)).
  reflexivity.
Defined.

Example parse_structure_log :
  exists r,
    @__init__ Exact.lib "pw.out" structure_log (fun _ => false) = Ok r
    /\ map symbols (structures r) = [["Fe"]]
    /\ prog (info r) = Some "Quantum ESPRESSO 6.1"
    /\ energy (info r) = None.
Proof. run_parse. repeat split. Qed.

(** ** The dispatch of the main loop *)

Section Dispatch.

Context {L : Lib}.

Lemma site_rows_reach (rest : list string) :
  forall n pos syms n' pos' syms',
    site_rows rest n pos syms = Ok (n', pos', syms') ->
    (n < n' <= n + List.length rest)%nat.
Proof.
  induction rest as [|line rest IH]; intros n pos syms n' pos' syms'; cbn [site_rows].
  - discriminate.
  - destruct (Py.split_ws line) as [|t ts].
    + intros [= <- _ _]. cbn [List.length]. lia.
    + destruct pos; try discriminate. intros Hs. break_bind Hs.
      apply IH in Hs. cbn [List.length]. lia.
Qed.

Lemma cell_rows_reach (rest : list string) :
  forall i todo n cd n' cd' completed,
    cell_rows rest i todo n cd = Ok (n', cd', completed) ->
    (n <= n' <= n + List.length rest)%nat.
Proof.
  induction rest as [|line rest IH]; intros i [|todo] n cd n' cd' completed;
    cbn [cell_rows]; try discriminate; try (intros [= <- _ _]; lia).
  destruct (Py.split_ws line) as [|t ts].
  - intros [= <- _ _]. cbn [List.length]. lia.
  - intros Hs. break_bind Hs. apply IH in Hs. cbn [List.length]. lia.
Qed.

Lemma position_rows_reach (rest : list string) :
  forall i todo n pd n' pd',
    position_rows rest i todo n pd = Ok (n', pd') ->
    (n <= n' <= n + List.length rest)%nat.
Proof.
  induction rest as [|line rest IH]; intros i [|todo] n pd n' pd';
    cbn [position_rows]; try discriminate; try (intros [= <- _]; lia).
  intros Hs. break_bind Hs. apply IH in Hs. cbn [List.length]. lia.
Qed.

(** A pass leaves its local index between the index it was entered with
    and the last line of the file. *)
Lemma step_reach (data : list string) (n n' : nat) (st st' : state) :
  step data n st = Ok (n', st') -> (n <= n' < List.length data)%nat.
Proof.
  intros Hs. destruct (step_line _ _ _ _ Hs) as [cur_line Hl].
  assert (Hn : (n < List.length data)%nat) by (apply nth_error_Some; congruence).
  assert (Hlen : List.length (skipn (S n) data) = (List.length data - S n)%nat)
    by apply length_skipn.
  revert Hs. unfold step. rewrite Hl. cbn [or_raise bind].
  destruct (rule_of cur_line); intros Hs;
    try (break_bind Hs; injection Hs as <- _; lia).
  - unfold on_site_table in Hs. destruct (negb _).
    + injection Hs as <- _. lia.
    + break_bind Hs. destruct a as [[m pos] syms]. break_bind Hs.
      injection Hs as <- _. apply site_rows_reach in E. lia.
  - unfold on_cell_parameters in Hs. break_bind Hs.
    destruct a as [[m cd] completed]. apply cell_rows_reach in E.
    destruct completed; [break_bind Hs|]; injection Hs as <- _; lia.
  - unfold on_atomic_positions in Hs. break_bind Hs. destruct a as [m pd].
    apply position_rows_reach in E.
    destruct (atomic_data st) as [a|]; [destruct (atoms_truthy (Some a))|];
      [break_bind Hs| |]; injection Hs as <- _; lia.
Qed.

Lemma for_range_trace (data : list string) (it : list nat) :
  forall st tr st',
    for_range (step data) it st = Ok (tr, st') ->
    map fst tr = it
    /\ forall n n', In (n, n') tr -> (n <= n' < List.length data)%nat.
Proof.
  induction it as [|n it IH]; intros st tr st' Hr.
  - cbn in Hr. injection Hr as <- _. split; [reflexivity | intros ? ? []].
  - apply for_range_cons in Hr. destruct Hr as [n1 [st1 [tr1 [Hs [Hr ->]]]]].
    destruct (IH _ _ _ Hr) as [Hfst Hin]. split.
    + cbn. now rewrite Hfst.
    + intros m m' [[= <- <-] | Hm].
      * eapply step_reach, Hs.
      * now apply Hin.
Qed.

(** C3 (amended): in a run that completes, the main dispatch examines
    every line of the file exactly once, in file order, whatever the block
    handlers read ahead.  A handler advances only its own copy of the
    index, and never past the last line; the next pass takes its index
    from the range again, so each line a handler consumed as lookahead is
    dispatched by the main loop as well. *)
Theorem main_loop_dispatch (data : list string) (st st' : state)
  (tr : list (nat * nat)) :
  main_loop data st = Ok (tr, st') ->
  map fst tr = seq 0 (List.length data)
  /\ NoDup (map fst tr)
  /\ (forall n n', In (n, n') tr -> (n <= n' < List.length data)%nat)
  /\ (forall n n' k, In (n, n') tr -> (n < k <= n')%nat -> In k (map fst tr)).
Proof.
  unfold main_loop. intros Hr. apply for_range_trace in Hr. destruct Hr as [Hfst Hin].
  split; [exact Hfst|]. split; [rewrite Hfst; apply seq_NoDup|]. split; [exact Hin|].
  intros n n' k Hn Hk. rewrite Hfst. apply in_seq.
  specialize (Hin _ _ Hn). lia.
Qed.

End Dispatch.

(** C3, as stated, fails: the site-table handler entered at line 5 reads
    lines 6 and 7 as lookahead, and the main loop dispatches lines 6 and 7
    again.  Line 6, already consumed as an atom row, is matched by the
    termination rule and sets the finished flag. *)
Lemma lookahead_lines_dispatched_again :
  exists r,
    @main_loop Exact.lib banner_row_log initial_state = Ok r
    /\ fst r = [(0, 0); (1, 1); (2, 2); (3, 3); (4, 4); (5, 7); (6, 6); (7, 7)]%nat
    /\ In 6%nat (map fst (fst r))
    /\ option_map symbols (atomic_data (snd r)) = Some ["H"]
    /\ map writes_finished banner_row_log
       = [false; false; false; false; false; false; true; false]
    /\ finished (st_info (snd r)) = 1.
Proof. run_parse. repeat split. simpl. tauto. Qed.

(** The dispatch of [structure_log]: nine lines, each examined once. *)
Lemma main_loop_dispatch_structure_log :
  exists tr st',
    @main_loop Exact.lib structure_log initial_state = Ok (tr, st')
    /\ map fst tr = seq 0 (List.length structure_log)
    /\ NoDup (map fst tr)
    /\ (forall n n', In (n, n') tr -> (n <= n' < List.length structure_log)%nat)
    /\ (forall n n' k, In (n, n') tr -> (n < k <= n')%nat -> In k (map fst tr)).
Proof.
  let v := eval vm_compute in (@main_loop Exact.lib structure_log initial_state) in
  match v with
  | Ok (?tr, ?st') =>
      exists tr, st'; split;
      [ reflexivity
      | apply (@main_loop_dispatch Exact.lib structure_log initial_state st' tr);
        reflexivity ]
  end.
Defined.

(** ** The CELL_PARAMETERS block *)

Lemma nth_error_set_nth_other {A} (l : list A) (i j : nat) (x : A) :
  i <> j -> nth_error (set_nth i x l) j = nth_error l j.
Proof.
  revert i j; induction l as [|y l IH]; intros [|i] [|j] Hij; cbn; try reflexivity.
  - contradiction.
  - apply IH. congruence.
Qed.

Lemma length_set_nth {A} (l : list A) (i : nat) (x : A) :
  List.length (set_nth i x l) = List.length l.
Proof.
  revert i; induction l as [|y l IH]; intros [|i]; cbn; try reflexivity.
  now rewrite IH.
Qed.

Section CellBlock.

Context {L : Lib}.

(** Assigning to row [i] leaves every other row, and the number of rows,
    as they were. *)
Lemma assign_row_other (v v' : pyseq) (i : nat) (vals : list num) :
  assign_row v i vals = Ok v' ->
  len v' = len v
  /\ forall j, i <> j -> nth_error (rows_of v') j = nth_error (rows_of v) j.
Proof.
  unfold assign_row, len. destruct (nth_error (rows_of v) i) as [row|]; [|discriminate].
  destruct v as [rows|rows|rows]; cbn [rows_of].
  - intros [= <-]. cbn [rows_of]. split; [apply length_set_nth|].
    intros j Hj. now apply nth_error_set_nth_other.
  - destruct (Nat.eqb _ _).
    + intros [= <-]. cbn [rows_of]. split; [apply length_set_nth|].
      intros j Hj. now apply nth_error_set_nth_other.
    + destruct vals as [|x [|y vals]]; try discriminate.
      intros [= <-]. cbn [rows_of]. split; [apply length_set_nth|].
      intros j Hj. now apply nth_error_set_nth_other.
  - intros [= <-]. cbn [rows_of]. split; [apply length_set_nth|].
    intros j Hj. now apply nth_error_set_nth_other.
Qed.

(** The loop over a block with fewer rows than it wants stops at the empty
    line: it reports the [break], has consumed the rows and the empty line,
    and has written the rows it read, and no other row. *)
Lemma cell_rows_short (rest : list string) :
  forall i todo n cd n' cd' completed,
    cell_rows rest i todo n cd = Ok (n', cd', completed) ->
    (leading_rows rest < todo)%nat ->
    completed = false
    /\ n' = (n + leading_rows rest + 1)%nat
    /\ len cd' = len cd
    /\ (forall j, (j < i \/ i + leading_rows rest <= j)%nat ->
          nth_error (rows_of cd') j = nth_error (rows_of cd) j)
    /\ (leading_rows rest = 0%nat -> cd' = cd).
Proof.
  induction rest as [|line rest IH]; intros i todo n cd n' cd' completed Hc Hk;
    (destruct todo as [|todo]; [cbn in Hk; lia|]); cbn [cell_rows] in Hc.
  - discriminate.
  - cbn [leading_rows] in *. unfold blank in *.
    destruct (Py.split_ws line) as [|t ts].
    + injection Hc as <- <- <-. repeat split; try reflexivity. lia.
    + break_bind Hc. apply IH in Hc; [|lia].
      destruct Hc as [Hb [Hn [Hlen [Hrows _]]]].
      destruct (assign_row_other _ _ _ _ E0) as [Hlen0 Hrows0].
      split; [exact Hb|]. split; [lia|]. split; [congruence|]. split; [|discriminate].
      intros j Hj. rewrite Hrows by lia. apply Hrows0. lia.
Qed.

(** C1 (amended): a CELL_PARAMETERS header followed by fewer than 3
    non-empty lines ([k] of them, then an empty line).  When the pass
    completes, the structure, and so the structure's cell, is the one from
    before the block, with [info], the positions, the symbols and the
    lattice scale; the handler has read the [k] rows and the empty line;
    the running cell matrix keeps its shape and its rows [k], [k+1], ...;
    when [k] is 0 the whole state is unchanged. *)
Theorem cell_parameters_short_block (data : list string) (n n' : nat)
  (cur_line : string) (st st' : state) :
  nth_error data n = Some cur_line ->
  rule_of cur_line = CellParameters ->
  (leading_rows (skipn (S n) data) < 3)%nat ->
  step data n st = Ok (n', st') ->
  atomic_data st' = atomic_data st
  /\ st_info st' = st_info st /\ pos_data st' = pos_data st
  /\ symbol_data st' = symbol_data st /\ alat st' = alat st
  /\ n' = (n + leading_rows (skipn (S n) data) + 1)%nat
  /\ len (cell_data st') = len (cell_data st)
  /\ (forall j, (leading_rows (skipn (S n) data) <= j)%nat ->
        nth_error (rows_of (cell_data st')) j = nth_error (rows_of (cell_data st)) j)
  /\ (leading_rows (skipn (S n) data) = 0%nat -> st' = st).
Proof.
  intros Hl Hrule Hshort. unfold step. rewrite Hl. cbn [or_raise bind]. rewrite Hrule.
  unfold on_cell_parameters. intros Hs. break_bind Hs.
  destruct a as [[m cd] completed].
  destruct (cell_rows_short _ _ _ _ _ _ _ _ E Hshort) as [-> [-> [Hlen [Hrows Hzero]]]].
  injection Hs as <- <-. cbn [with_cell atomic_data st_info pos_data symbol_data alat
    cell_data]. repeat split; try assumption.
  - intros j Hj. apply Hrows. right. lia.
  - intros Hk. rewrite (Hzero Hk). now destruct st.
Qed.

End CellBlock.

(** C1, as stated, fails for the running cell matrix: the block of
    [short_cell_log] has one row before its empty line, and the pass at its
    header (index 5) leaves the matrix with row 0 overwritten.  The site
    table that follows builds the structure's cell from that matrix. *)
Lemma cell_parameters_partial_write :
  exists before,
    @run_to Exact.lib short_cell_log 5 = Ok before
    /\ exists after,
         @step Exact.lib short_cell_log 5 (snd before) = Ok after
         /\ leading_rows (skipn 6 short_cell_log) = 1%nat
         /\ fst after = 7%nat
         /\ cell_data (snd before)
            = @NdArray Exact.lib [[q 1; q 0; q 0]; [q 0; q 1; q 0]; [q 0; q 0; q 1]]
         /\ cell_data (snd after)
            = @NdArray Exact.lib [[q 9; q 9; q 9]; [q 0; q 1; q 0]; [q 0; q 0; q 1]]
         /\ exists r,
              @__init__ Exact.lib "pw.out" short_cell_log (fun _ => false) = Ok r
              /\ map (fun a => map (map Qnum) (@cell Exact.lib a)) (structures r)
                 = [[[476259489603; 476259489603; 476259489603];
                     [0; 52917721067; 0]; [0; 0; 52917721067]]].
Proof.
  run_parse. run_parse. repeat (split; [reflexivity|]). run_parse. reflexivity.
Qed.

(** The one-row block of [short_cell_log]: the pass at its header keeps
    the structure and rows 1 and 2 of the running matrix. *)
Lemma cell_parameters_short_block_run :
  exists tr st,
    @run_to Exact.lib short_cell_log 5 = Ok (tr, st)
    /\ exists n' st',
         @step Exact.lib short_cell_log 5 st = Ok (n', st')
         /\ atomic_data st' = atomic_data st
         /\ nth_error (rows_of (cell_data st')) 1 = nth_error (rows_of (cell_data st)) 1
         /\ nth_error (rows_of (cell_data st')) 2 = nth_error (rows_of (cell_data st)) 2.
Proof.
  run_pair. run_pair.
  match goal with
  | |- atomic_data ?st' = atomic_data ?st /\ _ =>
      pose proof (@cell_parameters_short_block Exact.lib short_cell_log 5 7
                    ("CELL_PARAMETERS (alat= 10.00000000)" ++ nl) st st'
                    eq_refl eq_refl ltac:(vm_compute; repeat constructor) eq_refl)
        as [Ha [_ [_ [_ [_ [_ [_ [Hrows _]]]]]]]]
  end.
  split; [exact Ha|]. split; apply Hrows; vm_compute; repeat constructor.
Defined.

(** ** The site table *)

Lemma first_site_table_some (data : list string) (n : nat) :
  first_site_table data = Some n ->
  (exists header, nth_error data n = Some header /\ is_site_header header = true)
  /\ forall m line, (m < n)%nat -> nth_error data m = Some line ->
       is_site_header line = false.
Proof.
  revert n; induction data as [|l data IH]; intros n; cbn [first_site_table].
  - discriminate.
  - destruct (is_site_header l) eqn:Eh.
    + intros [= <-]. split; [now exists l | intros m line Hm; lia].
    + destruct (first_site_table data) as [n0|]; [|discriminate].
      intros [= <-]. destruct (IH n0 eq_refl) as [Hh Hbefore]. split; [exact Hh|].
      intros [|m] line Hm; cbn [nth_error].
      * now intros [= <-].
      * apply Hbefore. lia.
Qed.

Lemma first_site_table_none (data : list string) :
  first_site_table data = None ->
  forall m line, nth_error data m = Some line -> is_site_header line = false.
Proof.
  induction data as [|l data IH]; cbn [first_site_table]; intros Hn [|m] line;
    cbn [nth_error]; try discriminate;
    destruct (is_site_header l) eqn:Eh; try discriminate.
  - now intros [= <-].
  - destruct (first_site_table data); [discriminate|]. now apply IH.
Qed.

Section SiteTable.

Context {L : Lib}.

Lemma for_range_app (body : nat -> state -> res (nat * state)) (l1 l2 : list nat) :
  forall st tr st',
    for_range body (l1 ++ l2)%list st = Ok (tr, st') ->
    exists tr1 st1 tr2,
      for_range body l1 st = Ok (tr1, st1) /\ for_range body l2 st1 = Ok (tr2, st')
      /\ tr = (tr1 ++ tr2)%list.
Proof.
  induction l1 as [|n l1 IH]; intros st tr st' Hr.
  - exists [], st, tr. now repeat split.
  - cbn [app] in Hr. apply for_range_cons in Hr.
    destruct Hr as [n1 [st1 [tr1 [Hs [Hr ->]]]]].
    destruct (IH _ _ _ Hr) as [tra [sta [trb [Ha [Hb ->]]]]].
    exists ((n, n1) :: tra), sta, trb. cbn [for_range]. rewrite Hs. cbn [bind snd fst].
    rewrite Ha. cbn [bind fst snd]. now repeat split.
Qed.

(** A run that reaches index [k] has passed every index before it, and,
    when [k] is an index of the file, makes the pass at [k]. *)
Lemma run_to_prefix (data : list string) (k m : nat) (r : list (nat * nat) * state) :
  run_to data k = Ok r -> (m <= k)%nat -> exists tr st, run_to data m = Ok (tr, st).
Proof.
  unfold run_to. intros Hr Hm. destruct r as [tr st].
  replace k with (m + (k - m))%nat in Hr by lia. rewrite seq_app in Hr.
  apply for_range_app in Hr. destruct Hr as [tr1 [st1 [_ [Hr _]]]]. eauto.
Qed.

Lemma run_to_step (data : list string) (k : nat) (tr : list (nat * nat)) (st : state) :
  run_to data (S k) = Ok (tr, st) ->
  exists tr1 st1 n1,
    run_to data k = Ok (tr1, st1) /\ step data k st1 = Ok (n1, st).
Proof.
  unfold run_to. rewrite seq_S. cbn [Nat.add]. intros Hr. apply for_range_app in Hr.
  destruct Hr as [tr1 [st1 [tr2 [Ha [Hb _]]]]]. apply for_range_cons in Hb.
  destruct Hb as [n1 [st2 [tr3 [Hs [Hnil _]]]]]. cbn in Hnil. injection Hnil as _ <-.
  now exists tr1, st1, n1.
Qed.

(** *** What each handler leaves alone *)

Lemma new_Atoms_symbols (syms : list string) (pos cel : pyseq) (a : Atoms) :
  new_Atoms syms pos cel = Ok a ->
  symbols a = syms
  /\ exists p, is_nx3 pos = Some p /\ List.length p = List.length syms.
Proof.
  unfold new_Atoms. destruct (negb _); [discriminate|].
  destruct (is_3x3 cel) as [c|]; [|discriminate].
  destruct (is_nx3 pos) as [p|]; [|discriminate]. cbn [or_raise bind].
  destruct (Nat.eqb _ _) eqn:El; [|discriminate]. intros [= <-].
  split; [reflexivity|]. exists p. split; [reflexivity | now apply Nat.eqb_eq].
Qed.

Lemma set_cell_symbols (a a' : Atoms) (cel : pyseq) :
  set_cell a cel = Ok a' -> symbols a' = symbols a.
Proof. unfold set_cell. intros Hs. break_bind Hs. now injection Hs as <-. Qed.

Lemma set_positions_symbols (a a' : Atoms) (pos : pyseq) :
  set_positions a pos = Ok a' -> symbols a' = symbols a.
Proof.
  unfold set_positions. intros Hs. break_bind Hs.
  destruct (Nat.eqb _ _); [|discriminate]. now injection Hs as <-.
Qed.

Lemma set_scaled_positions_symbols (a a' : Atoms) (pos : pyseq) :
  set_scaled_positions a pos = Ok a' -> symbols a' = symbols a.
Proof.
  unfold set_scaled_positions. intros Hs. break_bind Hs.
  destruct (Nat.eqb _ _); [|discriminate]. now injection Hs as <-.
Qed.

Lemma position_rows_len (rest : list string) :
  forall i todo n pd n' pd',
    position_rows rest i todo n pd = Ok (n', pd') ->
    len pd' = len pd /\ (todo = 0%nat -> pd' = pd /\ n' = n).
Proof.
  induction rest as [|line rest IH]; intros i [|todo] n pd n' pd';
    cbn [position_rows]; try discriminate;
    try (intros [= <- <-]; split; [reflexivity | now split]).
  intros Hs. break_bind Hs. apply IH in Hs. destruct Hs as [Hlen _].
  apply assign_row_other in E0. destruct E0 as [Hlen0 _].
  split; [congruence | discriminate].
Qed.

(** The passes other than those of the three block handlers keep the
    structure, the positions and the symbols. *)
Lemma step_frame (data : list string) (n n' : nat) (st st' : state) (cur_line : string) :
  nth_error data n = Some cur_line ->
  step data n st = Ok (n', st') ->
  rule_of cur_line <> SiteTable -> rule_of cur_line <> CellParameters ->
  rule_of cur_line <> AtomicPositions ->
  atomic_data st' = atomic_data st /\ pos_data st' = pos_data st
  /\ symbol_data st' = symbol_data st.
Proof.
  intros Hl. unfold step. rewrite Hl. cbn [or_raise bind].
  destruct (rule_of cur_line); intros Hs H1 H2 H3; try congruence.
  - injection Hs as _ <-. repeat split.
  - injection Hs as _ <-. unfold on_program. repeat split.
  - break_bind Hs. injection Hs as _ <-. unfold on_celldm in E.
    destruct (truthy (alat st)); [injection E as <-; repeat split|].
    break_bind E. injection E as <-. repeat split.
  - break_bind Hs. injection Hs as _ <-. unfold on_crystal_axes in E.
    break_bind E. injection E as <-. repeat split.
  - break_bind Hs. injection Hs as _ <-. unfold on_total_energy in E.
    break_bind E. injection E as <-. repeat split.
  - injection Hs as _ <-. unfold on_exchange_correlation.
    destruct (str_truthy _); [repeat split|].
    destruct (xc_tokens cur_line) as [|k [|k2 rest]];
      [destruct (xc_matches _ _) | destruct (xc_lookup _ _) | destruct (xc_matches _ _)];
      repeat split.
  - break_bind Hs. injection Hs as _ <-. unfold on_timing in E.
    destruct (_ || _).
    + break_bind E. injection E as <-. repeat split.
    + injection E as <-. repeat split.
  - injection Hs as _ <-. repeat split.
Qed.

(** The CELL_PARAMETERS handler keeps the positions read and the symbols,
    and gives the structure, if it touches it, the symbols it had. *)
Lemma cell_parameters_frame (data : list string) (n n' : nat) (cur_line : string)
  (st st' : state) :
  on_cell_parameters data n cur_line st = Ok (n', st') ->
  pos_data st' = pos_data st /\ symbol_data st' = symbol_data st
  /\ symbols_of st' = symbols_of st
  /\ (atomic_data st = None -> atomic_data st' = None).
Proof.
  unfold on_cell_parameters, symbols_of. intros Hs. break_bind Hs.
  destruct a as [[m cd] completed]. destruct completed.
  - destruct (atomic_data st) as [x|]; [cbn [or_raise bind] in Hs | discriminate].
    break_bind Hs. injection Hs as _ <-. cbn.
    match goal with
    | H : set_cell _ _ = Ok _ |- _ => apply set_cell_symbols in H; rewrite H
    end.
    repeat split. discriminate.
  - injection Hs as _ <-. cbn. repeat split. tauto.
Qed.

(** The ATOMIC_POSITIONS handler keeps the symbols and the number of
    positions, and touches only a structure that has atoms. *)
Lemma atomic_positions_frame (data : list string) (n n' : nat) (cur_line : string)
  (st st' : state) :
  on_atomic_positions data n cur_line st = Ok (n', st') ->
  symbol_data st' = symbol_data st /\ len (pos_data st') = len (pos_data st)
  /\ (len (pos_data st) = 0%nat -> pos_data st' = pos_data st)
  /\ symbols_of st' = symbols_of st
  /\ (atoms_truthy (atomic_data st) = false -> atomic_data st' = atomic_data st).
Proof.
  unfold on_atomic_positions, symbols_of. intros Hs. break_bind Hs.
  destruct a as [m pd]. apply position_rows_len in E. destruct E as [Hlen Hzero].
  assert (Hpos : len (pos_data st) = 0%nat -> pd = pos_data st)
    by (intros Hz; now apply Hzero).
  destruct (atomic_data st) as [x|] eqn:Ea.
  - destruct (atoms_truthy (Some x)) eqn:Et.
    + destruct (if String.eqb _ "alat)" then _ else _) as [y|] eqn:Ey;
        [cbn [bind] in Hs | discriminate].
      injection Hs as _ <-. cbn.
      assert (Hsym : symbols y = symbols x).
      { repeat match type of Ey with
               | (if ?b then _ else _) = _ => destruct b
               end;
          try (break_bind Ey; now apply set_positions_symbols in Ey);
          first [ now apply set_positions_symbols in Ey
                | now apply set_scaled_positions_symbols in Ey ]. }
      rewrite Hsym. repeat split; try assumption. discriminate.
    + injection Hs as _ <-. cbn. rewrite Ea. repeat split; assumption.
  - injection Hs as _ <-. cbn. rewrite Ea. repeat split; assumption.
Qed.

(** *** The site-table handler *)

Lemma or_raise_ok {A} (e : exn) (o : option A) (a : A) :
  or_raise e o = Ok a -> o = Some a.
Proof. destruct o; cbn; congruence. Qed.

Lemma index_one (toks : list string) (raw : string) :
  Py.index toks 1 = Some raw -> nth 1 toks "" = raw.
Proof.
  unfold Py.index. cbn [Z.ltb Z.compare]. destruct (_ || _); [discriminate|].
  change (Z.to_nat 1) with 1%nat. intros Hn.
  destruct toks as [|t [|u toks]]; cbn [nth nth_error] in *; congruence.
Qed.

Lemma site_rows_labels (rest : list string) :
  forall n rows0 syms0 n' pos' syms',
    site_rows rest n (PyList rows0) syms0 = Ok (n', pos', syms') ->
    syms' = (syms0 ++ map normalize_label (table_labels rest))%list
    /\ exists rows, pos' = PyList (rows0 ++ rows)%list
                    /\ List.length rows = List.length (table_labels rest).
Proof.
  induction rest as [|line rest IH]; intros n rows0 syms0 n' pos' syms';
    cbn [site_rows table_labels]; [discriminate|].
  unfold blank. destruct (Py.split_ws line) as [|t ts] eqn:Et.
  - intros [= _ <- <-]. rewrite !app_nil_r. split; [reflexivity|].
    exists []. now rewrite app_nil_r.
  - intros Hs. break_bind Hs. apply or_raise_ok, index_one in E0. apply IH in Hs.
    destruct Hs as [-> [rows [-> Hlen]]]. cbn [map]. rewrite E0, <- !app_assoc.
    split; [reflexivity|]. exists (a :: rows). cbn. split; [reflexivity | now rewrite Hlen].
Qed.

Lemma times_len (v v' : pyseq) (a : pynum) :
  times v a = Ok v' ->
  match v with
  | NdArray rows => exists rows', v' = NdArray rows' /\ List.length rows' = List.length rows
  | _ => True
  end.
Proof.
  destruct v as [rows|rows|rows]; cbn; try tauto.
  intros [= <-]. eexists. split; [reflexivity | now rewrite length_map].
Qed.

Lemma is_nx3_array (v : pyseq) (p : matrix) :
  is_nx3 v = Some p -> v = NdArray p.
Proof.
  destruct v as [rows|rows|rows]; cbn; try discriminate.
  destruct (forallb _ rows); [|discriminate]. now intros [= ->].
Qed.

(** A site header met when positions are held is skipped: the pass changes
    nothing and reads no line. *)
Lemma site_table_skipped (data : list string) (n : nat) (st : state) :
  len (pos_data st) <> 0%nat -> on_site_table data n st = Ok (n, st).
Proof.
  intros Hlen. unfold on_site_table.
  destruct (Nat.eqb (len (pos_data st)) 0) eqn:E; [|reflexivity].
  apply Nat.eqb_eq in E. contradiction.
Qed.

(** The first site table: the structure gets the normalised labels of the
    rows, in the order of the rows, and as many positions are held. *)
Lemma site_table_first (data : list string) (n n' : nat) (st st' : state) :
  before_table st ->
  on_site_table data n st = Ok (n', st') ->
  symbols_of st' = Some (map normalize_label (table_labels (skipn (S n) data)))
  /\ symbol_data st' = map normalize_label (table_labels (skipn (S n) data))
  /\ exists p, pos_data st' = NdArray p
               /\ List.length p = List.length (table_labels (skipn (S n) data)).
Proof.
  intros [Ha [Hp Hs]]. unfold on_site_table, symbols_of. rewrite Hp, Hs. cbn [len rows_of
    List.length Nat.eqb negb]. intros Ht. break_bind Ht. destruct a as [[m pos] syms].
  break_bind Ht. injection Ht as _ <-. cbn.
  apply site_rows_labels in E. destruct E as [-> [rows [-> Hlen]]]. cbn [app] in *.
  apply new_Atoms_symbols in E2. destruct E2 as [Hsym [p [Hnx3 Hplen]]].
  apply is_nx3_array in Hnx3. subst a. rewrite Hsym. repeat split.
  exists p. split; [reflexivity|]. now rewrite Hplen, length_map.
Qed.

(** After a first table with no row, a further site header is handled
    again; it can only meet an empty table again. *)
Lemma site_table_empty (data : list string) (n n' : nat) (st st' : state) :
  empty_table st -> on_site_table data n st = Ok (n', st') -> empty_table st'.
Proof.
  intros [Ht [Hp Hs]]. unfold on_site_table, empty_table. rewrite Hp, Hs.
  cbn [len rows_of List.length Nat.eqb negb]. intros Hr. break_bind Hr.
  destruct a as [[m pos] syms]. break_bind Hr. injection Hr as _ <-. cbn.
  assert (Hrows : pos = NdArray [] /\ syms = []).
  { destruct (skipn (S n) data) as [|line rest]; cbn [site_rows] in E; [discriminate|].
    destruct (Py.split_ws line); [|discriminate]. injection E as _ <- <-. now split. }
  destruct Hrows as [-> ->]. cbn in E0. injection E0 as <-.
  apply new_Atoms_symbols in E2. destruct E2 as [Hsym _]. now rewrite Hsym.
Qed.

(** *** The stages are kept by every pass *)

Lemma rule_of_header (cur_line : string) :
  is_site_header cur_line = true <-> rule_of cur_line = SiteTable.
Proof.
  unfold is_site_header. destruct (rule_of cur_line); split; congruence.
Qed.

Lemma step_before_table (data : list string) (n n' : nat) (st st' : state)
  (cur_line : string) :
  nth_error data n = Some cur_line -> step data n st = Ok (n', st') ->
  before_table st -> is_site_header cur_line = false -> before_table st'.
Proof.
  intros Hl Hs [Ha [Hp Hy]] Hh.
  assert (Hnot : rule_of cur_line <> SiteTable)
    by (intros Hr; apply rule_of_header in Hr; congruence).
  destruct (rule_of cur_line) eqn:Er; try congruence;
    try (destruct (step_frame _ _ _ _ _ _ Hl Hs) as [F1 [F2 F3]];
         [congruence | congruence | congruence | unfold before_table; repeat split;
                                                 congruence]).
  - revert Hs. unfold step. rewrite Hl. cbn [or_raise bind]. rewrite Er. intros Hs.
    apply cell_parameters_frame in Hs. destruct Hs as [F1 [F2 [_ F4]]].
    unfold before_table. repeat split; [now apply F4 | congruence | congruence].
  - revert Hs. unfold step. rewrite Hl. cbn [or_raise bind]. rewrite Er. intros Hs.
    apply atomic_positions_frame in Hs. destruct Hs as [F1 [_ [F3 [_ F5]]]].
    unfold before_table. repeat split.
    + rewrite F5; [exact Ha | now rewrite Ha].
    + rewrite F3; [exact Hp | now rewrite Hp].
    + congruence.
Qed.

Lemma step_first_table (data : list string) (n n' : nat) (st st' : state)
  (cur_line : string) :
  nth_error data n = Some cur_line -> step data n st = Ok (n', st') ->
  before_table st -> is_site_header cur_line = true ->
  let syms := map normalize_label (table_labels (skipn (S n) data)) in
  (syms = [] /\ empty_table st') \/ has_table syms st'.
Proof.
  intros Hl Hs Hb Hh. apply rule_of_header in Hh. revert Hs. unfold step. rewrite Hl.
  cbn [or_raise bind]. rewrite Hh. intros Hs.
  destruct (site_table_first _ _ _ _ _ Hb Hs) as [Hsym [Hdata [p [Hpos Hlen]]]].
  cbn zeta. destruct (map normalize_label (table_labels (skipn (S n) data)))
    as [|s syms] eqn:Es.
  - left. split; [reflexivity|]. unfold empty_table, symbols_of in *.
    apply (f_equal (@List.length string)) in Es. rewrite length_map in Es.
    rewrite Es in Hlen. destruct p; [|discriminate].
    destruct (atomic_data st') as [a|]; [|discriminate]. injection Hsym as Hsym.
    cbn. rewrite Hsym. now repeat split.
  - right. unfold has_table. split; [exact Hsym|]. split; [discriminate|].
    rewrite Hpos. unfold len. cbn [rows_of]. rewrite Hlen.
    apply (f_equal (@List.length string)) in Es. rewrite length_map in Es.
    rewrite Es. discriminate.
Qed.

Lemma step_has_table (data : list string) (n n' : nat) (st st' : state)
  (cur_line : string) (syms : list string) :
  nth_error data n = Some cur_line -> step data n st = Ok (n', st') ->
  has_table syms st ->
  has_table syms st'
  /\ (rule_of cur_line = SiteTable -> n' = n /\ st' = st)
  /\ (rule_of cur_line <> CellParameters -> rule_of cur_line <> AtomicPositions ->
      atomic_data st' = atomic_data st).
Proof.
  intros Hl Hs [Hsym [Hne Hlen]].
  destruct (rule_of cur_line) eqn:Er;
    try (destruct (step_frame _ _ _ _ _ _ Hl Hs) as [F1 [F2 F3]];
         [congruence | congruence | congruence |];
         unfold has_table, symbols_of in *; rewrite F1, F2;
         repeat split; try assumption; congruence).
  - revert Hs. unfold step. rewrite Hl. cbn [or_raise bind]. rewrite Er.
    rewrite (site_table_skipped _ _ _ Hlen). intros [= <- <-].
    unfold has_table. repeat split; assumption.
  - revert Hs. unfold step. rewrite Hl. cbn [or_raise bind]. rewrite Er. intros Hs.
    apply cell_parameters_frame in Hs. destruct Hs as [F1 [F2 [F3 _]]].
    unfold has_table. rewrite F3, F1. repeat split; try assumption; congruence.
  - revert Hs. unfold step. rewrite Hl. cbn [or_raise bind]. rewrite Er. intros Hs.
    apply atomic_positions_frame in Hs. destruct Hs as [F1 [F2 [_ [F4 _]]]].
    unfold has_table. rewrite F4, F2. repeat split; try assumption; congruence.
Qed.

Lemma step_empty_table (data : list string) (n n' : nat) (st st' : state)
  (cur_line : string) :
  nth_error data n = Some cur_line -> step data n st = Ok (n', st') ->
  empty_table st -> empty_table st'.
Proof.
  intros Hl Hs [Ht [Hp Hy]].
  destruct (rule_of cur_line) eqn:Er;
    try (destruct (step_frame _ _ _ _ _ _ Hl Hs) as [F1 [F2 F3]];
         [congruence | congruence | congruence |];
         unfold empty_table; rewrite F1, F2, F3; now repeat split).
  - revert Hs. unfold step. rewrite Hl. cbn [or_raise bind]. rewrite Er.
    apply site_table_empty. now repeat split.
  - revert Hs. unfold step. rewrite Hl. cbn [or_raise bind]. rewrite Er. intros Hs.
    apply cell_parameters_frame in Hs. destruct Hs as [F1 [F2 [F3 _]]].
    unfold empty_table. rewrite F1, F2. repeat split; try assumption.
    unfold symbols_of in F3. destruct (atomic_data st') as [a'|]; [|reflexivity].
    destruct (atomic_data st) as [a|]; [|discriminate]. injection F3 as F3.
    cbn in *. now rewrite F3.
  - revert Hs. unfold step. rewrite Hl. cbn [or_raise bind]. rewrite Er. intros Hs.
    apply atomic_positions_frame in Hs. destruct Hs as [F1 [_ [F3 [_ F5]]]].
    unfold empty_table. rewrite (F5 Ht), F1. repeat split; try assumption.
    rewrite F3; [exact Hp | now rewrite Hp].
Qed.

Lemma run_stage (data : list string) (k : nat) :
  forall tr st, run_to data k = Ok (tr, st) -> stage data k st.
Proof.
  induction k as [|k IH]; intros tr st Hr.
  - cbn in Hr. injection Hr as _ <-. unfold stage.
    destruct (first_site_table data); cbn; unfold before_table; now repeat split.
  - apply run_to_step in Hr. destruct Hr as [tr1 [st1 [n1 [Hr Hs]]]].
    specialize (IH _ _ Hr). destruct (step_line _ _ _ _ Hs) as [cur_line Hl].
    unfold stage in *. destruct (first_site_table data) as [n0|] eqn:Ef.
    + destruct (first_site_table_some _ _ Ef) as [[header [Hh Hhead]] Hbefore].
      destruct (Nat.leb k n0) eqn:Ek.
      * apply Nat.leb_le in Ek. destruct (Nat.eq_dec k n0) as [-> | Hne].
        -- replace (Nat.leb (S n0) n0) with false by (symmetry; apply Nat.leb_gt; lia).
           assert (header = cur_line) by congruence. subst header.
           unfold first_table_symbols. rewrite Ef.
           apply (step_first_table _ _ _ _ _ _ Hl Hs IH Hhead).
        -- replace (Nat.leb (S k) n0) with true by (symmetry; apply Nat.leb_le; lia).
           apply (step_before_table _ _ _ _ _ _ Hl Hs IH).
           apply (Hbefore k); [lia | exact Hl].
      * apply Nat.leb_gt in Ek.
        replace (Nat.leb (S k) n0) with false by (symmetry; apply Nat.leb_gt; lia).
        destruct IH as [[He IH] | IH].
        -- left. split; [exact He|]. apply (step_empty_table _ _ _ _ _ _ Hl Hs IH).
        -- right. apply (step_has_table _ _ _ _ _ _ _ Hl Hs IH).
    + apply (step_before_table _ _ _ _ _ _ Hl Hs IH).
      apply (first_site_table_none _ Ef k). exact Hl.
Qed.

(** C6 (amended): when a completed parse yields a structure, it yields one,
    and the log's first site table has at least one row.  That table
    determines the structure's atoms: its symbols are the normalised labels
    of the table's rows, in their order.  At every later line the structure
    already holds these symbols and still holds them after the pass; a later
    site header is skipped entirely (the pass changes nothing and reads no
    line); and a pass of any rule other than CELL_PARAMETERS and
    ATOMIC_POSITIONS leaves the structure, cell and positions included, as
    it was. *)
Theorem first_site_table_determines (filename : string) (data : list string)
  (exists_ : string -> bool) (r : Output) (a : Atoms) :
  __init__ filename data exists_ = Ok r ->
  In a (structures r) ->
  structures r = [a]
  /\ symbols a = first_table_symbols data
  /\ symbols a <> []
  /\ exists n,
       first_site_table data = Some n
       /\ forall m cur_line,
            (n < m)%nat -> nth_error data m = Some cur_line ->
            exists tr st n' st',
              run_to data m = Ok (tr, st) /\ step data m st = Ok (n', st')
              /\ symbols_of st = Some (symbols a)
              /\ symbols_of st' = Some (symbols a)
              /\ (rule_of cur_line = SiteTable -> n' = m /\ st' = st)
              /\ (rule_of cur_line <> CellParameters ->
                  rule_of cur_line <> AtomicPositions ->
                  atomic_data st' = atomic_data st).
Proof.
  intros Hp Hin. apply parse_inv in Hp. destruct Hp as [tr [stf [Hm [_ [Hstruct _]]]]].
  change (main_loop data initial_state) with (run_to data (List.length data)) in Hm.
  pose proof (run_stage _ _ _ _ Hm) as Hstage.
  rewrite Hstruct in Hin |- *.
  destruct (atoms_truthy (atomic_data stf)) eqn:Et; [|destruct Hin].
  destruct (atomic_data stf) as [a0|] eqn:Ea; [|discriminate].
  destruct Hin as [<- | []]. split; [reflexivity|].
  unfold stage in Hstage. destruct (first_site_table data) as [n0|] eqn:Ef.
  2: { destruct Hstage as [Hnone _]. congruence. }
  destruct (first_site_table_some _ _ Ef) as [[header [Hh _]] _].
  assert (Hn0 : (n0 < List.length data)%nat) by (apply nth_error_Some; congruence).
  replace (Nat.leb (List.length data) n0) with false in Hstage
    by (symmetry; apply Nat.leb_gt; lia).
  destruct Hstage as [[_ [He _]] | [Hsym [Hne _]]]; [rewrite Ea in He; congruence|].
  unfold symbols_of in Hsym. rewrite Ea in Hsym. injection Hsym as Hsym.
  split; [exact Hsym|]. split; [now rewrite Hsym|].
  exists n0. split; [reflexivity|]. intros m cur_line Hlt Hl.
  assert (Hmlen : (m < List.length data)%nat) by (apply nth_error_Some; congruence).
  destruct (run_to_prefix _ _ (S m) _ Hm ltac:(lia)) as [tr' [st' Hr']].
  destruct (run_to_step _ _ _ _ Hr') as [trm [stm [n' [Hrm Hs]]]].
  pose proof (run_stage _ _ _ _ Hrm) as Hstm. unfold stage in Hstm. rewrite Ef in Hstm.
  replace (Nat.leb m n0) with false in Hstm by (symmetry; apply Nat.leb_gt; lia).
  destruct Hstm as [[He _] | Hstm]; [congruence|].
  destruct (step_has_table _ _ _ _ _ _ _ Hl Hs Hstm) as [[Hs1 _] [Hskip Hframe]].
  destruct Hstm as [Hs0 _].
  exists trm, stm, n', st'. rewrite Hsym. repeat split; try assumption.
  - now apply Hskip.
  - now apply Hskip.
Qed.

End SiteTable.

(** The structure of [structure_log] holds the symbols of its site table. *)
Lemma first_site_table_determines_structure_log :
  exists r a,
    @__init__ Exact.lib "pw.out" structure_log (fun _ => false) = Ok r
    /\ In a (structures r)
    /\ structures r = [a]
    /\ symbols a = @first_table_symbols Exact.lib structure_log
    /\ symbols a <> [].
Proof.
  let v := eval vm_compute in (@__init__ Exact.lib "pw.out" structure_log (fun _ => false)) in
  match v with
  | Ok ?r =>
      let s := eval vm_compute in (structures r) in
      match s with
      | [?a] =>
          exists r, a;
          pose proof (@first_site_table_determines Exact.lib "pw.out" structure_log
                        (fun _ => false) r a eq_refl (or_introl eq_refl))
            as [H1 [H2 [H3 _]]];
          split; [reflexivity|]; split; [left; reflexivity|];
          split; [exact H1|]; split; [exact H2 | exact H3]
      end
  end.
Defined.

Example first_table_symbols_structure_log :
  @first_table_symbols Exact.lib structure_log = ["Fe"]
  /\ first_site_table structure_log = Some 6%nat.
Proof. split; reflexivity. Qed.

(** C6, as stated, fails when the first site table has no row: no
    positions are held after it, so the second site header (index 7) is
    not skipped.  Its pass reads the next line and builds the structure
    anew, here with another cell; the structure has no atoms and is not
    attached to the record. *)
Lemma second_site_header_not_skipped :
  exists tr st,
    @run_to Exact.lib empty_table_log 7 = Ok (tr, st)
    /\ exists n' st',
         @step Exact.lib empty_table_log 7 st = Ok (n', st')
         /\ first_site_table empty_table_log = Some 4%nat
         /\ option_map rule_of (nth_error empty_table_log 7) = Some SiteTable
         /\ n' = 8%nat
         /\ option_map (fun a => (symbols a, map (map Qnum) (@cell Exact.lib a)))
              (atomic_data st)
            = Some ([], [[0; 0; 0]; [0; 0; 0]; [0; 0; 0]])
         /\ option_map (fun a => (symbols a, map (map Qnum) (@cell Exact.lib a)))
              (atomic_data st')
            = Some ([], [[52917721067; 0; 0]; [0; 52917721067; 0]; [0; 0; 52917721067]])
         /\ exists r,
              @__init__ Exact.lib "pw.out" empty_table_log (fun _ => false) = Ok r
              /\ structures r = [].
Proof.
  run_pair. run_pair. repeat (split; [reflexivity|]). run_parse. reflexivity.
Qed.

(** * Further properties of the parser *)

(** ** The format detector on a larger sample *)

Lemma occurs_embed (p s a b : string) : occurs p s -> occurs p (a ++ s ++ b).
Proof.
  intros [x [y ->]]. exists (a ++ x), (y ++ b).
  now rewrite !append_assoc.
Qed.

(** X1: the detector only looks for substrings, so it is monotone: a
    sample that holds an accepted sample as a block of consecutive bytes,
    with any text before and after it, is accepted too. *)
Theorem fingerprints_embedded (a s b : string) :
  fingerprints s = true -> fingerprints (a ++ s ++ b) = true.
Proof.
  unfold fingerprints. intros Hs.
  destruct ((Py.contains s "pwscf" || Py.contains s "PWSCF")
            && Py.contains s "     Current dimensions of program ") eqn:E;
    [clear Hs | discriminate Hs].
  apply andb_true_iff in E. destruct E as [Ht Hm].
  assert (Hm' : Py.contains (a ++ s ++ b) "     Current dimensions of program " = true)
    by (apply contains_spec, occurs_embed, contains_spec, Hm).
  rewrite Hm', andb_true_r.
  apply orb_true_iff in Ht.
  destruct Ht as [Ht | Ht]; apply contains_spec in Ht;
    apply (occurs_embed _ _ a b), contains_spec in Ht; rewrite Ht;
    [reflexivity | now rewrite orb_true_r].
Qed.

(** A log header is accepted, and so is a copy of it inside a larger text. *)
Lemma fingerprints_embedded_header :
  fingerprints ("     Program PWSCF v.6.1" ++ nl ++ program_marker) = true
  /\ fingerprints ("# copy of the log" ++ nl
                   ++ ("     Program PWSCF v.6.1" ++ nl ++ program_marker)
                   ++ "65" ++ nl) = true.
Proof.
  split; [reflexivity|].
  apply (fingerprints_embedded ("# copy of the log" ++ nl)
           ("     Program PWSCF v.6.1" ++ nl ++ program_marker) ("65" ++ nl)).
  reflexivity.
Defined.

(** ** Labels made of a symbol and a tag *)

Lemma lstrip_by_all (f : ascii -> bool) (d : string) :
  forallb f (list_ascii_of_string d) = true -> Py.lstrip_by f d = "".
Proof.
  induction d as [|c d IH]; cbn [Py.lstrip_by list_ascii_of_string forallb];
    [reflexivity|].
  intros Hd. apply andb_true_iff in Hd. destruct Hd as [Hc Hd].
  rewrite Hc. now apply IH.
Qed.

Lemma lstrip_by_app_all (f : ascii -> bool) (d s : string) :
  forallb f (list_ascii_of_string d) = true ->
  Py.lstrip_by f (d ++ s) = Py.lstrip_by f s.
Proof.
  induction d as [|c d IH]; cbn [Py.lstrip_by list_ascii_of_string forallb append];
    [reflexivity|].
  intros Hd. apply andb_true_iff in Hd. destruct Hd as [Hc Hd].
  rewrite Hc. now apply IH.
Qed.

Lemma rstrip_by_all (f : ascii -> bool) (d : string) :
  forallb f (list_ascii_of_string d) = true -> Py.rstrip_by f d = "".
Proof.
  induction d as [|c d IH]; cbn [Py.rstrip_by list_ascii_of_string forallb];
    [reflexivity|].
  intros Hd. apply andb_true_iff in Hd. destruct Hd as [Hc Hd].
  rewrite (IH Hd), Hc. reflexivity.
Qed.

Lemma rstrip_by_app_all (f : ascii -> bool) (s d : string) :
  forallb f (list_ascii_of_string d) = true ->
  Py.rstrip_by f (s ++ d) = Py.rstrip_by f s.
Proof.
  intros Hd. induction s as [|c s IH]; cbn [Py.rstrip_by append].
  - now apply rstrip_by_all.
  - now rewrite IH.
Qed.

(** A suffix that keeps a byte after stripping protects what precedes it. *)
Lemma rstrip_by_app_kept (f : ascii -> bool) (s t : string) :
  Py.rstrip_by f t <> "" -> Py.rstrip_by f (s ++ t) = s ++ Py.rstrip_by f t.
Proof.
  intros Ht. induction s as [|c s IH]; cbn [Py.rstrip_by append]; [reflexivity|].
  rewrite IH. destruct (s ++ Py.rstrip_by f t) eqn:E; [|reflexivity].
  destruct s; [|discriminate E]. cbn [append] in E. contradiction.
Qed.

Lemma rstrip_by_cons_kept (f : ascii -> bool) (c : ascii) (t : string) :
  f c = false -> Py.rstrip_by f (String c t) = String c (Py.rstrip_by f t).
Proof.
  intros Hc. cbn [Py.rstrip_by]. rewrite Hc.
  destruct (Py.rstrip_by f t); reflexivity.
Qed.

Lemma append_length (a b : string) :
  String.length (a ++ b) = (String.length a + String.length b)%nat.
Proof. induction a as [|c a IH]; cbn [append String.length]; [reflexivity | now rewrite IH]. Qed.

Lemma append_self_nil (a s b : string) : s = a ++ s ++ b -> a = "" /\ b = "".
Proof.
  intros E. apply (f_equal String.length) in E. rewrite !append_length in E.
  destruct a; [|cbn [String.length] in E; lia].
  destruct b; [|cbn [String.length] in E; lia].
  now split.
Qed.

(** A string that [strip] leaves alone is left alone at both ends. *)
Lemma strip_by_fixed (f : ascii -> bool) (s : string) :
  Py.strip_by f s = s -> Py.lstrip_by f s = s /\ Py.rstrip_by f s = s.
Proof.
  unfold Py.strip_by. intros E.
  destruct (lstrip_by_suffix f s) as [a Ha].
  destruct (rstrip_by_prefix f (Py.lstrip_by f s)) as [b Hb].
  rewrite E in Hb. rewrite Hb in Ha.
  destruct (append_self_nil a s b Ha) as [-> ->].
  rewrite append_nil_r in Hb. rewrite Hb in E. now split.
Qed.

Lemma lstrip_by_fixed_app (f : ascii -> bool) (s t : string) :
  s <> "" -> Py.lstrip_by f s = s -> Py.lstrip_by f (s ++ t) = s ++ t.
Proof.
  destruct s as [|c s]; [contradiction|]. intros _.
  cbn [Py.lstrip_by append]. destruct (f c) eqn:Hc; [|reflexivity].
  intros E. destruct (lstrip_by_suffix f s) as [a Ha].
  apply (f_equal String.length) in E. apply (f_equal String.length) in Ha.
  rewrite append_length in Ha. cbn [String.length] in E. lia.
Qed.

Lemma before_underscore_absent (s : string) :
  Py.contains s "_" = false -> before_underscore s = s.
Proof.
  induction s as [|c s IH]; [reflexivity|].
  cbn [Py.contains Py.startswith before_underscore].
  rewrite andb_true_r. intros Hc. apply orb_false_iff in Hc. destruct Hc as [Hc Hs].
  rewrite Ascii.eqb_sym, Hc. now rewrite IH.
Qed.

Lemma before_underscore_app (s t : string) :
  Py.contains s "_" = false -> before_underscore (s ++ String "_"%char t) = s.
Proof.
  induction s as [|c s IH]; [reflexivity|].
  cbn [Py.contains Py.startswith before_underscore append].
  rewrite andb_true_r. intros Hc. apply orb_false_iff in Hc. destruct Hc as [Hc Hs].
  rewrite Ascii.eqb_sym, Hc. now rewrite IH.
Qed.

Section Labels.

Context {L : Lib}.

Lemma normalize_label_symbol (raw s : string) :
  hd "" (Py.split (Py.strip_chars raw "0123456789") "_") = s ->
  Py.mem_str s chemical_symbols = true -> normalize_label raw = s.
Proof.
  unfold normalize_label. intros -> ->. reflexivity.
Qed.

(** X2: a label made of a chemical symbol with digits before and after it
    (an atom number), or followed by an underscore and any tag, is stored
    as the symbol.  The symbol is one of ASE's table that neither starts
    nor ends with a digit and holds no underscore. *)
Theorem normalize_label_tagged (s d1 d2 t : string) :
  Py.mem_str s chemical_symbols = true ->
  Py.strip_chars s "0123456789" = s ->
  Py.contains s "_" = false ->
  forallb Py.is_digit (list_ascii_of_string d1) = true ->
  forallb Py.is_digit (list_ascii_of_string d2) = true ->
  normalize_label (d1 ++ s ++ d2) = s
  /\ normalize_label (d1 ++ s ++ "_" ++ t) = s.
Proof.
  intros Hmem Hfix Hund Hd1 Hd2.
  assert (Hfix' : Py.strip_by Py.is_digit s = s).
  { unfold Py.strip_chars, Py.strip_by in *.
    rewrite <- (lstrip_by_ext _ _ s mem_char_digits).
    rewrite <- (rstrip_by_ext _ _ _ mem_char_digits). exact Hfix. }
  destruct (strip_by_fixed _ _ Hfix') as [Hl Hr].
  split; apply normalize_label_symbol; try exact Hmem;
    unfold Py.strip_chars, Py.strip_by;
    rewrite (lstrip_by_ext _ _ _ mem_char_digits),
            (rstrip_by_ext _ _ _ mem_char_digits);
    rewrite (lstrip_by_app_all _ _ _ Hd1);
    unfold Py.split; rewrite split_underscore_hd; cbn [rev string_of_list_ascii];
    match goal with |- "" ++ ?x = _ => change ("" ++ x) with x end.
  - destruct s as [|c s'] eqn:Es.
    + cbn [append]. rewrite (lstrip_by_all _ _ Hd2). reflexivity.
    + rewrite <- Es in *. rewrite lstrip_by_fixed_app; [|subst; discriminate | exact Hl].
      rewrite (rstrip_by_app_all _ _ _ Hd2), Hr.
      now apply before_underscore_absent.
  - assert (Hk : Py.rstrip_by Py.is_digit ("_" ++ t) <> "").
    { change ("_" ++ t) with (String "_"%char t).
      rewrite rstrip_by_cons_kept by reflexivity. discriminate. }
    assert (Hlt : Py.lstrip_by Py.is_digit (s ++ "_" ++ t) = s ++ "_" ++ t).
    { destruct s as [|c s'] eqn:Es; [reflexivity|].
      rewrite <- Es in *. apply lstrip_by_fixed_app; [subst; discriminate | exact Hl]. }
    rewrite Hlt, (rstrip_by_app_kept _ _ _ Hk).
    change ("_" ++ t) with (String "_"%char t).
    rewrite rstrip_by_cons_kept by reflexivity.
    now apply before_underscore_app.
Qed.

End Labels.

(** Iron, numbered and tagged. *)
Lemma normalize_label_tagged_Fe :
  @normalize_label Exact.lib ("12" ++ "Fe" ++ "3") = "Fe"
  /\ @normalize_label Exact.lib ("12" ++ "Fe" ++ "_" ++ "up1") = "Fe".
Proof.
  apply (@normalize_label_tagged Exact.lib "Fe" "12" "3" "up1"); reflexivity.
Defined.

(** ** The functional table, looked up from a log *)

Section FunctionalTable.

Context {L : Lib}.

(** X3: every key of the table, printed as the descriptor of an
    exchange-correlation line, is mapped to the name and the tags of its own
    entry (the direct lookup of lines 152-154). *)
Theorem xc_key_roundtrip (k : string) (e : xc_entry) :
  In (k, e) xc_internal_map ->
  functional_of [xc_line k] = Some (Some (xc_name e), xc_type e).
Proof.
  intros Hk.
  assert (C : forallb (fun ke => functional_eqb (functional_of [xc_line (fst ke)]) (snd ke))
                      xc_internal_map = true)
    by (vm_compute; reflexivity).
  rewrite forallb_forall in C. specialize (C _ Hk). cbn [fst snd] in C.
  unfold functional_eqb in C.
  destruct (functional_of [xc_line k]) as [[[name|] types]|]; try discriminate.
  apply andb_true_iff in C. destruct C as [C1 C2].
  apply String.eqb_eq in C1. subst name.
  apply strings_eqb_eq in C2. now subst.
Qed.

End FunctionalTable.

(** The key [b3lyp]. *)
Lemma xc_key_roundtrip_b3lyp :
  In ("b3lyp", mk_xc "B3LYP" ["GGA"; "hybrid"] ["b3lp+vwn+b3lp+b3lp"]) xc_internal_map
  /\ @functional_of Exact.lib [xc_line "b3lyp"] = Some (Some "B3LYP", ["GGA"; "hybrid"]).
Proof.
  assert (Hin : In ("b3lyp", mk_xc "B3LYP" ["GGA"; "hybrid"] ["b3lp+vwn+b3lp+b3lp"])
                   xc_internal_map)
    by (unfold xc_internal_map; repeat (first [left; reflexivity | right])).
  split; [exact Hin|].
  exact (@xc_key_roundtrip Exact.lib "b3lyp"
           (mk_xc "B3LYP" ["GGA"; "hybrid"] ["b3lp+vwn+b3lp+b3lp"]) Hin).
Defined.

(** The second setup string of [pbe]. *)
Lemma xc_setup_roundtrip_pbe :
  In ("pbe", mk_xc "PBE" ["GGA"] ["sla+pw+pbx+pbc"; "sla+pw+pbe+pbe"]) xc_internal_map
  /\ @functional_of Exact.lib [xc_line "sla+pw+pbe+pbe"] = Some (Some "PBE", ["GGA"]).
Proof.
  assert (Hin : In ("pbe", mk_xc "PBE" ["GGA"] ["sla+pw+pbx+pbc"; "sla+pw+pbe+pbe"])
                   xc_internal_map)
    by (unfold xc_internal_map; repeat (first [left; reflexivity | right])).
  split; [exact Hin|].
  apply (@xc_setup_roundtrip Exact.lib "pbe"
           (mk_xc "PBE" ["GGA"] ["sla+pw+pbx+pbc"; "sla+pw+pbe+pbe"]) "sla+pw+pbe+pbe" Hin).
  - right. left. reflexivity.
  - discriminate.
Defined.

(** ** What the record keeps of several lines of one kind *)

Lemma last_where_in (f : string -> bool) (data : list string) (l : string) :
  last_where f data = Some l -> In l data /\ f l = true.
Proof.
  induction data as [|x data IH]; cbn [last_where]; [discriminate|].
  destruct (last_where f data) as [l'|].
  - intros [= ->]. destruct (IH eq_refl) as [Hin Hf]. split; [now right | exact Hf].
  - destruct (f x) eqn:Hx; [|discriminate].
    intros [= ->]. split; [now left | exact Hx].
Qed.

Lemma last_where_none (f : string -> bool) (data : list string) :
  last_where f data = None -> existsb f data = false.
Proof.
  induction data as [|x data IH]; cbn [last_where existsb]; [reflexivity|].
  destruct (last_where f data) as [l'|]; [discriminate|].
  destruct (f x); [discriminate|]. intros _. now rewrite IH.
Qed.

Section LastWins.

Context {L : Lib} {A : Type}.

Variable proj : Info -> option A.
Variable f : string -> bool.
Variable val : Info -> string -> option A.
Variable inv : Info -> Prop.
Variable data : list string.

Hypothesis pass :
  forall n n' st st' cur_line,
    nth_error data n = Some cur_line -> step data n st = Ok (n', st') ->
    inv (st_info st) ->
    inv (st_info st')
    /\ proj (st_info st') = if f cur_line then val (st_info st) cur_line
                            else proj (st_info st).

Hypothesis val_inv : forall i i' l, inv i -> inv i' -> val i l = val i' l.

(** A field that each line of one kind overwrites holds, at the end of
    the scan, the value of the last such line. *)
Lemma scan_last_where (m : nat) :
  forall k st tr st',
    for_range (step data) (seq k m) st = Ok (tr, st') ->
    (k + m = List.length data)%nat ->
    inv (st_info st) ->
    inv (st_info st')
    /\ proj (st_info st') = match last_where f (skipn k data) with
                            | Some l => val (st_info st) l
                            | None => proj (st_info st)
                            end.
Proof.
  induction m as [|m IH]; intros k st tr st' Hr Hk Hi.
  - cbn in Hr. injection Hr as _ <-.
    rewrite skipn_all2 by lia. now split.
  - cbn [seq] in Hr. apply for_range_cons in Hr.
    destruct Hr as [n1 [st1 [tr1 [Hs [Hr _]]]]].
    destruct (step_line _ _ _ _ Hs) as [cur_line Hl].
    rewrite (nth_error_skipn_cons _ _ _ Hl). cbn [last_where].
    destruct (pass _ _ _ _ _ Hl Hs Hi) as [Hi1 Hp].
    destruct (IH _ _ _ _ Hr ltac:(lia) Hi1) as [Hi' Hp'].
    split; [exact Hi'|]. rewrite Hp'.
    destruct (last_where f (skipn (S k) data)) as [l|].
    + now apply val_inv.
    + rewrite Hp. destruct (f cur_line); reflexivity.
Qed.

End LastWins.

Section Fields.

Context {L : Lib}.

(** A pass that completes at a line of the log: the run reaches every
    line when it completes. *)
Lemma main_loop_reaches (data : list string) (tr : list (nat * nat)) (st : state)
  (n : nat) (cur_line : string) :
  main_loop data initial_state = Ok (tr, st) ->
  nth_error data n = Some cur_line ->
  exists tr1 st1 n1 st2,
    run_to data n = Ok (tr1, st1) /\ step data n st1 = Ok (n1, st2).
Proof.
  intros Hm Hl.
  assert (Hn : (n < List.length data)%nat)
    by (apply nth_error_Some; rewrite Hl; discriminate).
  change (run_to data (List.length data) = Ok (tr, st)) in Hm.
  destruct (run_to_prefix _ _ (S n) _ Hm ltac:(lia)) as [tr2 [st2 Hr]].
  destruct (run_to_step _ _ _ _ Hr) as [tr1 [st1 [n1 [Hr1 Hs]]]].
  now exists tr1, st1, n1, st2.
Qed.

(** *** The total energy *)

Lemma step_energy (data : list string) (n n' : nat) (st st' : state) (cur_line : string) :
  nth_error data n = Some cur_line -> step data n st = Ok (n', st') ->
  energy (st_info st')
  = if is_energy_line cur_line then energy_of_line cur_line else energy (st_info st).
Proof.
  intros Hl Hs. pose proof (step_info _ _ _ _ _ _ Hl Hs) as Hi.
  unfold info_step in Hi. unfold is_energy_line.
  unfold step in Hs. rewrite Hl in Hs. cbn [or_raise bind] in Hs.
  destruct (rule_of cur_line); try (rewrite Hi; reflexivity).
  - destruct Hi as [v ->]. reflexivity.
  - break_bind Hs. injection Hs as _ <-. unfold on_total_energy in E.
    unfold energy_of_line.
    destruct (Py.index (Py.split_ws cur_line) (-2)) as [tok|]; [|discriminate E].
    cbn [or_raise bind] in E.
    destruct (float tok) as [x|]; [|discriminate E].
    cbn [or_raise bind] in E. injection E as <-. reflexivity.
  - destruct Hi as [-> | [v [t ->]]]; reflexivity.
  - destruct (wall cur_line); [destruct Hi as [h ->] | rewrite Hi]; reflexivity.
Qed.

(** X5: the energy of the record is that of the last total-energy line
    of the log, in eV; a log without such a line leaves it unset.  When the
    parse completes, the last but one token of every total-energy line is a
    number. *)
Theorem energy_last_line (filename : string) (data : list string)
  (exists_ : string -> bool) (r : Output) :
  __init__ filename data exists_ = Ok r ->
  energy (info r) = match last_where is_energy_line data with
                    | Some l => energy_of_line l
                    | None => None
                    end
  /\ forall l, In l data -> is_energy_line l = true ->
       exists x, energy_of_line l = Some x.
Proof.
  intros Hp. apply parse_inv in Hp. destruct Hp as [tr [st [Hm [Hi _]]]].
  split.
  - rewrite Hi. unfold main_loop in Hm.
    destruct (scan_last_where energy is_energy_line (fun _ => energy_of_line)
                (fun _ => True) data) with (m := List.length data) (k := 0%nat)
                (st := initial_state) (tr := tr) (st' := st) as [_ He]; try easy.
    intros n n' st0 st0' cur_line Hl Hs _. split; [exact I|].
    now apply (step_energy data n n').
  - intros l Hin Hl. apply In_nth_error in Hin. destruct Hin as [n Hn].
    destruct (main_loop_reaches _ _ _ _ _ Hm Hn) as [tr1 [st1 [n1 [st2 [_ Hs]]]]].
    pose proof (step_energy _ _ _ _ _ _ Hn Hs) as He. rewrite Hl in He.
    unfold step in Hs. rewrite Hn in Hs. cbn [or_raise bind] in Hs.
    unfold is_energy_line in Hl.
    destruct (rule_of l); try discriminate Hl.
    break_bind Hs. unfold on_total_energy in E. unfold energy_of_line.
    destruct (Py.index (Py.split_ws l) (-2)) as [tok|]; [|discriminate E].
    cbn [or_raise bind] in E.
    destruct (float tok) as [x|]; [|discriminate E]. cbn [option_map]. eauto.
Qed.

(** *** The duration *)

Lemma is_wall_banner_writes (cur_line : string) :
  is_wall_banner cur_line = true -> writes_finished cur_line = true.
Proof.
  unfold is_wall_banner, writes_finished. destruct (rule_of cur_line); easy.
Qed.

Lemma step_duration (data : list string) (n n' : nat) (st st' : state)
  (cur_line : string) :
  nth_error data n = Some cur_line -> step data n st = Ok (n', st') ->
  duration (st_info st')
  = if is_wall_banner cur_line then duration_of_line cur_line
    else duration (st_info st).
Proof.
  intros Hl Hs. pose proof (step_info _ _ _ _ _ _ Hl Hs) as Hi.
  unfold info_step in Hi. unfold is_wall_banner.
  unfold step in Hs. rewrite Hl in Hs. cbn [or_raise bind] in Hs.
  destruct (rule_of cur_line); try (rewrite Hi; reflexivity).
  - destruct Hi as [v ->]. reflexivity.
  - destruct Hi as [x ->]. reflexivity.
  - destruct Hi as [-> | [v [t ->]]]; reflexivity.
  - break_bind Hs. injection Hs as _ <-. unfold on_timing in E.
    fold (wall cur_line) in E. unfold duration_of_line.
    destruct (wall cur_line); [|now injection E as <-].
    destruct (strptime_hours _ _) as [h|]; [|discriminate E].
    cbn [or_raise bind] in E. injection E as <-. reflexivity.
Qed.

(** X6: the duration of the record is that of the last timing banner
    that names the wall clock; a timing banner without the wall clock does
    not touch it, and a log without such a banner leaves it unset.  A record
    with a duration is a finished one. *)
Theorem duration_last_wall_banner (filename : string) (data : list string)
  (exists_ : string -> bool) (r : Output) :
  __init__ filename data exists_ = Ok r ->
  duration (info r) = match last_where is_wall_banner data with
                      | Some l => duration_of_line l
                      | None => None
                      end
  /\ (forall h, duration (info r) = Some h -> finished (info r) = 1).
Proof.
  intros Hp. apply parse_inv in Hp. destruct Hp as [tr [st [Hm [Hi _]]]].
  assert (Hd : duration (info r) = match last_where is_wall_banner data with
                                   | Some l => duration_of_line l
                                   | None => None
                                   end).
  { rewrite Hi. unfold main_loop in Hm.
    destruct (scan_last_where duration is_wall_banner (fun _ => duration_of_line)
                (fun _ => True) data) with (m := List.length data) (k := 0%nat)
                (st := initial_state) (tr := tr) (st' := st) as [_ He]; try easy.
    intros n n' st0 st0' cur_line Hl Hs _. split; [exact I|].
    now apply (step_duration data n n'). }
  split; [exact Hd|].
  intros h Hh. rewrite Hd in Hh.
  destruct (last_where is_wall_banner data) as [l|] eqn:El; [|discriminate Hh].
  apply last_where_in in El. destruct El as [Hin Hw].
  rewrite Hi. unfold main_loop in Hm.
  rewrite (scan_finished data _ 0 _ _ _ Hm) by lia. cbn [skipn].
  assert (Hex : existsb writes_finished data = true)
    by (apply existsb_exists; exists l; split; [exact Hin | now apply is_wall_banner_writes]).
  now rewrite Hex.
Qed.

(** *** The program version *)

Lemma step_prog (data : list string) (n n' : nat) (st st' : state) (cur_line : string) :
  nth_error data n = Some cur_line -> step data n st = Ok (n', st') ->
  framework (st_info st') = framework (st_info st)
  /\ prog (st_info st')
     = if is_program_line cur_line
       then Some (framework (st_info st) ++ " " ++ version_of_line cur_line)
       else prog (st_info st).
Proof.
  intros Hl Hs. pose proof (step_info _ _ _ _ _ _ Hl Hs) as Hi.
  unfold info_step in Hi. unfold is_program_line.
  unfold step in Hs. rewrite Hl in Hs. cbn [or_raise bind] in Hs.
  destruct (rule_of cur_line); try (rewrite Hi; split; reflexivity).
  - injection Hs as _ <-. split; reflexivity.
  - destruct Hi as [x ->]. split; reflexivity.
  - destruct Hi as [-> | [v [t ->]]]; split; reflexivity.
  - destruct (wall cur_line); [destruct Hi as [h ->] | rewrite Hi]; split; reflexivity.
Qed.

(** X7: the framework of the record is the constant of line 26, and its
    program entry is that constant followed by the version of the last
    program banner of the log; a log without a banner leaves it unset. *)
Theorem prog_last_banner (filename : string) (data : list string)
  (exists_ : string -> bool) (r : Output) :
  __init__ filename data exists_ = Ok r ->
  framework (info r) = "Quantum ESPRESSO"
  /\ prog (info r) = match last_where is_program_line data with
                     | Some l => Some ("Quantum ESPRESSO " ++ version_of_line l)
                     | None => None
                     end.
Proof.
  intros Hp. apply parse_inv in Hp. destruct Hp as [tr [st [Hm [Hi _]]]].
  rewrite Hi. unfold main_loop in Hm.
  assert (Hpass : forall n n' st0 st0' cur_line,
             nth_error data n = Some cur_line -> step data n st0 = Ok (n', st0') ->
             framework (st_info st0) = "Quantum ESPRESSO" ->
             framework (st_info st0') = "Quantum ESPRESSO"
             /\ prog (st_info st0')
                = if is_program_line cur_line
                  then Some (framework (st_info st0) ++ " " ++ version_of_line cur_line)
                  else prog (st_info st0)).
  { intros n n' st0 st0' cur_line Hl Hs Hf.
    destruct (step_prog _ _ _ _ _ _ Hl Hs) as [Hf' Hp]. split; [congruence | exact Hp]. }
  assert (Hval : forall (i i' : Info) (l : string),
             framework i = "Quantum ESPRESSO" -> framework i' = "Quantum ESPRESSO" ->
             Some (framework i ++ " " ++ version_of_line l)
             = Some (framework i' ++ " " ++ version_of_line l))
    by (intros i i' l -> ->; reflexivity).
  destruct (scan_last_where prog is_program_line
              (fun i l => Some (framework i ++ " " ++ version_of_line l))
              (fun i => framework i = "Quantum ESPRESSO") data Hpass Hval
              (List.length data) 0%nat initial_state tr st Hm eq_refl eq_refl)
    as [Hf He].
  split; [exact Hf|]. rewrite He. cbn [skipn].
  destruct (last_where is_program_line data); reflexivity.
Qed.

(** *** The functional *)

Lemma xc_names_nonempty :
  forallb (fun e => negb (String.eqb (xc_name e) "")) (map snd xc_internal_map) = true.
Proof. vm_compute. reflexivity. Qed.

Lemma xc_lookup_in (k : string) (tab : list (string * xc_entry)) (e : xc_entry) :
  xc_lookup k tab = Some e -> In e (map snd tab).
Proof.
  induction tab as [|[k' e'] tab IH]; cbn [xc_lookup map snd]; [discriminate|].
  destruct (String.eqb k k').
  - intros [= ->]. now left.
  - intros Hk. right. now apply IH.
Qed.

(** An empty name never comes from the table, so it has no tags. *)
Lemma xc_functional_empty (cur_line : string) :
  fst (xc_functional cur_line) = "" -> snd (xc_functional cur_line) = [].
Proof.
  unfold xc_functional. pose proof xc_names_nonempty as Hn. revert Hn.
  generalize xc_internal_map. intros tab Hn.
  assert (Hne : forall e, In e (map snd tab) -> xc_name e <> "").
  { intros e He. rewrite forallb_forall in Hn. specialize (Hn _ He).
    apply negb_true_iff, String.eqb_neq in Hn. exact Hn. }
  assert (Hm : forall s e rest, xc_matches s tab = e :: rest -> In e (map snd tab)).
  { intros s e rest Hs. unfold xc_matches in Hs.
    assert (Hin : In e (filter (fun e => Py.mem_str s (xc_setup e)) (map snd tab)))
      by (rewrite Hs; now left).
    apply filter_In in Hin. tauto. }
  destruct (xc_tokens cur_line) as [|k [|k2 rest]].
  - destruct (xc_matches _ _) as [|e m] eqn:E; cbn [fst snd]; [reflexivity|].
    intros He. now apply Hne in He; [|eapply Hm, E].
  - destruct (xc_lookup _ _) as [e|] eqn:E; cbn [fst snd]; [|reflexivity].
    intros He. now apply Hne in He; [|eapply xc_lookup_in, E].
  - destruct (xc_matches _ _) as [|e m] eqn:E; cbn [fst snd]; [reflexivity|].
    intros He. now apply Hne in He; [|eapply Hm, E].
Qed.

Lemma on_exchange_correlation_functional (cur_line : string) (st : state) :
  on_exchange_correlation cur_line st
  = if str_truthy (H (st_info st)) then st
    else with_info st (set_H (st_info st) (fst (xc_functional cur_line))
                             (snd (xc_functional cur_line))).
Proof.
  unfold on_exchange_correlation, xc_functional. generalize xc_internal_map. intros tab.
  destruct (str_truthy _); [reflexivity|].
  destruct (xc_tokens cur_line) as [|k [|k2 rest]].
  - destruct (xc_matches _ _); reflexivity.
  - destruct (xc_lookup _ _); reflexivity.
  - destruct (xc_matches _ _); reflexivity.
Qed.

Lemma step_functional (data : list string) (n n' : nat) (st st' : state)
  (cur_line : string) :
  nth_error data n = Some cur_line -> step data n st = Ok (n', st') ->
  if is_xc_line cur_line
  then st_info st' = st_info (on_exchange_correlation cur_line st)
  else H (st_info st') = H (st_info st) /\ H_types (st_info st') = H_types (st_info st).
Proof.
  intros Hl Hs. pose proof (step_info _ _ _ _ _ _ Hl Hs) as Hi.
  unfold info_step in Hi. unfold is_xc_line.
  unfold step in Hs. rewrite Hl in Hs. cbn [or_raise bind] in Hs.
  destruct (rule_of cur_line); try (rewrite Hi; split; reflexivity).
  - destruct Hi as [v ->]. split; reflexivity.
  - destruct Hi as [x ->]. split; reflexivity.
  - now injection Hs as _ <-.
  - destruct (wall cur_line); [destruct Hi as [h ->] | rewrite Hi]; split; reflexivity.
Qed.

Lemma scan_functional (data : list string) (m : nat) :
  forall k st tr st',
    for_range (step data) (seq k m) st = Ok (tr, st') ->
    (k + m = List.length data)%nat ->
    (H (st_info st'), H_types (st_info st'))
    = functional_after (st_info st) (functional_scan (skipn k data)).
Proof.
  induction m as [|m IH]; intros k st tr st' Hr Hk.
  - cbn in Hr. injection Hr as _ <-.
    rewrite skipn_all2 by lia. unfold functional_after. cbn [functional_scan].
    destruct (str_truthy _); reflexivity.
  - cbn [seq] in Hr. apply for_range_cons in Hr.
    destruct Hr as [n1 [st1 [tr1 [Hs [Hr _]]]]].
    destruct (step_line _ _ _ _ Hs) as [cur_line Hl].
    rewrite (nth_error_skipn_cons _ _ _ Hl). cbn [functional_scan].
    rewrite (IH _ _ _ _ Hr) by lia.
    pose proof (step_functional _ _ _ _ _ _ Hl Hs) as Hf.
    unfold functional_after.
    destruct (is_xc_line cur_line).
    + rewrite Hf, on_exchange_correlation_functional.
      destruct (str_truthy (H (st_info st))) eqn:Ht; [now rewrite Ht|].
      cbn [with_info st_info set_H H H_types str_truthy].
      pose proof (xc_functional_empty cur_line) as Hemp.
      destruct (xc_functional cur_line) as [v t]. cbn [fst snd] in *.
      destruct (String.eqb v "") eqn:Ev; cbn [negb].
      * apply String.eqb_eq in Ev. subst v. rewrite (Hemp eq_refl).
        destruct (functional_scan (skipn (S k) data)) as [[v' t']|];
          rewrite ?app_nil_r; reflexivity.
      * reflexivity.
    + destruct Hf as [-> ->]. reflexivity.
Qed.

(** X8: the functional of the record is decided by the first
    exchange-correlation line that gives a non-empty name: the lines after
    it change neither the name nor the tags.  Lines that give the empty name
    leave the name empty and add no tag. *)
Theorem functional_first_line (filename : string) (data : list string)
  (exists_ : string -> bool) (r : Output) :
  __init__ filename data exists_ = Ok r ->
  H (info r) = option_map fst (functional_scan data)
  /\ H_types (info r) = match functional_scan data with
                        | Some found => snd found
                        | None => []
                        end.
Proof.
  intros Hp. apply parse_inv in Hp. destruct Hp as [tr [st [Hm [Hi _]]]].
  rewrite Hi. unfold main_loop in Hm.
  pose proof (scan_functional data _ 0 _ _ _ Hm ltac:(lia)) as Hf.
  cbn [skipn] in Hf. unfold functional_after in Hf.
  cbn [initial_state st_info H H_types str_truthy app] in Hf.
  destruct (functional_scan data) as [[v t]|]; now injection Hf as -> ->.
Qed.

End Fields.

(** The sample log holds two total-energy lines. *)
Lemma energy_last_line_sample :
  exists r,
    @__init__ Exact.lib "/data/pw.out" sample_log (fun _ => true) = Ok r
    /\ energy (info r) = match last_where is_energy_line sample_log with
                         | Some l => @energy_of_line Exact.lib l
                         | None => None
                         end
    /\ forall l, In l sample_log -> is_energy_line l = true ->
         exists x, @energy_of_line Exact.lib l = Some x.
Proof.
  run_parse.
  apply (@energy_last_line Exact.lib "/data/pw.out" sample_log (fun _ => true)).
  reflexivity.
Defined.

(** The sample log ends with a wall-clock banner. *)
Lemma duration_last_wall_banner_sample :
  exists r,
    @__init__ Exact.lib "/data/pw.out" sample_log (fun _ => true) = Ok r
    /\ duration (info r) = match last_where is_wall_banner sample_log with
                           | Some l => @duration_of_line Exact.lib l
                           | None => None
                           end
    /\ (forall h, duration (info r) = Some h -> finished (info r) = 1).
Proof.
  run_parse.
  apply (@duration_last_wall_banner Exact.lib "/data/pw.out" sample_log (fun _ => true)).
  reflexivity.
Defined.

(** The sample log starts with a program banner. *)
Lemma prog_last_banner_sample :
  exists r,
    @__init__ Exact.lib "/data/pw.out" sample_log (fun _ => true) = Ok r
    /\ framework (info r) = "Quantum ESPRESSO"
    /\ prog (info r) = match last_where is_program_line sample_log with
                       | Some l => Some ("Quantum ESPRESSO " ++ version_of_line l)
                       | None => None
                       end.
Proof.
  run_parse.
  apply (@prog_last_banner Exact.lib "/data/pw.out" sample_log (fun _ => true)).
  reflexivity.
Defined.

(** The sample log names PBE first, B3LYP later. *)
Lemma functional_first_line_sample :
  exists r,
    @__init__ Exact.lib "/data/pw.out" sample_log (fun _ => true) = Ok r
    /\ H (info r) = option_map fst (functional_scan sample_log)
    /\ H_types (info r) = match functional_scan sample_log with
                          | Some found => snd found
                          | None => []
                          end.
Proof.
  run_parse.
  apply (@functional_first_line Exact.lib "/data/pw.out" sample_log (fun _ => true)).
  reflexivity.
Defined.

(** The sample log read field by field. *)
Example sample_log_fields :
  last_where is_energy_line sample_log
  = Some ("!    total energy              =     -11.25 Ry" ++ nl)
  /\ functional_scan sample_log = Some ("PBE", ["GGA"])
  /\ option_map version_of_line (last_where is_program_line sample_log) = Some "6.1"
  /\ last_where is_wall_banner sample_log
     = Some ("     PWSCF        :     1m 0.50s CPU     1h 2m 18.52s WALL" ++ nl).
Proof. repeat split; vm_compute; reflexivity. Qed.

Example sample_log_duration :
  @duration_of_line Exact.lib
    ("     PWSCF        :     1m 0.50s CPU     1h 2m 18.52s WALL" ++ nl) = Some "1.04".
Proof. reflexivity. Qed.

(** ** The lattice parameter *)

Lemma first_where_app (f : string -> bool) (a b : list string) :
  first_where f (a ++ b)%list
  = match first_where f a with
    | Some l => Some l
    | None => first_where f b
    end.
Proof.
  induction a as [|x a IH]; cbn [first_where app]; [reflexivity|].
  destruct (f x); [reflexivity | exact IH].
Qed.

Lemma firstn_S_nth {A} (l : list A) (k : nat) (x : A) :
  nth_error l k = Some x -> firstn (S k) l = (firstn k l ++ [x])%list.
Proof.
  revert l; induction k as [|k IH]; intros [|y l]; cbn [nth_error]; try discriminate.
  - now intros [= ->].
  - intros Hx. cbn [firstn app]. now rewrite <- (IH _ Hx).
Qed.

Section Lattice.

Context {L : Lib}.

Lemma site_table_alat (data : list string) (n n' : nat) (st st' : state) :
  on_site_table data n st = Ok (n', st') -> alat st' = alat st.
Proof.
  unfold on_site_table. destruct (negb _).
  - now intros [= _ <-].
  - intros Hs. break_bind Hs. destruct a as [[m pos] syms].
    break_bind Hs. now injection Hs as _ <-.
Qed.

Lemma cell_parameters_alat (data : list string) (n n' : nat) (cur_line : string)
  (st st' : state) :
  on_cell_parameters data n cur_line st = Ok (n', st') -> alat st' = alat st.
Proof.
  unfold on_cell_parameters. intros Hs. break_bind Hs.
  destruct a as [[m cd] completed]. destruct completed.
  - break_bind Hs. now injection Hs as _ <-.
  - now injection Hs as _ <-.
Qed.

Lemma atomic_positions_alat (data : list string) (n n' : nat) (cur_line : string)
  (st st' : state) :
  on_atomic_positions data n cur_line st = Ok (n', st') -> alat st' = alat st.
Proof.
  unfold on_atomic_positions. intros Hs. break_bind Hs.
  destruct a as [m pd]. destruct (atomic_data st) as [a|].
  - destruct (atoms_truthy (Some a)).
    + break_bind Hs. now injection Hs as _ <-.
    + now injection Hs as _ <-.
  - now injection Hs as _ <-.
Qed.

(** Only a [celldm] line met while the parameter is still false writes it,
    and what it writes is true. *)
Lemma step_alat (data : list string) (n n' : nat) (st st' : state) (cur_line : string) :
  nth_error data n = Some cur_line -> step data n st = Ok (n', st') ->
  if is_celldm_line cur_line && negb (truthy (alat st))
  then alat_of_line cur_line = Some (alat st') /\ truthy (alat st') = true
  else alat st' = alat st.
Proof.
  intros Hl. unfold step, is_celldm_line. rewrite Hl. cbn [or_raise bind].
  destruct (rule_of cur_line); cbn [andb]; intros Hs;
    try (injection Hs as _ <-; reflexivity).
  - break_bind Hs. injection Hs as _ <-. unfold on_celldm in E.
    destruct (truthy (alat st)) eqn:Ht; cbn [negb]; [now injection E as <-|].
    unfold alat_of_line.
    destruct (Py.index (Py.split_ws cur_line) 1) as [tok|]; [|discriminate E].
    cbn [or_raise bind] in E.
    destruct (float tok) as [x|]; [|discriminate E].
    cbn [or_raise bind] in E. injection E as <-. cbn [option_map alat with_alat].
    split; [reflexivity|].
    cbn [truthy]. destruct (negb (is_zero (mul x Bohr))) eqn:Hx; cbn [truthy];
      [exact Hx | reflexivity].
  - break_bind Hs. injection Hs as _ <-. unfold on_crystal_axes in E.
    break_bind E. now injection E as <-.
  - eapply site_table_alat, Hs.
  - eapply cell_parameters_alat, Hs.
  - eapply atomic_positions_alat, Hs.
  - break_bind Hs. injection Hs as _ <-. unfold on_total_energy in E.
    break_bind E. now injection E as <-.
  - injection Hs as _ <-. rewrite on_exchange_correlation_functional.
    destruct (str_truthy _); reflexivity.
  - break_bind Hs. injection Hs as _ <-. unfold on_timing in E.
    destruct (_ || _); [break_bind E|]; now injection E as <-.
Qed.

(** X9: the lattice parameter is decided by the first [celldm] line: in
    every state of a run it is the value of that line (in Angstrom, or the
    integer 1 when that value is zero), it is never false once such a line
    was passed, and the [celldm] lines that follow are not read.  Before the
    first such line it is the integer 0. *)
Theorem alat_first_celldm (data : list string) (k : nat) :
  forall tr st,
    run_to data k = Ok (tr, st) ->
    match first_where is_celldm_line (firstn k data) with
    | Some l => alat_of_line l = Some (alat st) /\ truthy (alat st) = true
    | None => alat st = PyInt 0
    end.
Proof.
  induction k as [|k IH]; intros tr st Hr.
  - cbn in Hr. injection Hr as _ <-. reflexivity.
  - apply run_to_step in Hr. destruct Hr as [tr1 [st1 [n1 [Hr Hs]]]].
    specialize (IH _ _ Hr).
    destruct (step_line _ _ _ _ Hs) as [cur_line Hl].
    rewrite (firstn_S_nth _ _ _ Hl), first_where_app.
    pose proof (step_alat _ _ _ _ _ _ Hl Hs) as Ha.
    destruct (first_where is_celldm_line (firstn k data)) as [l|].
    + destruct IH as [Hv Ht]. rewrite Ht, andb_false_r in Ha. now rewrite Ha.
    + rewrite IH in Ha. cbn [truthy Z.eqb negb first_where] in *.
      rewrite andb_true_r in Ha.
      destruct (is_celldm_line cur_line); [exact Ha | congruence].
Qed.

End Lattice.

(** The sample log holds two [celldm] lines; the run is taken to its end. *)
Lemma alat_first_celldm_sample :
  exists tr st,
    @run_to Exact.lib sample_log 23 = Ok (tr, st)
    /\ match first_where is_celldm_line (firstn 23 sample_log) with
       | Some l => @alat_of_line Exact.lib l = Some (alat st) /\ truthy (alat st) = true
       | None => alat st = @PyInt Exact.lib 0
       end.
Proof.
  let v := eval vm_compute in (@run_to Exact.lib sample_log 23) in
  match v with
  | Ok (?tr, ?st) =>
      exists tr, st; split;
      [ reflexivity
      | apply (@alat_first_celldm Exact.lib sample_log 23 tr st); reflexivity ]
  end.
Defined.

Example sample_log_alat :
  first_where is_celldm_line sample_log
  = Some ("     celldm(1)=   10.000000  celldm(2)=    0.000000" ++ nl)
  /\ @alat_of_line Exact.lib ("     celldm(1)=   10.000000  celldm(2)=    0.000000" ++ nl)
     = Some (@PyFloat Exact.lib (52917721067 # 10000000000)).
Proof. split; reflexivity. Qed.

(** ** The structure *)

Section Structure.

Context {L : Lib}.

Lemma for_range_invariant (P : state -> Prop) (data : list string) :
  (forall n n' st st', P st -> step data n st = Ok (n', st') -> P st') ->
  forall it st tr st',
    P st -> for_range (step data) it st = Ok (tr, st') -> P st'.
Proof.
  intros Hstep. induction it as [|n it IH]; intros st tr st' HP Hr.
  - cbn in Hr. now injection Hr as _ <-.
  - apply for_range_cons in Hr. destruct Hr as [n1 [st1 [tr1 [Hs [Hr _]]]]].
    eapply IH; [|exact Hr]. eapply Hstep; [exact HP | exact Hs].
Qed.

Lemma mem_str_in (s : string) (l : list string) : Py.mem_str s l = true <-> In s l.
Proof.
  unfold Py.mem_str. rewrite existsb_exists. split.
  - intros [x [Hx He]]. apply String.eqb_eq in He. now subst.
  - intros Hin. exists s. split; [exact Hin | apply String.eqb_refl].
Qed.

Lemma is_3x3_shape (v : pyseq) (m : matrix) :
  is_3x3 v = Some m ->
  v = NdArray m /\ List.length m = 3%nat /\ Forall (fun row => List.length row = 3%nat) m.
Proof.
  unfold is_3x3. intros Hv.
  repeat match type of Hv with
         | context [match ?x with _ => _ end] => destruct x; try discriminate Hv
         end.
  injection Hv as <-. repeat split. repeat constructor.
Qed.

Lemma new_Atoms_well_formed (syms : list string) (pos cel : pyseq) (a : Atoms) :
  new_Atoms syms pos cel = Ok a -> well_formed a.
Proof.
  unfold new_Atoms. destruct (forallb _ syms) eqn:Hs; cbn [negb]; [|discriminate].
  intros Ha. break_bind Ha. apply or_raise_ok in E.
  destruct (Nat.eqb _ _); [|discriminate Ha]. injection Ha as <-.
  destruct (is_3x3_shape _ _ E) as [_ [Hlen Hrows]].
  unfold well_formed. cbn [symbols cell pbc]. repeat split; try assumption.
  apply Forall_forall. intros s Hin. rewrite forallb_forall in Hs.
  apply mem_str_in. now apply Hs.
Qed.

Lemma set_cell_well_formed (a a' : Atoms) (cel : pyseq) :
  set_cell a cel = Ok a' -> well_formed a -> well_formed a'.
Proof.
  unfold set_cell. intros Ha [Hs [_ [_ Hp]]]. break_bind Ha. apply or_raise_ok in E.
  injection Ha as <-. destruct (is_3x3_shape _ _ E) as [_ [Hlen Hrows]].
  unfold well_formed. cbn [symbols cell pbc]. now repeat split.
Qed.

Lemma set_positions_well_formed (a a' : Atoms) (pos : pyseq) :
  set_positions a pos = Ok a' -> well_formed a -> well_formed a'.
Proof.
  unfold set_positions. intros Ha Hw. break_bind Ha.
  destruct (Nat.eqb _ _); [|discriminate Ha]. now injection Ha as <-.
Qed.

Lemma set_scaled_positions_well_formed (a a' : Atoms) (pos : pyseq) :
  set_scaled_positions a pos = Ok a' -> well_formed a -> well_formed a'.
Proof.
  unfold set_scaled_positions. intros Ha Hw. break_bind Ha.
  destruct (Nat.eqb _ _); [|discriminate Ha]. now injection Ha as <-.
Qed.

Lemma step_well_formed (data : list string) (n n' : nat) (st st' : state) :
  (forall a, atomic_data st = Some a -> well_formed a) ->
  step data n st = Ok (n', st') ->
  forall a, atomic_data st' = Some a -> well_formed a.
Proof.
  intros Hw Hs. destruct (step_line _ _ _ _ Hs) as [cur_line Hl].
  destruct (rule_of cur_line) eqn:Hr;
    try (destruct (step_frame _ _ _ _ _ _ Hl Hs) as [Ha _];
         [congruence | congruence | congruence | rewrite Ha; exact Hw]);
    unfold step in Hs; rewrite Hl in Hs; cbn [or_raise bind] in Hs; rewrite Hr in Hs.
  - unfold on_site_table in Hs. destruct (negb _).
    + now injection Hs as _ <-.
    + break_bind Hs. destruct a as [[m pos] syms]. break_bind Hs.
      injection Hs as _ <-. cbn [atomic_data]. intros ? [= <-].
      eapply new_Atoms_well_formed, E2.
  - unfold on_cell_parameters in Hs. break_bind Hs.
    destruct a as [[m cd] completed]. destruct completed.
    + break_bind Hs. injection Hs as _ <-. apply or_raise_ok in E0.
      cbn [atomic_data with_atoms]. intros ? [= <-].
      eapply set_cell_well_formed; [exact E2 | now apply Hw].
    + now injection Hs as _ <-.
  - unfold on_atomic_positions in Hs. break_bind Hs. destruct a as [m pd].
    destruct (atomic_data st) as [a|] eqn:Ea.
    + destruct (atoms_truthy (Some a)).
      * break_bind Hs. injection Hs as _ <-. cbn [atomic_data with_atoms].
        intros ? [= <-]. specialize (Hw _ eq_refl).
        destruct (String.eqb _ "alat)");
          [break_bind E0; eapply set_positions_well_formed; eassumption|].
        destruct (String.eqb _ "bohr)");
          [break_bind E0; eapply set_positions_well_formed; eassumption|].
        destruct (String.eqb _ "angstrom)");
          [eapply set_positions_well_formed; eassumption|].
        eapply set_scaled_positions_well_formed; eassumption.
      * injection Hs as _ <-. cbn [atomic_data with_pos]. now rewrite Ea.
    + injection Hs as _ <-. cbn [atomic_data with_pos]. now rewrite Ea.
Qed.

(** X10: a completed parse hands on at most one structure, and that
    structure is well formed: every symbol is one of ASE's table, the cell
    has three rows of three entries, and the periodic flags are all set. *)
Theorem structures_well_formed (filename : string) (data : list string)
  (exists_ : string -> bool) (r : Output) :
  __init__ filename data exists_ = Ok r ->
  (List.length (structures r) <= 1)%nat
  /\ Forall well_formed (structures r).
Proof.
  intros Hp. apply parse_inv in Hp. destruct Hp as [tr [st [Hm [_ [Hst _]]]]].
  rewrite Hst.
  assert (Hw : forall a, atomic_data st = Some a -> well_formed a).
  { unfold main_loop in Hm.
    eapply (for_range_invariant
              (fun st => forall a, atomic_data st = Some a -> well_formed a));
      [|  |exact Hm].
    - intros n n' st0 st1 H0 Hs. eapply step_well_formed; eassumption.
    - intros a. discriminate. }
  destruct (atoms_truthy (atomic_data st)); [|split; [cbn; lia | constructor]].
  destruct (atomic_data st) as [a|]; [|split; [cbn; lia | constructor]].
  split; [cbn; lia|]. constructor; [now apply Hw | constructor].
Qed.

(** *** The positions held and the symbols held *)

Lemma times_rows (v v' : pyseq) (a : pynum) (p : matrix) :
  times v a = Ok v' -> v' = NdArray p ->
  exists rows, v = NdArray rows /\ p = scaled rows a.
Proof.
  destruct v as [rows|rows|rows], a as [z|x]; cbn [times]; try discriminate;
    intros [= <-]; try discriminate; intros [= <-]; now exists rows.
Qed.

Lemma scaled_length (rows : matrix) (a : pynum) :
  List.length (scaled rows a) = List.length rows.
Proof. unfold scaled. apply length_map. Qed.

Lemma step_consistent (data : list string) (n n' : nat) (st st' : state) :
  consistent st -> step data n st = Ok (n', st') -> consistent st'.
Proof.
  intros [Hlen Hsym] Hs. destruct (step_line _ _ _ _ Hs) as [cur_line Hl].
  destruct (rule_of cur_line) eqn:Hr;
    try (destruct (step_frame _ _ _ _ _ _ Hl Hs) as [Ha [Hp Hy]];
         [congruence | congruence | congruence |
          unfold consistent; rewrite Ha, Hp, Hy; now split]);
    unfold step in Hs; rewrite Hl in Hs; cbn [or_raise bind] in Hs; rewrite Hr in Hs.
  - unfold on_site_table in Hs. destruct (negb _).
    + injection Hs as _ <-. now split.
    + break_bind Hs. destruct a as [[m pos] syms]. break_bind Hs.
      injection Hs as _ <-.
      destruct (new_Atoms_symbols _ _ _ _ E2) as [Hsy [p [Hp Hpl]]].
      apply is_nx3_array in Hp. subst a.
      unfold consistent, len. cbn [pos_data symbol_data atomic_data rows_of].
      now split.
  - destruct (cell_parameters_frame _ _ _ _ _ _ Hs) as [Hp [Hy [Hso Hn]]].
    unfold consistent. rewrite Hp, Hy. split; [exact Hlen|].
    unfold symbols_of in Hso.
    destruct (atomic_data st) as [a|].
    + destruct (atomic_data st') as [a'|]; [|discriminate Hso].
      injection Hso as ->. exact Hsym.
    + now rewrite (Hn eq_refl).
  - destruct (atomic_positions_frame _ _ _ _ _ _ Hs) as [Hy [Hp [_ [Hso Hn]]]].
    unfold consistent. rewrite Hp, Hy. split; [exact Hlen|].
    unfold symbols_of in Hso.
    destruct (atomic_data st) as [a|].
    + destruct (atomic_data st') as [a'|]; [|discriminate Hso].
      injection Hso as ->. exact Hsym.
    + now rewrite (Hn eq_refl).
Qed.

Lemma run_consistent (data : list string) (k : nat) (tr : list (nat * nat)) (st : state) :
  run_to data k = Ok (tr, st) -> consistent st.
Proof.
  unfold run_to. apply (for_range_invariant consistent data).
  - intros n n' st0 st1 H0 Hs. eapply step_consistent; eassumption.
  - split; reflexivity.
Qed.

Lemma position_rows_count (rest : list string) :
  forall i todo n pd n' pd',
    position_rows rest i todo n pd = Ok (n', pd') -> n' = (n + todo)%nat.
Proof.
  induction rest as [|line rest IH]; intros i [|todo] n pd n' pd';
    cbn [position_rows]; try discriminate; try (intros [= <- _]; lia).
  intros Hs. break_bind Hs. apply IH in Hs. lia.
Qed.

(** X11: an ATOMIC_POSITIONS block is read by count: the pass reads
    exactly one line per atom of the structure after the header, blank or
    not, and none when no atom is held; these lines all lie in the file (a
    block cut short by the end of the file raises).  The pass changes
    neither the symbols nor the cell of the structure, nor [info]. *)
Theorem atomic_positions_reads_atoms (data : list string) (n n' : nat)
  (cur_line : string) (tr : list (nat * nat)) (st st' : state) :
  nth_error data n = Some cur_line -> rule_of cur_line = AtomicPositions ->
  run_to data n = Ok (tr, st) -> step data n st = Ok (n', st') ->
  n' = (n + match atomic_data st with
            | Some a => List.length (symbols a)
            | None => 0
            end)%nat
  /\ (n' < List.length data)%nat
  /\ symbols_of st' = symbols_of st
  /\ option_map cell (atomic_data st') = option_map cell (atomic_data st)
  /\ st_info st' = st_info st.
Proof.
  intros Hl Hr Hrun Hs.
  pose proof (step_reach _ _ _ _ _ Hs) as Hreach.
  destruct (run_consistent _ _ _ _ Hrun) as [Hlen Hsym].
  unfold step in Hs. rewrite Hl in Hs. cbn [or_raise bind] in Hs. rewrite Hr in Hs.
  destruct (atomic_positions_frame _ _ _ _ _ _ Hs) as [_ [_ [_ [Hso _]]]].
  pose proof (atomic_positions_info _ _ _ _ _ _ Hs) as Hi.
  assert (Hn : n' = (n + len (pos_data st))%nat).
  { unfold on_atomic_positions in Hs. break_bind Hs. destruct a as [m pd].
    apply position_rows_count in E. subst m.
    destruct (atomic_data st) as [a|]; [destruct (atoms_truthy (Some a))|];
      [break_bind Hs| |]; now injection Hs as <- _. }
  assert (Hc : option_map cell (atomic_data st') = option_map cell (atomic_data st)).
  { unfold on_atomic_positions in Hs. break_bind Hs. destruct a as [m pd].
    destruct (atomic_data st) as [a|] eqn:Ea.
    - destruct (atoms_truthy (Some a)).
      + break_bind Hs. injection Hs as _ <-. cbn [atomic_data with_atoms option_map].
        f_equal.
        assert (Hsp : forall p a1, set_positions a p = Ok a1 -> cell a1 = cell a).
        { intros p a1. unfold set_positions. intros Hp. break_bind Hp.
          destruct (Nat.eqb _ _); [|discriminate Hp]. now injection Hp as <-. }
        destruct (String.eqb _ "alat)"); [break_bind E0; eapply Hsp; eassumption|].
        destruct (String.eqb _ "bohr)"); [break_bind E0; eapply Hsp; eassumption|].
        destruct (String.eqb _ "angstrom)"); [eapply Hsp; eassumption|].
        unfold set_scaled_positions in E0. break_bind E0.
        destruct (Nat.eqb _ _); [|discriminate E0]. now injection E0 as <-.
      + injection Hs as _ <-. cbn [atomic_data with_pos]. now rewrite Ea.
    - injection Hs as _ <-. cbn [atomic_data with_pos]. now rewrite Ea. }
  repeat split; try assumption; [|lia].
  rewrite Hn, Hlen. destruct (atomic_data st) as [a|]; [now rewrite Hsym|].
  now rewrite Hsym.
Qed.

End Structure.

(** The structure of the sample log. *)
Lemma structures_well_formed_sample :
  exists r,
    @__init__ Exact.lib "/data/pw.out" sample_log (fun _ => true) = Ok r
    /\ (List.length (structures r) <= 1)%nat
    /\ Forall well_formed (structures r).
Proof.
  run_parse.
  apply (@structures_well_formed Exact.lib "/data/pw.out" sample_log (fun _ => true)).
  reflexivity.
Defined.

(** The ATOMIC_POSITIONS block of the sample log: one atom, one line. *)
Lemma atomic_positions_reads_atoms_sample :
  exists tr st,
    @run_to Exact.lib sample_log 18 = Ok (tr, st)
    /\ exists n' st',
         @step Exact.lib sample_log 18 st = Ok (n', st')
         /\ n' = (18 + match atomic_data st with
                       | Some a => List.length (symbols a)
                       | None => 0
                       end)%nat
         /\ (n' < List.length sample_log)%nat
         /\ symbols_of st' = symbols_of st
         /\ option_map cell (atomic_data st') = option_map cell (atomic_data st)
         /\ st_info st' = st_info st.
Proof.
  let v := eval vm_compute in (@run_to Exact.lib sample_log 18) in
  match v with
  | Ok (?tr, ?st) =>
      let w := eval vm_compute in (@step Exact.lib sample_log 18 st) in
      match w with
      | Ok (?n', ?st') =>
          exists tr, st; split;
          [ reflexivity
          | exists n', st'; split;
            [ reflexivity
            | apply (@atomic_positions_reads_atoms Exact.lib sample_log 18 n'
                       ("ATOMIC_POSITIONS (crystal)" ++ nl) tr st st');
              reflexivity ] ]
      end
  end.
Defined.

(** ** Blocks before the site table *)

Section Blocks.

Context {L : Lib}.

Lemma before_table_at (data : list string) (n : nat) (tr : list (nat * nat)) (st : state) :
  (forall m, first_site_table data = Some m -> (n <= m)%nat) ->
  run_to data n = Ok (tr, st) -> before_table st.
Proof.
  intros Hfirst Hr. pose proof (run_stage _ _ _ _ Hr) as Hst. unfold stage in Hst.
  destruct (first_site_table data) as [n0|]; [|exact Hst].
  specialize (Hfirst _ eq_refl). apply Nat.leb_le in Hfirst. now rewrite Hfirst in Hst.
Qed.

Lemma position_rows_zero (rest : list string) (i n : nat) (pd : pyseq) :
  position_rows rest i 0 n pd = Ok (n, pd).
Proof. destruct rest; reflexivity. Qed.

(** X12: an ATOMIC_POSITIONS header met before the first site table is
    passed over: no atom is held, so the pass reads no line, cannot raise
    and changes nothing. *)
Theorem atomic_positions_before_table (data : list string) (n : nat)
  (cur_line : string) (tr : list (nat * nat)) (st : state) :
  nth_error data n = Some cur_line -> rule_of cur_line = AtomicPositions ->
  (forall m, first_site_table data = Some m -> (n <= m)%nat) ->
  run_to data n = Ok (tr, st) ->
  step data n st = Ok (n, st).
Proof.
  intros Hl Hr Hfirst Hrun.
  destruct (before_table_at _ _ _ _ Hfirst Hrun) as [Ha [Hp _]].
  unfold step. rewrite Hl. cbn [or_raise bind]. rewrite Hr.
  unfold on_atomic_positions. rewrite Hp, Ha. cbn [len rows_of List.length].
  rewrite position_rows_zero. cbn [bind].
  rewrite <- Hp. now destruct st.
Qed.

Lemma cell_rows_complete (rest : list string) :
  forall i todo n cd n' cd' completed,
    cell_rows rest i todo n cd = Ok (n', cd', completed) ->
    (todo <= leading_rows rest)%nat ->
    completed = true /\ n' = (n + todo)%nat.
Proof.
  induction rest as [|line rest IH]; intros i [|todo] n cd n' cd' completed;
    cbn [cell_rows leading_rows]; try discriminate;
    try (intros [= <- _ <-] _; split; [reflexivity | lia]).
  unfold blank. destruct (Py.split_ws line) as [|t ts]; [intros _ Hle; lia|].
  intros Hs Hle. break_bind Hs. apply IH in Hs; [|lia].
  destruct Hs as [-> ->]. split; [reflexivity | lia].
Qed.

(** X13: a log in which a CELL_PARAMETERS header followed by three
    non-empty lines comes before the first site table is never parsed: the
    block is written to a structure that does not exist yet (or its rows
    cannot be stored), and the parser raises. *)
Theorem cell_parameters_before_table (filename : string) (data : list string)
  (exists_ : string -> bool) (n : nat) (cur_line : string) :
  nth_error data n = Some cur_line -> rule_of cur_line = CellParameters ->
  (forall m, first_site_table data = Some m -> (n <= m)%nat) ->
  (3 <= leading_rows (skipn (S n) data))%nat ->
  exists e, __init__ filename data exists_ = Raise e.
Proof.
  intros Hl Hr Hfirst Hrows.
  destruct (__init__ filename data exists_) as [r|e] eqn:Hp; [|now exists e].
  exfalso. apply parse_inv in Hp. destruct Hp as [tr [st [Hm _]]].
  destruct (main_loop_reaches _ _ _ _ _ Hm Hl) as [tr1 [st1 [n1 [st2 [Hrun Hs]]]]].
  destruct (before_table_at _ _ _ _ Hfirst Hrun) as [Ha _].
  unfold step in Hs. rewrite Hl in Hs. cbn [or_raise bind] in Hs. rewrite Hr in Hs.
  unfold on_cell_parameters in Hs. break_bind Hs. destruct a as [[m cd] completed].
  destruct (cell_rows_complete _ _ _ _ _ _ _ _ E Hrows) as [-> _].
  rewrite Ha in Hs. discriminate Hs.
Qed.

(** *** A complete CELL_PARAMETERS block *)

Lemma fill_row_three (vals : list num) :
  List.length vals = 3%nat -> fill_row vals = vals.
Proof. destruct vals as [|x [|y vals]]; cbn; try discriminate; reflexivity. Qed.

(** A row written into a float array: the array was a float array, and a
    row of three entries holds the values, or the one value three times. *)
Lemma assign_row_array (v : pyseq) (i : nat) (vals : list num) (rows' : matrix) :
  assign_row v i vals = Ok (NdArray rows') ->
  exists rows w,
    v = NdArray rows /\ rows' = set_nth i w rows
    /\ (i < List.length rows)%nat
    /\ (List.length w = 3%nat -> w = fill_row vals).
Proof.
  unfold assign_row. destruct (nth_error (rows_of v) i) as [row|] eqn:Hrow; [|discriminate].
  assert (Hi : (i < List.length (rows_of v))%nat)
    by (apply nth_error_Some; rewrite Hrow; discriminate).
  destruct v as [rows|rows|rows]; try discriminate. cbn [rows_of] in *.
  destruct (Nat.eqb (List.length vals) (List.length row)) eqn:Hlen.
  - intros [= <-]. exists rows, vals. repeat split; try assumption.
    intros H3. now rewrite fill_row_three.
  - destruct vals as [|x [|y vals]]; try discriminate.
    intros [= <-]. exists rows, (map (fun _ => x) row). repeat split; try assumption.
    rewrite length_map. intros H3.
    destruct row as [|a [|b [|c [|d row]]]]; try discriminate H3. reflexivity.
Qed.

Lemma cell_rows_zero (rest : list string) (i n : nat) (cd : pyseq) :
  cell_rows rest i 0 n cd = Ok (n, cd, true).
Proof. destruct rest; reflexivity. Qed.

Lemma cell_rows_three (l1 l2 l3 : string) (rest : list string) (n n' : nat)
  (cd cd' : pyseq) (completed : bool) :
  cell_rows (l1 :: l2 :: l3 :: rest) 0 3 n cd = Ok (n', cd', completed) ->
  blank l1 = false -> blank l2 = false -> blank l3 = false ->
  exists r1 r2 r3 c1 c2,
    floats (Py.split_ws l1) = Ok r1 /\ assign_row cd 0 r1 = Ok c1
    /\ floats (Py.split_ws l2) = Ok r2 /\ assign_row c1 1 r2 = Ok c2
    /\ floats (Py.split_ws l3) = Ok r3 /\ assign_row c2 2 r3 = Ok cd'
    /\ n' = (n + 3)%nat /\ completed = true.
Proof.
  unfold blank. cbn [cell_rows]. intros Hs H1 H2 H3.
  destruct (Py.split_ws l1) as [|t1 ts1]; [discriminate H1|].
  break_bind Hs. cbn [cell_rows] in Hs.
  destruct (Py.split_ws l2) as [|t2 ts2]; [discriminate H2|].
  break_bind Hs. cbn [cell_rows] in Hs.
  destruct (Py.split_ws l3) as [|t3 ts3]; [discriminate H3|].
  break_bind Hs. rewrite cell_rows_zero in Hs. injection Hs as <- <- <-.
  exists a, a1, a3, a0, a2. repeat split; try assumption. lia.
Qed.

(** X14: a complete CELL_PARAMETERS block replaces the cell.  When the
    pass over a header followed by three non-empty lines completes, it has
    read exactly these three lines; the running cell matrix is the three
    rows of numbers (a line with a single number fills its row), whatever it
    held before; the structure keeps its symbols and gets as cell these rows
    times the unit of the header (Bohr for "bohr", the lattice parameter for
    "alat", 1 otherwise), its atoms being rescaled to the new cell. *)
Theorem cell_parameters_complete_block (data : list string) (n n' : nat)
  (cur_line l1 l2 l3 : string) (rest : list string) (st st' : state) :
  nth_error data n = Some cur_line -> rule_of cur_line = CellParameters ->
  skipn (S n) data = l1 :: l2 :: l3 :: rest ->
  blank l1 = false -> blank l2 = false -> blank l3 = false ->
  step data n st = Ok (n', st') ->
  n' = (n + 3)%nat
  /\ exists a a' r1 r2 r3,
       atomic_data st = Some a /\ atomic_data st' = Some a'
       /\ floats (Py.split_ws l1) = Ok r1 /\ floats (Py.split_ws l2) = Ok r2
       /\ floats (Py.split_ws l3) = Ok r3
       /\ cell_data st' = NdArray [fill_row r1; fill_row r2; fill_row r3]
       /\ cell a' = scaled [fill_row r1; fill_row r2; fill_row r3]
                           (cell_multiplier cur_line st)
       /\ symbols a' = symbols a
       /\ scale_atoms (cell a) (cell a') (positions a) = Some (positions a').
Proof.
  intros Hl Hr Hskip H1 H2 H3 Hs.
  unfold step in Hs. rewrite Hl in Hs. cbn [or_raise bind] in Hs. rewrite Hr in Hs.
  unfold on_cell_parameters in Hs. rewrite Hskip in Hs. break_bind Hs.
  destruct a as [[m cd] completed].
  destruct (cell_rows_three _ _ _ _ _ _ _ _ _ E H1 H2 H3)
    as [r1 [r2 [r3 [c1 [c2 [F1 [A1 [F2 [A2 [F3 [A3 [-> ->]]]]]]]]]]]].
  fold (cell_multiplier cur_line st) in Hs.
  break_bind Hs. apply or_raise_ok in E0. injection Hs as <- <-.
  unfold set_cell in E2. break_bind E2. apply or_raise_ok in E3, E4.
  injection E2 as <-.
  destruct (is_3x3_shape _ _ E3) as [-> [Hlen Hrows]].
  destruct (times_rows _ _ _ _ E1 eq_refl) as [rows3 [-> Hsc]].
  destruct (assign_row_array _ _ _ _ A3) as [rows2 [w3 [-> [-> [_ W3]]]]].
  destruct (assign_row_array _ _ _ _ A2) as [rows1 [w2 [-> [-> [_ W2]]]]].
  destruct (assign_row_array _ _ _ _ A1) as [rows0 [w1 [Hcd [-> [_ W1]]]]].
  subst a2. rewrite scaled_length, !length_set_nth in Hlen.
  destruct rows0 as [|x0 [|x1 [|x2 [|x3 rows0]]]]; try discriminate Hlen.
  cbn [set_nth] in *. unfold scaled in Hrows. cbn [map] in Hrows.
  inversion Hrows as [|? ? L1 Hrows1]; subst.
  inversion Hrows1 as [|? ? L2 Hrows2]; subst.
  inversion Hrows2 as [|? ? L3 _]; subst.
  rewrite length_map in L1, L2, L3.
  rewrite (W1 L1), (W2 L2), (W3 L3) in *.
  split; [reflexivity|].
  exists a, (mkAtoms (symbols a) a3 (scaled [fill_row r1; fill_row r2; fill_row r3]
                                             (cell_multiplier cur_line st)) (pbc a)),
         r1, r2, r3.
  cbn [atomic_data with_atoms with_cell cell_data cell symbols positions].
  repeat split; assumption.
Qed.

(** *** The structure of the first site table *)

Lemma new_Atoms_inv (syms : list string) (pos cel : pyseq) (a : Atoms) :
  new_Atoms syms pos cel = Ok a ->
  exists p c,
    is_nx3 pos = Some p /\ is_3x3 cel = Some c
    /\ a = mkAtoms syms p c (true, true, true).
Proof.
  unfold new_Atoms. destruct (negb _); [discriminate|].
  intros Ha. break_bind Ha. apply or_raise_ok in E, E0.
  destruct (Nat.eqb _ _); [|discriminate Ha]. injection Ha as <-.
  now exists a1, a0.
Qed.

Lemma site_rows_rows (rest : list string) :
  forall n rows0 syms0 n' pos' syms',
    site_rows rest n (PyList rows0) syms0 = Ok (n', pos', syms') ->
    exists rows,
      site_coordinates (table_rows rest) = Ok rows
      /\ pos' = PyList (rows0 ++ rows)%list
      /\ n' = (n + List.length (table_rows rest) + 1)%nat.
Proof.
  induction rest as [|line rest IH]; intros n rows0 syms0 n' pos' syms';
    cbn [site_rows table_rows]; [discriminate|].
  unfold blank. destruct (Py.split_ws line) as [|t ts] eqn:Hline.
  - intros [= <- <- _]. exists []. rewrite app_nil_r. cbn. repeat split. lia.
  - intros Hs. break_bind Hs. apply IH in Hs.
    destruct Hs as [rows [Hc [-> ->]]]. exists (a :: rows).
    unfold site_coordinates in *. cbn [map_res List.length]. rewrite Hline, E.
    cbn [bind]. rewrite Hc. cbn [bind]. rewrite <- app_assoc. repeat split. lia.
Qed.

(** X15: the structure the first site table gives.  When the pass over
    the first site header of a log completes, it has read the rows of the
    table and the empty line that ends it; the positions of the structure
    are the coordinates of the rows (the three tokens before the last one)
    times the lattice parameter, its cell is the running cell matrix times
    the lattice parameter, and its symbols are the normalised labels. *)
Theorem site_table_structure (data : list string) (n n' : nat)
  (tr : list (nat * nat)) (st st' : state) :
  first_site_table data = Some n ->
  run_to data n = Ok (tr, st) -> step data n st = Ok (n', st') ->
  n' = (n + List.length (table_rows (skipn (S n) data)) + 1)%nat
  /\ exists a rows cel,
       atomic_data st' = Some a
       /\ site_coordinates (table_rows (skipn (S n) data)) = Ok rows
       /\ cell_data st = NdArray cel
       /\ positions a = scaled rows (alat st)
       /\ cell a = scaled cel (alat st)
       /\ symbols a = map normalize_label (table_labels (skipn (S n) data))
       /\ pos_data st' = NdArray (positions a).
Proof.
  intros Hfirst Hrun Hs.
  assert (Hb : before_table st).
  { eapply before_table_at; [|exact Hrun]. intros m Hm. rewrite Hfirst in Hm.
    injection Hm as <-. lia. }
  destruct (first_site_table_some _ _ Hfirst) as [[header [Hl Hh]] _].
  apply rule_of_header in Hh.
  unfold step in Hs. rewrite Hl in Hs. cbn [or_raise bind] in Hs. rewrite Hh in Hs.
  destruct (site_table_first _ _ _ _ _ Hb Hs) as [Hsym _].
  destruct Hb as [Ha [Hp Hy]].
  unfold on_site_table in Hs. rewrite Hp in Hs.
  cbn [len rows_of List.length Nat.eqb negb] in Hs.
  break_bind Hs. destruct a as [[m pos] syms]. break_bind Hs. injection Hs as <- <-.
  apply site_rows_rows in E. destruct E as [rows [Hc [-> ->]]]. cbn [app] in *.
  destruct (new_Atoms_inv _ _ _ _ E2) as [p [c [Hnx [H33 ->]]]].
  apply is_nx3_array in Hnx. subst a.
  destruct (is_3x3_shape _ _ H33) as [-> _].
  destruct (times_rows _ _ _ _ E1 eq_refl) as [cel [Hcel ->]].
  destruct (times_rows _ _ _ _ E0 eq_refl) as [rows1 [Harr ->]].
  assert (rows1 = rows).
  { cbn [as_array] in Harr. unfold np_array in Harr.
    destruct (rectangular rows); [now injection Harr as -> | discriminate Harr]. }
  subst rows1. split; [reflexivity|].
  exists (mkAtoms syms (scaled rows (alat st)) (scaled cel (alat st)) (true, true, true)),
         rows, cel.
  cbn [atomic_data positions cell symbols pos_data].
  unfold symbols_of in Hsym. cbn [atomic_data option_map symbols] in Hsym.
  injection Hsym as Hsym. repeat split; assumption.
Qed.

End Blocks.

(** The ATOMIC_POSITIONS header at line 5 of a log whose site table starts at line 10. *)
Lemma atomic_positions_before_table_early :
  exists tr st,
    @run_to Exact.lib early_cell_log 5 = Ok (tr, st)
    /\ @step Exact.lib early_cell_log 5 st = Ok (5%nat, st).
Proof.
  let v := eval vm_compute in (@run_to Exact.lib early_cell_log 5) in
  match v with
  | Ok (?tr, ?st) =>
      exists tr, st; split;
      [ reflexivity
      | apply (@atomic_positions_before_table Exact.lib early_cell_log 5
                 ("ATOMIC_POSITIONS (crystal)" ++ nl) tr st);
        [ reflexivity | reflexivity
        | intros m Hm; vm_compute in Hm; injection Hm as <-; lia
        | reflexivity ] ]
  end.
Defined.

(** The CELL_PARAMETERS block at line 6 of the same log. *)
Lemma cell_parameters_before_table_early :
  exists e, @__init__ Exact.lib "pw.out" early_cell_log (fun _ => false) = Raise e.
Proof.
  apply (@cell_parameters_before_table Exact.lib "pw.out" early_cell_log (fun _ => false) 6
           ("CELL_PARAMETERS (alat= 10.00000000)" ++ nl)).
  - reflexivity.
  - reflexivity.
  - intros m Hm. vm_compute in Hm. injection Hm as <-. lia.
  - vm_compute. repeat constructor.
Defined.

Example parse_early_cell_log :
  @__init__ Exact.lib "pw.out" early_cell_log (fun _ => false) = Raise AttributeError.
Proof. reflexivity. Qed.

(** The CELL_PARAMETERS block of the sample log. *)
Lemma cell_parameters_complete_block_sample :
  exists tr st,
    @run_to Exact.lib sample_log 13 = Ok (tr, st)
    /\ exists n' st',
         @step Exact.lib sample_log 13 st = Ok (n', st')
         /\ n' = (13 + 3)%nat
         /\ exists a a' r1 r2 r3,
              atomic_data st = Some a /\ atomic_data st' = Some a'
              /\ floats (Py.split_ws ("   2.000000000   0.000000000   0.000000000" ++ nl))
                 = Ok r1
              /\ floats (Py.split_ws ("   0.000000000   2.000000000   0.000000000" ++ nl))
                 = Ok r2
              /\ floats (Py.split_ws ("   0.000000000   0.000000000   2.000000000" ++ nl))
                 = Ok r3
              /\ cell_data st' = NdArray [fill_row r1; fill_row r2; fill_row r3]
              /\ cell a' = scaled [fill_row r1; fill_row r2; fill_row r3]
                                  (cell_multiplier
                                     ("CELL_PARAMETERS (alat= 10.00000000)" ++ nl) st)
              /\ symbols a' = symbols a
              /\ scale_atoms (cell a) (cell a') (positions a) = Some (positions a').
Proof.
  let v := eval vm_compute in (@run_to Exact.lib sample_log 13) in
  match v with
  | Ok (?tr, ?st) =>
      let w := eval vm_compute in (@step Exact.lib sample_log 13 st) in
      match w with
      | Ok (?n', ?st') =>
          exists tr, st; split; [reflexivity|];
          exists n', st'; split; [reflexivity|];
          apply (@cell_parameters_complete_block Exact.lib sample_log 13 n'
                   ("CELL_PARAMETERS (alat= 10.00000000)" ++ nl)
                   ("   2.000000000   0.000000000   0.000000000" ++ nl)
                   ("   0.000000000   2.000000000   0.000000000" ++ nl)
                   ("   0.000000000   0.000000000   2.000000000" ++ nl)
                   (skipn 17 sample_log) st st'); reflexivity
      end
  end.
Defined.

(** The cell the block of the sample log gives: twice the lattice
    parameter along each axis. *)
Example sample_log_cell :
  exists r,
    @__init__ Exact.lib "/data/pw.out" sample_log (fun _ => true) = Ok r
    /\ map (@cell Exact.lib) (structures r)
       = [@scaled Exact.lib [[q 2; q 0; q 0]; [q 0; q 2; q 0]; [q 0; q 0; q 2]]
            (@PyFloat Exact.lib (52917721067 # 10000000000))].
Proof. run_parse. reflexivity. Qed.

(** The site table of the sample log. *)
Lemma site_table_structure_sample :
  exists tr st,
    @run_to Exact.lib sample_log 7 = Ok (tr, st)
    /\ exists n' st',
         @step Exact.lib sample_log 7 st = Ok (n', st')
         /\ n' = (7 + List.length (table_rows (skipn 8 sample_log)) + 1)%nat
         /\ exists a rows cel,
              atomic_data st' = Some a
              /\ site_coordinates (table_rows (skipn 8 sample_log)) = Ok rows
              /\ cell_data st = NdArray cel
              /\ positions a = scaled rows (alat st)
              /\ cell a = scaled cel (alat st)
              /\ symbols a
                 = map (@normalize_label Exact.lib) (table_labels (skipn 8 sample_log))
              /\ pos_data st' = NdArray (positions a).
Proof.
  let v := eval vm_compute in (@run_to Exact.lib sample_log 7) in
  match v with
  | Ok (?tr, ?st) =>
      let w := eval vm_compute in (@step Exact.lib sample_log 7 st) in
      match w with
      | Ok (?n', ?st') =>
          exists tr, st; split; [reflexivity|];
          exists n', st'; split; [reflexivity|];
          apply (@site_table_structure Exact.lib sample_log 7 n' tr st st');
          reflexivity
      end
  end.
Defined.

(** ** The exceptions of each rule *)

Ltac raise_cases H :=
  repeat match type of H with
    | bind ?m _ = Raise _ =>
        let E := fresh "R" in
        destruct m eqn:E; cbn [bind] in H; [|injection H as <-]
    end.

Lemma or_raise_raises {A} (e0 e : exn) (o : option A) :
  or_raise e0 o = Raise e -> e = e0.
Proof. destruct o; cbn; [discriminate | now intros [= <-]]. Qed.

Lemma map_res_raises {A B} (f : A -> res B) (P : exn -> Prop) (l : list A) (e : exn) :
  (forall x e, f x = Raise e -> P e) -> map_res f l = Raise e -> P e.
Proof.
  intros Hf. induction l as [|x l IH]; cbn [map_res]; [discriminate|].
  intros Hr. raise_cases Hr; [discriminate Hr | now apply IH | eapply Hf, R].
Qed.

Section Raises.

Context {L : Lib}.

Lemma floats_raises (toks : list string) (e : exn) :
  floats toks = Raise e -> e = ValueError.
Proof.
  unfold floats. apply (map_res_raises _ (fun e => e = ValueError)).
  intros x e0. apply or_raise_raises.
Qed.

Lemma times_raises (v : pyseq) (a : pynum) (e : exn) :
  times v a = Raise e -> e = TypeError.
Proof. destruct v, a; cbn [times]; try discriminate; now intros [= <-]. Qed.

Lemma assign_row_raises (v : pyseq) (i : nat) (vals : list num) (e : exn) :
  assign_row v i vals = Raise e -> e = IndexError \/ e = ValueError.
Proof.
  unfold assign_row. destruct (nth_error _ _) as [row|]; [|intros [= <-]; now left].
  destruct v; try discriminate. destruct (Nat.eqb _ _); [discriminate|].
  destruct vals as [|x [|y vals]]; try discriminate; intros [= <-]; now right.
Qed.

Lemma new_Atoms_raises (syms : list string) (pos cel : pyseq) (e : exn) :
  new_Atoms syms pos cel = Raise e -> e = KeyError \/ e = ValueError.
Proof.
  unfold new_Atoms. destruct (negb _); [intros [= <-]; now left|].
  intros Hr. raise_cases Hr.
  - destruct (Nat.eqb _ _); [discriminate Hr | injection Hr as <-; now right].
  - apply or_raise_raises in R0. now right.
  - apply or_raise_raises in R. now right.
Qed.

Lemma set_cell_raises (a : Atoms) (cel : pyseq) (e : exn) :
  set_cell a cel = Raise e -> e = ValueError \/ e = LinAlgError.
Proof.
  unfold set_cell. intros Hr. raise_cases Hr.
  - discriminate Hr.
  - apply or_raise_raises in R0. now right.
  - apply or_raise_raises in R. now left.
Qed.

Lemma set_positions_raises (a : Atoms) (pos : pyseq) (e : exn) :
  set_positions a pos = Raise e -> e = ValueError.
Proof.
  unfold set_positions. intros Hr. raise_cases Hr.
  - destruct (Nat.eqb _ _); [discriminate Hr | now injection Hr as <-].
  - now apply or_raise_raises in R.
Qed.

Lemma set_scaled_positions_raises (a : Atoms) (pos : pyseq) (e : exn) :
  set_scaled_positions a pos = Raise e -> e = ValueError.
Proof.
  unfold set_scaled_positions. intros Hr. raise_cases Hr.
  - destruct (Nat.eqb _ _); [discriminate Hr | now injection Hr as <-].
  - now apply or_raise_raises in R.
Qed.

Lemma site_rows_raises (rest : list string) :
  forall n pos syms e,
    site_rows rest n pos syms = Raise e ->
    e = IndexError \/ e = ValueError \/ e = AttributeError.
Proof.
  induction rest as [|line rest IH]; intros n pos syms e; cbn [site_rows].
  - intros [= <-]. now left.
  - destruct (Py.split_ws line) as [|t ts]; [discriminate|].
    destruct pos; try (intros [= <-]; now right; right).
    intros Hr. raise_cases Hr.
    + eapply IH, Hr.
    + apply or_raise_raises in R0. now left.
    + apply floats_raises in R. now right; left.
Qed.

Lemma cell_rows_raises (rest : list string) :
  forall i todo n cd e,
    cell_rows rest i todo n cd = Raise e -> e = IndexError \/ e = ValueError.
Proof.
  induction rest as [|line rest IH]; intros i [|todo] n cd e; cbn [cell_rows];
    try discriminate; try (intros [= <-]; now left).
  destruct (Py.split_ws line) as [|t ts]; [discriminate|].
  intros Hr. raise_cases Hr.
  - eapply IH, Hr.
  - eapply assign_row_raises, R0.
  - apply floats_raises in R. now right.
Qed.

Lemma position_rows_raises (rest : list string) :
  forall i todo n pd e,
    position_rows rest i todo n pd = Raise e -> e = IndexError \/ e = ValueError.
Proof.
  induction rest as [|line rest IH]; intros i [|todo] n pd e; cbn [position_rows];
    try discriminate; try (intros [= <-]; now left).
  intros Hr. raise_cases Hr.
  - eapply IH, Hr.
  - eapply assign_row_raises, R0.
  - apply floats_raises in R. now right.
Qed.

(** The exceptions a pass can end with are those of the rule of its
    line. *)
Lemma step_raises (data : list string) (n : nat) (st : state) (cur_line : string)
  (e : exn) :
  nth_error data n = Some cur_line -> step data n st = Raise e ->
  may_raise (rule_of cur_line) e = true.
Proof.
  intros Hl. unfold step. rewrite Hl. cbn [or_raise bind].
  destruct (rule_of cur_line); intros Hr; try discriminate Hr.
  - raise_cases Hr; [discriminate Hr|]. unfold on_celldm in R.
    destruct (truthy _); [discriminate R|]. raise_cases R; [discriminate R | |].
    + apply or_raise_raises in R1. now subst.
    + apply or_raise_raises in R0. now subst.
  - raise_cases Hr; [discriminate Hr|]. unfold on_crystal_axes in R.
    raise_cases R; [discriminate R|].
    apply (map_res_raises floats (fun e => e = ValueError)) in R0; [now subst|].
    intros x e0. apply floats_raises.
  - unfold on_site_table in Hr. destruct (negb _); [discriminate Hr|].
    raise_cases Hr.
    + destruct a as [[m pos] syms]. raise_cases Hr; [discriminate Hr | | |].
      * apply new_Atoms_raises in R2. destruct R2; now subst.
      * apply times_raises in R1. now subst.
      * apply times_raises in R0. now subst.
    + apply site_rows_raises in R. destruct R as [-> | [-> | ->]]; reflexivity.
  - unfold on_cell_parameters in Hr. raise_cases Hr.
    + destruct a as [[m cd] completed]. destruct completed; [|discriminate Hr].
      raise_cases Hr; [discriminate Hr | | |].
      * apply set_cell_raises in R2. destruct R2; now subst.
      * apply times_raises in R1. now subst.
      * apply or_raise_raises in R0. now subst.
    + apply cell_rows_raises in R. destruct R; now subst.
  - unfold on_atomic_positions in Hr. raise_cases Hr.
    + destruct a as [m pd].
      destruct (atomic_data st) as [a|]; [|discriminate Hr].
      destruct (atoms_truthy (Some a)); [|discriminate Hr].
      raise_cases Hr; [discriminate Hr|].
      destruct (String.eqb _ "alat)").
      { raise_cases R0; [apply set_positions_raises in R0 | apply times_raises in R1];
          now subst. }
      destruct (String.eqb _ "bohr)").
      { raise_cases R0; [apply set_positions_raises in R0 | apply times_raises in R1];
          now subst. }
      destruct (String.eqb _ "angstrom)").
      { apply set_positions_raises in R0. now subst. }
      apply set_scaled_positions_raises in R0. now subst.
    + apply position_rows_raises in R. destruct R; now subst.
  - raise_cases Hr; [discriminate Hr|]. unfold on_total_energy in R.
    raise_cases R; [discriminate R | |].
    + apply or_raise_raises in R1. now subst.
    + apply or_raise_raises in R0. now subst.
  - raise_cases Hr; [discriminate Hr|]. unfold on_timing in R.
    destruct (_ || _); [|discriminate R]. raise_cases R; [discriminate R|].
    apply or_raise_raises in R0. now subst.
Qed.

Lemma for_range_raises (body : nat -> state -> res (nat * state)) (it : list nat) :
  forall st e,
    for_range body it st = Raise e ->
    exists n st1, In n it /\ body n st1 = Raise e.
Proof.
  induction it as [|n it IH]; intros st e; cbn [for_range]; [discriminate|].
  intros Hr. raise_cases Hr.
  - discriminate Hr.
  - destruct (IH _ _ R0) as [m [st1 [Hin Hb]]]. exists m, st1. split; [now right | exact Hb].
  - exists n, st. split; [now left | exact R].
Qed.

(** X16: an exception that ends a parse comes from a line of the log
    whose rule can raise it.  The lattice-parameter and total-energy lines
    raise IndexError or ValueError, the crystal axes and the timing banner
    ValueError only; KeyError comes only from a site table, LinAlgError only
    from a CELL_PARAMETERS block; the termination banner, the program banner,
    the exchange-correlation line and the lines of no rule never raise. *)
Theorem parse_raises (filename : string) (data : list string)
  (exists_ : string -> bool) (e : exn) :
  __init__ filename data exists_ = Raise e ->
  exists cur_line, In cur_line data /\ may_raise (rule_of cur_line) e = true.
Proof.
  unfold __init__. intros Hr. raise_cases Hr; [discriminate Hr|].
  unfold main_loop in R. apply for_range_raises in R.
  destruct R as [n [st1 [Hin Hs]]]. apply in_seq in Hin.
  destruct (nth_error data n) as [cur_line|] eqn:Hl.
  - exists cur_line. split; [eapply nth_error_In, Hl | eapply step_raises; eassumption].
  - apply nth_error_None in Hl. lia.
Qed.

End Raises.

(** The AttributeError of a CELL_PARAMETERS block that comes too early. *)
Lemma parse_raises_early :
  exists cur_line,
    In cur_line early_cell_log /\ may_raise (rule_of cur_line) AttributeError = true.
Proof.
  apply (@parse_raises Exact.lib "pw.out" early_cell_log (fun _ => false) AttributeError).
  reflexivity.
Defined.

(** ** The sibling input file of a name with one extension *)

Lemma startswith_refl (s : string) : Py.startswith s s = true.
Proof.
  induction s as [|c s IH]; cbn [Py.startswith]; [reflexivity|].
  now rewrite Ascii.eqb_refl, IH.
Qed.

Lemma contains_cons_false (c d : ascii) (s : string) :
  Py.contains (String c s) (String d "") = false ->
  Ascii.eqb d c = false /\ Py.contains s (String d "") = false.
Proof.
  cbn [Py.contains Py.startswith]. rewrite andb_true_r. intros Hc.
  now apply orb_false_iff in Hc.
Qed.

Lemma split_dot_absent (s : string) :
  forall cur,
    Py.contains s "." = false ->
    Py.split_go "." s 0 cur = [string_of_list_ascii (rev cur) ++ s].
Proof.
  induction s as [|c s IH]; intros cur Hc.
  - cbn [Py.split_go]. now rewrite append_nil_r.
  - apply contains_cons_false in Hc. destruct Hc as [Hc Hs].
    cbn [Py.split_go Py.startswith]. rewrite Hc. cbn [andb].
    rewrite (IH _ Hs). now rewrite string_of_list_ascii_snoc.
Qed.

Lemma split_dot_app (p e : string) :
  forall cur,
    Py.contains p "." = false ->
    Py.split_go "." (p ++ String "."%char e) 0 cur
    = (string_of_list_ascii (rev cur) ++ p) :: Py.split_go "." e 0 [].
Proof.
  induction p as [|c p IH]; intros cur Hc.
  - cbn [append Py.split_go Py.startswith]. rewrite Ascii.eqb_refl.
    cbn [andb String.length Nat.sub]. now rewrite append_nil_r.
  - apply contains_cons_false in Hc. destruct Hc as [Hc Hp].
    cbn [append Py.split_go Py.startswith]. rewrite Hc. cbn [andb].
    rewrite (IH _ Hp). now rewrite string_of_list_ascii_snoc.
Qed.

Lemma replace_go_skip (old new s : string) :
  forall k, (String.length s <= k)%nat -> Py.replace_go old new s k = "".
Proof.
  induction s as [|c s IH]; intros k Hk; [reflexivity|].
  cbn [String.length] in Hk. destruct k as [|k]; [lia|].
  cbn [Py.replace_go]. apply IH. lia.
Qed.

Lemma replace_extension (p e : string) :
  Py.contains p "." = false ->
  Py.replace_go (String "."%char e) "" (p ++ String "."%char e) 0 = p.
Proof.
  induction p as [|c p IH]; intros Hc.
  - cbn [append Py.replace_go]. rewrite startswith_refl.
    cbn [String.length Nat.sub append]. rewrite Nat.sub_0_r.
    now apply replace_go_skip.
  - apply contains_cons_false in Hc. destruct Hc as [Hc Hp].
    cbn [append Py.replace_go Py.startswith]. rewrite Hc. cbn [andb].
    now rewrite (IH Hp).
Qed.

Lemma sibling_name_single_extension (p e : string) :
  Py.contains p "." = false -> Py.contains e "." = false ->
  sibling_name (p ++ "." ++ e) = p ++ ".in".
Proof.
  intros Hp He. unfold sibling_name, Py.split, Py.replace.
  change (p ++ "." ++ e) with (p ++ String "."%char e).
  rewrite (split_dot_app _ _ _ Hp), (split_dot_absent _ _ He).
  cbn [rev string_of_list_ascii append Py.last_part List.last].
  change ("." ++ e) with (String "."%char e).
  now rewrite (replace_extension _ _ Hp).
Qed.

Lemma dir_prefix_no_slash (s : string) : Py.contains s "/" = false -> dir_prefix s = "".
Proof.
  destruct s as [|c s]; [reflexivity|]. intros Hc.
  apply contains_cons_false in Hc. destruct Hc as [Hc Hs].
  cbn [dir_prefix]. now rewrite Hs, Ascii.eqb_sym, Hc.
Qed.

Lemma path_join_absolute (a b : string) :
  Py.startswith b "/" = true -> path_join a b = b.
Proof. unfold path_join. now intros ->. Qed.

Lemma path_join_empty (b : string) : path_join "" b = b.
Proof. unfold path_join. destruct (Py.startswith b "/"); reflexivity. Qed.

Lemma sibling_path_single_extension (p e : string) :
  Py.contains p "." = false -> Py.contains e "." = false ->
  Py.startswith p "/" = true \/ Py.contains (p ++ "." ++ e) "/" = false ->
  sibling_path (p ++ "." ++ e) = p ++ ".in".
Proof.
  intros Hp He Hdir. unfold sibling_path.
  rewrite (sibling_name_single_extension _ _ Hp He).
  destruct Hdir as [Habs | Hrel].
  - apply path_join_absolute. apply startswith_spec in Habs. destruct Habs as [b ->].
    apply startswith_spec. exists (b ++ ".in"). now rewrite append_assoc.
  - unfold dirname. rewrite (dir_prefix_no_slash _ Hrel). cbn [String.eqb negb andb].
    apply path_join_empty.
Qed.

Section Sibling.

Context {L : Lib}.

(** X17: for a log name with a single extension, given as an absolute
    path or as a bare file name, the sibling looked for is the name with its
    extension, whatever it is, replaced by [in]: the record lists the log's
    own name, followed by that sibling exactly when it exists. *)
Theorem related_files_single_extension (p e : string) (data : list string)
  (exists_ : string -> bool) (r : Output) :
  Py.contains p "." = false -> Py.contains e "." = false ->
  Py.startswith p "/" = true \/ Py.contains (p ++ "." ++ e) "/" = false ->
  __init__ (p ++ "." ++ e) data exists_ = Ok r ->
  sibling_path (p ++ "." ++ e) = p ++ ".in"
  /\ related_files r
     = (p ++ "." ++ e) :: (if exists_ (p ++ ".in") then [p ++ ".in"] else []).
Proof.
  intros Hp He Hdir Hr.
  pose proof (sibling_path_single_extension _ _ Hp He Hdir) as Hs.
  split; [exact Hs|].
  apply parse_inv in Hr. destruct Hr as [tr [st [_ [_ [_ Hf]]]]].
  now rewrite Hs in Hf.
Qed.

End Sibling.

(** An absolute name with the extension [out]. *)
Lemma related_files_single_extension_sample :
  exists r,
    @__init__ Exact.lib ("/data/pw" ++ "." ++ "out") sample_log (fun _ => true) = Ok r
    /\ sibling_path ("/data/pw" ++ "." ++ "out") = "/data/pw" ++ ".in"
    /\ related_files r
       = ("/data/pw" ++ "." ++ "out") :: (if (fun _ : string => true) ("/data/pw" ++ ".in")
                                         then ["/data/pw" ++ ".in"] else []).
Proof.
  run_parse.
  apply (@related_files_single_extension Exact.lib "/data/pw" "out" sample_log
           (fun _ => true));
    [reflexivity | reflexivity | left; reflexivity | reflexivity].
Defined.

Example sibling_path_bare_name :
  sibling_path ("pw" ++ "." ++ "log") = "pw.in".
Proof. apply sibling_path_single_extension; [reflexivity | reflexivity | now right]. Qed.

(** ** A site table that is not ended *)

Section Unended.

Context {L : Lib}.

Lemma site_rows_unended (rest : list string) :
  forall n pos syms r,
    existsb blank rest = false -> site_rows rest n pos syms <> Ok r.
Proof.
  induction rest as [|line rest IH]; intros n pos syms r; cbn [site_rows existsb].
  - discriminate.
  - unfold blank at 1. destruct (Py.split_ws line) as [|t ts]; [discriminate|].
    cbn [orb]. intros Hb Hs. destruct pos; try discriminate Hs.
    break_bind Hs. eapply IH; eassumption.
Qed.

(** X18: a log whose first site table is not ended by an empty line is
    never parsed: the table loop runs to the end of the file, whatever
    follows the table, and the parser raises. *)
Theorem site_table_unended (filename : string) (data : list string)
  (exists_ : string -> bool) (n : nat) :
  first_site_table data = Some n ->
  existsb blank (skipn (S n) data) = false ->
  exists e, __init__ filename data exists_ = Raise e.
Proof.
  intros Hfirst Hb.
  destruct (__init__ filename data exists_) as [r|e] eqn:Hp; [|now exists e].
  exfalso. apply parse_inv in Hp. destruct Hp as [tr [st [Hm _]]].
  destruct (first_site_table_some _ _ Hfirst) as [[header [Hl Hh]] _].
  apply rule_of_header in Hh.
  destruct (main_loop_reaches _ _ _ _ _ Hm Hl) as [tr1 [st1 [n1 [st2 [Hrun Hs]]]]].
  assert (Hbt : before_table st1).
  { eapply before_table_at; [|exact Hrun]. intros m Hm'. rewrite Hfirst in Hm'.
    injection Hm' as <-. lia. }
  destruct Hbt as [_ [Hp _]].
  unfold step in Hs. rewrite Hl in Hs. cbn [or_raise bind] in Hs. rewrite Hh in Hs.
  unfold on_site_table in Hs. rewrite Hp in Hs.
  cbn [len rows_of List.length Nat.eqb negb] in Hs. break_bind Hs.
  eapply site_rows_unended; eassumption.
Qed.

End Unended.

(** The log cut off inside its site table. *)
Lemma site_table_unended_truncated :
  exists e, @__init__ Exact.lib "pw.out" truncated_log (fun _ => false) = Raise e.
Proof.
  apply (@site_table_unended Exact.lib "pw.out" truncated_log (fun _ => false) 6);
    reflexivity.
Defined.

(** ** The positions an ATOMIC_POSITIONS block gives *)

Lemma firstn_set_nth_S {A} (l : list A) (i : nat) (w : A) :
  (i < List.length l)%nat -> firstn (S i) (set_nth i w l) = (firstn i l ++ [w])%list.
Proof.
  revert i; induction l as [|x l IH]; intros [|i] Hi; cbn [List.length] in Hi;
    try lia; [reflexivity|].
  cbn [set_nth]. rewrite !firstn_cons. rewrite IH by lia. reflexivity.
Qed.

Lemma firstn_set_nth_le {A} (l : list A) (i k : nat) (w : A) :
  (k <= i)%nat -> firstn k (set_nth i w l) = firstn k l.
Proof.
  revert i k; induction l as [|x l IH]; intros [|i] [|k] Hk; try lia; try reflexivity.
  cbn [set_nth]. rewrite !firstn_cons. rewrite IH by lia. reflexivity.
Qed.

Lemma skipn_set_nth {A} (l : list A) (i k : nat) (w : A) :
  (i < k)%nat -> skipn k (set_nth i w l) = skipn k l.
Proof.
  revert i k; induction l as [|x l IH]; intros [|i] [|k] Hk; try lia; try reflexivity.
  cbn [set_nth skipn]. apply IH. lia.
Qed.

Section Positions.

Context {L : Lib}.

(** The rows a completed loop leaves in a float array of three columns:
    before index [i] and from index [i + todo] those it held, between them
    the values read, line by line. *)
Lemma position_rows_rows (rest : list string) :
  forall i todo n pd n' rows',
    position_rows rest i todo n pd = Ok (n', NdArray rows') ->
    Forall (fun row => List.length row = 3%nat) rows' ->
    exists rows0 raw,
      pd = NdArray rows0
      /\ block_coordinates (firstn todo rest) = Ok raw
      /\ rows' = (firstn i rows0 ++ map fill_row raw ++ skipn (i + todo) rows0)%list
      /\ (todo = 0 \/ i + todo <= List.length rows0)%nat.
Proof.
  induction rest as [|line rest IH]; intros i [|todo] n pd n' rows';
    cbn [position_rows]; try discriminate.
  - intros [= _ ->] _. exists rows', []. rewrite Nat.add_0_r.
    cbn [firstn map app]. rewrite firstn_skipn. repeat split. now left.
  - intros [= _ ->] _. exists rows', []. rewrite Nat.add_0_r.
    cbn [firstn map app]. rewrite firstn_skipn. repeat split. now left.
  - intros Hs H3. break_bind Hs.
    destruct (IH _ _ _ _ _ _ Hs H3) as [rows1 [raw [-> [Hraw [Hrows Hbound]]]]].
    destruct (assign_row_array _ _ _ _ E0) as [rows0 [w [-> [-> [Hi Hw]]]]].
    exists rows0, (a :: raw). unfold block_coordinates in *.
    cbn [firstn map_res]. rewrite E. cbn [bind]. rewrite Hraw. cbn [bind].
    rewrite length_set_nth in Hbound.
    rewrite firstn_set_nth_S in Hrows by exact Hi.
    rewrite skipn_set_nth in Hrows by lia.
    assert (Hw3 : List.length w = 3%nat).
    { rewrite Forall_forall in H3. apply H3. rewrite Hrows.
      apply in_or_app. left. apply in_or_app. right. now left. }
    rewrite (Hw Hw3) in Hrows.
    repeat split.
    + rewrite Hrows. cbn [map]. rewrite <- app_assoc. cbn [app].
      now replace (i + S todo)%nat with (S i + todo)%nat by lia.
    + right. destruct Hbound as [-> | Hbound]; lia.
Qed.

Lemma is_nx3_rows (v : pyseq) (p : matrix) :
  is_nx3 v = Some p ->
  v = NdArray p /\ Forall (fun row => List.length row = 3%nat) p.
Proof.
  intros Hv. split; [now apply is_nx3_array|].
  unfold is_nx3 in Hv. destruct v as [rows|rows|rows]; try discriminate Hv.
  destruct (forallb _ rows) eqn:Hf; [|discriminate Hv]. injection Hv as <-.
  apply Forall_forall. intros row Hin. rewrite forallb_forall in Hf.
  now apply Nat.eqb_eq, Hf.
Qed.

Lemma scaled_rows3 (rows : matrix) (a : pynum) :
  Forall (fun row => List.length row = 3%nat) (scaled rows a) ->
  Forall (fun row => List.length row = 3%nat) rows.
Proof.
  unfold scaled. rewrite !Forall_forall. intros Hs row Hin.
  rewrite <- (length_map (fun x => mul x (to_float a))). apply Hs.
  now apply in_map.
Qed.

(** X19: the positions an ATOMIC_POSITIONS block gives a structure with
    atoms.  When the pass completes, the held positions are the numbers of
    tokens 1 to 3 of the lines after the header, one line per atom (a line
    with a single number fills its row), and the positions of the structure
    are these rows in the unit of the header: times the lattice parameter
    for [alat)], times Bohr for [bohr)], as they are for [angstrom)], and in
    units of the cell for every other header. *)
Theorem atomic_positions_block (data : list string) (n n' : nat) (cur_line : string)
  (tr : list (nat * nat)) (st st' : state) (a : Atoms) :
  nth_error data n = Some cur_line -> rule_of cur_line = AtomicPositions ->
  run_to data n = Ok (tr, st) ->
  atomic_data st = Some a -> symbols a <> [] ->
  step data n st = Ok (n', st') ->
  exists a' raw,
    atomic_data st' = Some a'
    /\ block_coordinates (firstn (List.length (symbols a)) (skipn (S n) data)) = Ok raw
    /\ pos_data st' = NdArray (map fill_row raw)
    /\ positions a' = positions_in (coord_flag cur_line) (map fill_row raw) a (alat st).
Proof.
  intros Hl Hr Hrun Ha Hne Hs.
  destruct (run_consistent _ _ _ _ Hrun) as [Hlen Hsym]. rewrite Ha in Hsym.
  unfold step in Hs. rewrite Hl in Hs. cbn [or_raise bind] in Hs. rewrite Hr in Hs.
  unfold on_atomic_positions in Hs. fold (coord_flag cur_line) in Hs.
  rewrite Ha in Hs.
  assert (Ht : atoms_truthy (Some a) = true).
  { cbn [atoms_truthy]. destruct (symbols a); [contradiction | reflexivity]. }
  rewrite Ht in Hs. break_bind Hs. destruct a0 as [m pd]. break_bind Hs.
  injection Hs as _ <-. rewrite Hlen, <- Hsym in E.
  assert (Hpd : exists p, pd = NdArray p
                          /\ Forall (fun row => List.length row = 3%nat) p
                          /\ positions a0 = positions_in (coord_flag cur_line) p a (alat st)).
  { unfold positions_in.
    assert (Hsp : forall v a1, set_positions a v = Ok a1 ->
                   v = NdArray (positions a1)
                   /\ Forall (fun row => List.length row = 3%nat) (positions a1)).
    { intros v a1. unfold set_positions. intros Hp. break_bind Hp.
      apply or_raise_ok in E1. destruct (Nat.eqb _ _); [|discriminate Hp].
      injection Hp as <-. cbn [positions]. now apply is_nx3_rows. }
    destruct (String.eqb (coord_flag cur_line) "alat)").
    { break_bind E0. destruct (Hsp _ _ E0) as [-> H3].
      destruct (times_rows _ _ _ _ E1 eq_refl) as [p [-> Hp]].
      exists p. rewrite Hp in H3. apply scaled_rows3 in H3.
      split; [reflexivity | split; assumption]. }
    destruct (String.eqb (coord_flag cur_line) "bohr)").
    { break_bind E0. destruct (Hsp _ _ E0) as [-> H3].
      destruct (times_rows _ _ _ _ E1 eq_refl) as [p [-> Hp]].
      exists p. rewrite Hp in H3. apply scaled_rows3 in H3.
      split; [reflexivity | split; assumption]. }
    destruct (String.eqb (coord_flag cur_line) "angstrom)").
    { destruct (Hsp _ _ E0) as [-> H3]. exists (positions a0).
      split; [reflexivity | split; [assumption | reflexivity]]. }
    unfold set_scaled_positions in E0. break_bind E0. apply or_raise_ok in E1.
    destruct (Nat.eqb _ _); [|discriminate E0]. injection E0 as <-.
    destruct (is_nx3_rows _ _ E1) as [-> H3]. exists a1.
    split; [reflexivity | split; [assumption | reflexivity]]. }
  destruct Hpd as [p [-> [H3 Hpos]]].
  destruct (position_rows_rows _ _ _ _ _ _ _ E H3) as [rows0 [raw [Hp0 [Hraw [Hp _]]]]].
  assert (Hl0 : List.length rows0 = List.length (symbols a)).
  { unfold len in Hlen. rewrite Hp0 in Hlen. cbn [rows_of] in Hlen. congruence. }
  cbn [firstn Nat.add app] in Hp. rewrite <- Hl0, skipn_all, app_nil_r in Hp.
  subst p. exists a0, raw.
  cbn [atomic_data with_atoms pos_data with_pos].
  split; [reflexivity | split; [exact Hraw | split; [reflexivity | exact Hpos]]].
Qed.

End Positions.

(** The ATOMIC_POSITIONS block of the sample log, in crystal coordinates. *)
Lemma atomic_positions_block_sample :
  exists tr st,
    @run_to Exact.lib sample_log 18 = Ok (tr, st)
    /\ exists a,
         atomic_data st = Some a
         /\ exists n' st',
              @step Exact.lib sample_log 18 st = Ok (n', st')
              /\ exists a' raw,
                   atomic_data st' = Some a'
                   /\ block_coordinates
                        (firstn (List.length (symbols a)) (skipn 19 sample_log)) = Ok raw
                   /\ pos_data st' = NdArray (map fill_row raw)
                   /\ positions a'
                      = positions_in (coord_flag ("ATOMIC_POSITIONS (crystal)" ++ nl))
                                     (map fill_row raw) a (alat st).
Proof.
  let v := eval vm_compute in (@run_to Exact.lib sample_log 18) in
  match v with
  | Ok (?tr, ?st) =>
      let x := eval vm_compute in (atomic_data st) in
      let w := eval vm_compute in (@step Exact.lib sample_log 18 st) in
      match x with
      | Some ?a =>
          match w with
          | Ok (?n', ?st') =>
              exists tr, st; split; [reflexivity|];
              exists a; split; [reflexivity|];
              exists n', st'; split; [reflexivity|];
              apply (@atomic_positions_block Exact.lib sample_log 18 n'
                       ("ATOMIC_POSITIONS (crystal)" ++ nl) tr st st' a);
              [reflexivity | reflexivity | reflexivity | reflexivity
              | discriminate | reflexivity]
          end
      end
  end.
Defined.

(** The positions the block of the sample log gives: a quarter of each
    cell vector. *)
Example sample_log_positions :
  exists r,
    @__init__ Exact.lib "/data/pw.out" sample_log (fun _ => true) = Ok r
    /\ map (fun a => (@positions Exact.lib a, @cell Exact.lib a)) (structures r)
       = [(Exact.dot [[1 # 4; 1 # 4; 1 # 4]]
             (@scaled Exact.lib [[q 2; q 0; q 0]; [q 0; q 2; q 0]; [q 0; q 0; q 2]]
                (@PyFloat Exact.lib (52917721067 # 10000000000))),
           @scaled Exact.lib [[q 2; q 0; q 0]; [q 0; q 2; q 0]; [q 0; q 0; q 2]]
             (@PyFloat Exact.lib (52917721067 # 10000000000)))].
Proof. run_parse. reflexivity. Qed.

(** ** Where a functional name comes from *)

Lemma lower_char_idem (c : ascii) : Py.lower_char (Py.lower_char c) = Py.lower_char c.
Proof. destruct c as [[] [] [] [] [] [] [] []]; reflexivity. Qed.

Lemma lower_idem (s : string) : Py.lower (Py.lower s) = Py.lower s.
Proof.
  induction s as [|c s IH]; cbn [Py.lower]; [reflexivity|].
  now rewrite lower_char_idem, IH.
Qed.

Lemma lower_length (s : string) : String.length (Py.lower s) = String.length s.
Proof. induction s as [|c s IH]; cbn [Py.lower String.length]; [reflexivity | now rewrite IH]. Qed.

Lemma append_inj_length (a a' b b' : string) :
  a ++ b = a' ++ b' -> String.length a = String.length a' -> a = a' /\ b = b'.
Proof.
  revert a'; induction a as [|c a IH]; intros [|c' a']; cbn [append String.length];
    try discriminate.
  - now intros ->.
  - intros [= -> Hab] [= Hlen]. destruct (IH _ Hab Hlen) as [-> ->]. now split.
Qed.

Lemma lower_fixed_app (a b : string) :
  Py.lower (a ++ b) = a ++ b -> Py.lower a = a /\ Py.lower b = b.
Proof.
  rewrite lower_app. intros Hab. apply append_inj_length; [exact Hab | apply lower_length].
Qed.

(** Stripping keeps a string in lower case. *)
Lemma lower_strip_by (f : ascii -> bool) (s : string) :
  Py.lower s = s -> Py.lower (Py.strip_by f s) = Py.strip_by f s.
Proof.
  unfold Py.strip_by. intros Hs.
  destruct (lstrip_by_suffix f s) as [a Ha].
  destruct (rstrip_by_prefix f (Py.lstrip_by f s)) as [b Hb].
  rewrite Ha in Hs. apply lower_fixed_app in Hs. destruct Hs as [_ Hs].
  rewrite Hb in Hs. apply lower_fixed_app in Hs. tauto.
Qed.

Lemma lower_join (sep : string) (l : list string) :
  Py.lower sep = sep -> Forall (fun t => Py.lower t = t) l ->
  Py.lower (Py.join sep l) = Py.join sep l.
Proof.
  intros Hsep Hl. unfold Py.join.
  induction Hl as [|x l Hx Hl IH]; [reflexivity|].
  destruct l as [|y l]; [exact Hx|].
  change (String.concat sep (x :: y :: l)) with (x ++ sep ++ String.concat sep (y :: l)).
  now rewrite !lower_app, Hx, Hsep, IH.
Qed.

Lemma xc_tokens_lower (cur_line : string) :
  Forall (fun t => Py.lower t = t) (xc_tokens cur_line).
Proof.
  unfold xc_tokens. apply Forall_forall. intros t Hin.
  apply in_map_iff in Hin. destruct Hin as [x [<- _]].
  apply lower_strip_by, lower_idem.
Qed.

Lemma xc_lookup_key (k : string) (tab : list (string * xc_entry)) (e : xc_entry) :
  xc_lookup k tab = Some e -> In (k, e) tab.
Proof.
  induction tab as [|[k' e'] tab IH]; cbn [xc_lookup]; [discriminate|].
  destruct (String.eqb k k') eqn:Hk.
  - apply String.eqb_eq in Hk. subst k'. intros [= ->]. now left.
  - intros He. right. now apply IH.
Qed.

(** The name of a line is the name of an entry of the table, with the
    tags of that entry, or the lower-cased descriptor, with no tag. *)
Lemma xc_functional_origin (cur_line : string) :
  (exists k e, In (k, e) xc_internal_map
               /\ xc_functional cur_line = (xc_name e, xc_type e))
  \/ (Py.lower (fst (xc_functional cur_line)) = fst (xc_functional cur_line)
      /\ snd (xc_functional cur_line) = []).
Proof.
  unfold xc_functional. pose proof (xc_tokens_lower cur_line) as Hlow.
  generalize xc_internal_map. intros tab.
  assert (Hm : forall s e rest, xc_matches s tab = e :: rest -> exists k, In (k, e) tab).
  { intros s e rest Hs. unfold xc_matches in Hs.
    assert (Hin : In e (filter (fun e => Py.mem_str s (xc_setup e)) (map snd tab)))
      by (rewrite Hs; now left).
    apply filter_In in Hin. destruct Hin as [Hin _].
    apply in_map_iff in Hin. destruct Hin as [[k e'] [He Hin]]. cbn [snd] in He.
    subst e'. now exists k. }
  destruct (xc_tokens cur_line) as [|k [|k2 rest]] eqn:Htok.
  - destruct (xc_matches _ tab) as [|e m] eqn:E; cbn [fst snd].
    + right. split; reflexivity.
    + left. destruct (Hm _ _ _ E) as [k Hk]. now exists k, e.
  - destruct (xc_lookup k tab) as [e|] eqn:E; cbn [fst snd].
    + left. exists k, e. split; [now apply xc_lookup_key | reflexivity].
    + right. split; [|reflexivity]. now inversion Hlow.
  - destruct (xc_matches _ tab) as [|e m] eqn:E; cbn [fst snd].
    + right. split; [|reflexivity]. now apply lower_join.
    + left. destruct (Hm _ _ _ E) as [k' Hk]. now exists k', e.
Qed.

Lemma functional_scan_line (data : list string) (found : string * list string) :
  functional_scan data = Some found ->
  found = ("", []) \/ exists cur_line, In cur_line data /\ xc_functional cur_line = found.
Proof.
  induction data as [|line data IH]; cbn [functional_scan]; [discriminate|].
  assert (Hrest : functional_scan data = Some found ->
                  found = ("", [])
                  \/ exists cur_line, In cur_line (line :: data)
                                      /\ xc_functional cur_line = found).
  { intros Hf. destruct (IH Hf) as [-> | [l [Hin Hl]]]; [now left|].
    right. exists l. split; [now right | exact Hl]. }
  destruct (is_xc_line line); [|exact Hrest].
  destruct (String.eqb _ "").
  - destruct (functional_scan data) as [found'|]; [exact Hrest|].
    intros [= <-]. now left.
  - intros [= <-]. right. exists line. split; [now left | reflexivity].
Qed.

Section Origin.

Context {L : Lib}.

(** X20: the functional name of a record is the name of an entry of the
    table, and then the tags are those of that entry, or it is a descriptor
    the table does not know, stored in lower case with no tag. *)
Theorem functional_name_origin (filename : string) (data : list string)
  (exists_ : string -> bool) (r : Output) (v : string) :
  __init__ filename data exists_ = Ok r -> H (info r) = Some v ->
  (exists k e, In (k, e) xc_internal_map
               /\ v = xc_name e /\ H_types (info r) = xc_type e)
  \/ (Py.lower v = v /\ H_types (info r) = []).
Proof.
  intros Hp Hv. apply parse_inv in Hp. destruct Hp as [tr [st [Hm [Hi _]]]].
  rewrite Hi in *. unfold main_loop in Hm.
  pose proof (scan_functional data _ 0 _ _ _ Hm ltac:(lia)) as Hf.
  cbn [skipn] in Hf. unfold functional_after in Hf.
  cbn [initial_state st_info H H_types str_truthy app] in Hf.
  destruct (functional_scan data) as [[v' t]|] eqn:Hscan.
  - injection Hf as Hh Ht. rewrite Hh in Hv. injection Hv as ->. rewrite Ht.
    destruct (functional_scan_line _ _ Hscan) as [[= -> ->] | [l [_ Hl]]];
      [right; split; reflexivity|].
    destruct (xc_functional_origin l) as [[k [e [Hin He]]] | [Hlow Hnil]].
    + left. exists k, e. rewrite Hl in He. injection He as -> ->. now repeat split.
    + right. rewrite Hl in Hlow, Hnil. now split.
  - injection Hf as Hh _. congruence.
Qed.

End Origin.

(** The name PBE of the sample log comes from the table. *)
Lemma functional_name_origin_sample :
  exists r,
    @__init__ Exact.lib "/data/pw.out" sample_log (fun _ => true) = Ok r
    /\ H (info r) = Some "PBE"
    /\ ((exists k e, In (k, e) xc_internal_map
                     /\ "PBE" = xc_name e /\ H_types (info r) = xc_type e)
        \/ (Py.lower "PBE" = "PBE" /\ H_types (info r) = [])).
Proof.
  run_parse. split; [reflexivity|].
  apply (@functional_name_origin Exact.lib "/data/pw.out" sample_log (fun _ => true));
    reflexivity.
Defined.

(** ** The running cell matrix *)

Lemma last_index_snoc (f : string -> bool) (l : list string) (x : string) :
  last_index f (l ++ [x])%list = if f x then Some (List.length l) else last_index f l.
Proof.
  induction l as [|y l IH]; cbn [app last_index List.length].
  - destruct (f x); reflexivity.
  - rewrite IH. destruct (f x); [reflexivity|].
    destruct (last_index f l); reflexivity.
Qed.

(** [data[n + 1:n + 4]]: the three lines after index [n], or those the
    file still has. *)
Lemma slice_next_three {A} (data : list A) (n : nat) :
  Py.slice data (Z.of_nat n + 1) (Z.of_nat n + 4) = firstn 3 (skipn (S n) data).
Proof.
  unfold Py.slice, Py.clip.
  assert (H1 : (Z.of_nat n + 1 <? 0) = false) by (apply Z.ltb_ge; lia).
  assert (H4 : (Z.of_nat n + 4 <? 0) = false) by (apply Z.ltb_ge; lia).
  rewrite H1, H4.
  destruct (Nat.le_gt_cases (S n) (List.length data)) as [Hle | Hgt].
  - replace (Z.to_nat (Z.min (Z.of_nat (List.length data)) (Z.max 0 (Z.of_nat n + 1))))
      with (S n) by lia.
    remember (Z.to_nat (Z.min (Z.of_nat (List.length data)) (Z.max 0 (Z.of_nat n + 4)))
              - S n)%nat as k eqn:Hk.
    assert (Hlen : List.length (skipn (S n) data) = (List.length data - S n)%nat)
      by apply length_skipn.
    destruct (Nat.le_gt_cases 3 (List.length data - S n)) as [H3 | H3].
    + now replace k with 3%nat by lia.
    + replace k with (List.length data - S n)%nat by lia.
      rewrite <- Hlen. rewrite firstn_all. symmetry. apply firstn_all2. lia.
  - rewrite (skipn_all2 data (n := S n)) by lia.
    replace (Z.to_nat (Z.min (Z.of_nat (List.length data)) (Z.max 0 (Z.of_nat n + 1))))
      with (List.length data) by lia.
    replace (Z.to_nat (Z.min (Z.of_nat (List.length data)) (Z.max 0 (Z.of_nat n + 4))))
      with (List.length data) by lia.
    rewrite Nat.sub_diag. now destruct (skipn (List.length data) data).
Qed.

Section Cell.

Context {L : Lib}.

(** Only the crystal axes and the CELL_PARAMETERS block write the running
    cell matrix. *)
Lemma step_cell_data (data : list string) (n n' : nat) (st st' : state)
  (cur_line : string) :
  nth_error data n = Some cur_line -> step data n st = Ok (n', st') ->
  is_cell_line cur_line = false ->
  if is_axes_line cur_line
  then exists rows, axes_rows data n = Ok rows /\ cell_data st' = np_array rows
  else cell_data st' = cell_data st.
Proof.
  intros Hl. unfold step, is_cell_line, is_axes_line. rewrite Hl. cbn [or_raise bind].
  destruct (rule_of cur_line); intros Hs Hc; try discriminate Hc;
    try (injection Hs as _ <-; reflexivity).
  - break_bind Hs. injection Hs as _ <-. unfold on_celldm in E.
    destruct (truthy (alat st)); [now injection E as <-|].
    break_bind E. now injection E as <-.
  - break_bind Hs. injection Hs as _ <-. unfold on_crystal_axes in E.
    rewrite slice_next_three in E. fold (axes_rows data n) in E.
    destruct (axes_rows data n) as [rows|]; [|discriminate E].
    cbn [bind] in E. injection E as <-. exists rows. split; reflexivity.
  - unfold on_site_table in Hs. destruct (negb _); [now injection Hs as _ <-|].
    break_bind Hs. destruct a as [[m pos] syms]. break_bind Hs.
    now injection Hs as _ <-.
  - unfold on_atomic_positions in Hs. break_bind Hs. destruct a as [m pd].
    destruct (atomic_data st) as [a|]; [destruct (atoms_truthy (Some a))|];
      [break_bind Hs| |]; now injection Hs as _ <-.
  - break_bind Hs. injection Hs as _ <-. unfold on_total_energy in E.
    break_bind E. now injection E as <-.
  - injection Hs as _ <-. rewrite on_exchange_correlation_functional.
    destruct (str_truthy _); reflexivity.
  - break_bind Hs. injection Hs as _ <-. unfold on_timing in E.
    destruct (_ || _); [break_bind E|]; now injection E as <-.
Qed.

(** X21: as long as no CELL_PARAMETERS line was passed, the running cell
    matrix is the one of the last crystal-axes line passed: the array of the
    numbers in tokens 3 to 5 of the (at most three) lines that follow it,
    whatever was read in between; before the first such line it is the empty
    list.  It is the matrix the first site table scales by the lattice
    parameter to give the structure its cell. *)
Theorem cell_data_last_axes (data : list string) (n : nat) :
  forall tr st,
    run_to data n = Ok (tr, st) ->
    forallb (fun l => negb (is_cell_line l)) (firstn n data) = true ->
    match last_index is_axes_line (firstn n data) with
    | Some k => exists rows, axes_rows data k = Ok rows /\ cell_data st = np_array rows
    | None => cell_data st = PyList []
    end.
Proof.
  induction n as [|n IH]; intros tr st Hr Hc.
  - cbn in Hr. injection Hr as _ <-. reflexivity.
  - apply run_to_step in Hr. destruct Hr as [tr1 [st1 [n1 [Hr Hs]]]].
    destruct (step_line _ _ _ _ Hs) as [cur_line Hl].
    rewrite (firstn_S_nth _ _ _ Hl) in *. rewrite forallb_app in Hc.
    apply andb_true_iff in Hc. destruct Hc as [Hc Hline].
    cbn [forallb] in Hline. rewrite andb_true_r in Hline.
    apply negb_true_iff in Hline.
    specialize (IH _ _ Hr Hc). rewrite last_index_snoc.
    pose proof (step_cell_data _ _ _ _ _ _ Hl Hs Hline) as Hstep.
    assert (Hn : List.length (firstn n data) = n).
    { apply firstn_length_le. apply Nat.lt_le_incl. apply nth_error_Some.
      rewrite Hl. discriminate. }
    rewrite Hn. destruct (is_axes_line cur_line); [exact Hstep|].
    rewrite Hstep. exact IH.
Qed.

End Cell.

(** The state in which the sample log reaches its site table. *)
Lemma cell_data_last_axes_sample :
  exists tr st,
    @run_to Exact.lib sample_log 7 = Ok (tr, st)
    /\ forallb (fun l => negb (is_cell_line l)) (firstn 7 sample_log) = true
    /\ match last_index is_axes_line (firstn 7 sample_log) with
       | Some k => exists rows, @axes_rows Exact.lib sample_log k = Ok rows
                                /\ cell_data st = np_array rows
       | None => cell_data st = @PyList Exact.lib []
       end.
Proof.
  let v := eval vm_compute in (@run_to Exact.lib sample_log 7) in
  match v with
  | Ok (?tr, ?st) =>
      exists tr, st; split; [reflexivity|]; split; [reflexivity|];
      apply (@cell_data_last_axes Exact.lib sample_log 7 tr st); reflexivity
  end.
Defined.

Example sample_log_axes :
  last_index is_axes_line (firstn 7 sample_log) = Some 2%nat
  /\ @axes_rows Exact.lib sample_log 2
     = Ok [[q 1; q 0; q 0]; [q 0; q 1; q 0]; [q 0; q 0; q 1]].
Proof. split; reflexivity. Qed.
